(** * Plataforma de Gestão APS: reconciliation and metrics engine

    A shallow embedding of the decision core of [app.py] (class
    [DashboardAPS]): the parameter registry and its per-INE resolution, the
    capacity classifier, the crosstab generator, the routing of uploaded
    files and the top-5 rankings, followed by the properties proved of them.

    Conventions.
    - A Python [str] is a [string]: the sequence of its UTF-8 bytes.  Byte-wise
      lexicographic order coincides with Python's code-point order.
    - Integer columns are [Z]; where the code adds up a column of [int64]
      the sum wraps around at 64 bits ([add64]).  A float cell is a
      [pyfloat]: a value of IEEE 754 binary64, kept as the rational it
      denotes; every float operation rounds its exact result to nearest, ties
      to even, on 53 bits ([round64]).  The exponent is not bounded: the
      quotients of counts that the code computes are far from overflow and
      underflow.
    - A pandas call is embedded by what pandas documents for it.  The order in
      which [sort_values] leaves equal keys depends on its [kind]; the code
      never passes one, so the default ("quicksort", documented as not
      stable) applies and is a parameter [sort_kind] of the embedding. *)

From Stdlib Require Import String Ascii List ZArith Lia.
From Stdlib Require Import Sorting.Sorted Sorting.Permutation QArith.Qcanon Field.
From Stdlib Require Import QArith QArith.Qround QArith.Qpower Lqa.
From stdpp Require Import base strings list gmap numbers.

Open Scope string_scope.
Open Scope list_scope.
Open Scope Z_scope.

(* ================================================================== *)
(** * 1. Python string primitives *)
(* ================================================================== *)

Module PyStr.

(** [str.isspace] on the ASCII range: TAB, LF, VT, FF, CR, FS, GS, RS, US
    and the space.  Strings are sequences of bytes here; the white space
    beyond ASCII (the no-break space and the like), which [str.strip]
    removes as well, is left in place. *)
Definition is_space (c : ascii) : bool :=
  let n := nat_of_ascii c in
  ((9 <=? n)%nat && (n <=? 13)%nat) || ((28 <=? n)%nat && (n <=? 32)%nat).

Fixpoint lstrip (s : string) : string :=
  match s with
  | EmptyString => EmptyString
  | String c s' => if is_space c then lstrip s' else s
  end.

Fixpoint rstrip (s : string) : string :=
  match s with
  | EmptyString => EmptyString
  | String c s' =>
      match rstrip s' with
      | EmptyString => if is_space c then EmptyString else String c EmptyString
      | r => String c r
      end
  end.

(** [s.strip()] *)
Definition strip (s : string) : string := rstrip (lstrip s).

(** [s.startswith(p)] *)
Fixpoint startswith (p s : string) : bool :=
  match p, s with
  | EmptyString, _ => true
  | String a p', String b s' => Ascii.eqb a b && startswith p' s'
  | String _ _, EmptyString => false
  end.

(** The scanning loop of [s.split(sep)] for a non-empty [sep]: [skip] counts
    the bytes of a separator just matched that are still to be consumed,
    [cur] is the piece being accumulated.  Matches are found from the left
    and never overlap. *)
Fixpoint split_aux (sep : string) (skip : nat) (cur : string) (s : string)
  : list string :=
  match s with
  | EmptyString => [cur]
  | String c s' =>
      match skip with
      | S n => split_aux sep n cur s'
      | O =>
          if startswith sep s
          then cur :: split_aux sep (Nat.pred (String.length sep)) EmptyString s'
          else split_aux sep O (cur +:+ String c EmptyString) s'
      end
  end.

(** [s.split(sep)] *)
Definition split (sep s : string) : list string := split_aux sep O EmptyString s.

(** [pieces[-1]] on the result of a split (never empty). *)
Definition last_piece (pieces : list string) : string :=
  List.last pieces EmptyString.

(** [sub in s] *)
Definition occurs (sub s : string) : Prop := exists a b, s = a +:+ sub +:+ b.

(** The last piece of splitting from the right, [s.rsplit(sep, 1)]: the pair
    around the last occurrence of the one-byte separator [sep], or [None]
    when there is none (the caller's tuple unpacking then raises
    [ValueError]). *)
Fixpoint rsplit1 (sep : ascii) (s : string) : option (string * string) :=
  match s with
  | EmptyString => None
  | String c s' =>
      match rsplit1 sep s' with
      | Some (a, b) => Some (String c a, b)
      | None => if Ascii.eqb c sep then Some (EmptyString, s') else None
      end
  end.

(** Code-point order on [str], as [sorted] and pandas' group keys use it. *)
Definition leb (a b : string) : bool := String.leb a b.

Fixpoint insert_sorted (x : string) (l : list string) : list string :=
  match l with
  | [] => [x]
  | y :: l' => if String.leb x y then x :: l else y :: insert_sorted x l'
  end.

(** [sorted(l)] *)
Definition sorted (l : list string) : list string :=
  foldr insert_sorted [] l.

(** [Series.unique()]: first occurrences, in order of appearance. *)
Fixpoint unique (l : list string) : list string :=
  match l with
  | [] => []
  | x :: l' => x :: List.filter (fun y => negb (String.eqb x y)) (unique l')
  end.

End PyStr.

(* ================================================================== *)
(** * 2. pandas ordering primitives *)
(* ================================================================== *)

Module Pandas.

(** What a call either returns or raises. *)
Inductive outcome (A : Type) : Type :=
| Returns (a : A)
| Raises (exn : string).
Arguments Returns {A} a.
Arguments Raises {A} exn.

(** [rows.take(indexer)] *)
Definition take_rows {A : Type} (rows : list A) (ix : list nat) : list A :=
  omap (fun i => rows !! i) ix.

Definition key_at (keys : list Z) (i : nat) : Z := default 0 (keys !! i).

(** Descending order on a key column. *)
Definition descending (a b : Z) : Prop := b <= a.
Definition desc_by {A : Type} (key : A -> Z) (a b : A) : Prop := key b <= key a.

(** The sorting algorithm behind [sort_values(by, ascending=False)]: the
    indexer it computes from the key column alone.  Every [kind] yields a
    permutation of the positions along which the keys descend; nothing else
    is promised of the default one. *)
Record sort_kind : Type := {
  indexer : list Z -> list nat;
  indexer_perm : forall keys, Permutation (indexer keys) (seq 0 (length keys));
  indexer_desc : forall keys, StronglySorted descending (take_rows keys (indexer keys))
}.

(** [df.sort_values(by, ascending=False)] under a given kind. *)
Definition sort_values_desc {A : Type} (k : sort_kind) (by_ : A -> Z)
    (rows : list A) : list A :=
  take_rows rows (indexer k (map by_ rows)).

(** A stable kind ([kind="stable"], [kind="mergesort"]) leaves the positions
    of every key value in their original order. *)
Definition stable (k : sort_kind) : Prop :=
  forall (keys : list Z) (v : Z),
    filter (fun i => key_at keys i = v) (indexer k keys)
    = filter (fun i => key_at keys i = v) (seq 0 (length keys)).

(** Insertion sort into descending order.  With [strict = false] an element
    is placed before the equal ones already there, which came after it in
    the input (a stable sort); with [strict = true] it is placed after them. *)
Section Insertion.
Context {A : Type} (key : A -> Z) (strict : bool).

Definition goes_first (x y : A) : bool :=
  if strict then key y <? key x else key y <=? key x.

Fixpoint insert_desc (x : A) (l : list A) : list A :=
  match l with
  | [] => [x]
  | y :: l' => if goes_first x y then x :: l else y :: insert_desc x l'
  end.

Definition isort_desc (l : list A) : list A := foldr insert_desc [] l.

End Insertion.

(** The stable sort that [kind="mergesort"] stands for. *)
Definition stable_sort_desc {A : Type} (key : A -> Z) (l : list A) : list A :=
  isort_desc key false l.

End Pandas.

Import Pandas.

(* ================================================================== *)
(** * 3. Parameter registry ([carregar_parametros]) *)
(* ================================================================== *)

(** The parameter dictionary of a team: ['tipo'], ['parametro'],
    ['limite_maximo']. *)
Record TeamParams : Type := {
  tipo : string;
  parametro : Z;
  limite_maximo : Z
}.

(** One value of [PARAMETROS_POR_MUNICIPIO]; ['eap_por_ine'] is optional. *)
Record RegistryEntry : Type := {
  parametro_esf : Z;
  limite_esf : Z;
  eap_por_ine : option (gmap string TeamParams)
}.

Definition esf_only (p l : Z) : RegistryEntry :=
  {| parametro_esf := p; limite_esf := l; eap_por_ine := None |}.

Definition PARAMETROS_POR_MUNICIPIO : list (string * RegistryEntry) :=
  [ ("ALHANDRA-PB",
     {| parametro_esf := 2500; limite_esf := 3750;
        eap_por_ine := Some
          {[ "0009999" := {| tipo := "30"; parametro := 1875; limite_maximo := 2813 |} ]} |});
    ("MACAÍBA-RN",
     {| parametro_esf := 2750; limite_esf := 4125;
        eap_por_ine := Some
          (<[ "0001234" := {| tipo := "20"; parametro := 1375; limite_maximo := 2063 |} ]>
           {[ "0005678" := {| tipo := "30"; parametro := 1875; limite_maximo := 2813 |} ]}) |});
    ("VALENÇA-RJ",
     {| parametro_esf := 2750; limite_esf := 4125;
        eap_por_ine := Some
          {[ "0004321" := {| tipo := "20"; parametro := 1375; limite_maximo := 2063 |} ]} |});
    ("ÁGUA PRETA-PE", esf_only 2500 3750);
    ("ÁGUAS BELAS-PE", esf_only 2500 3750);
    ("ALTO DO RODRIGUES-RN", esf_only 2000 3000);
    ("APODI-RN", esf_only 2500 3750);
    ("ARAPONGA-MG", esf_only 2000 3000);
    ("AREIA-PB", esf_only 2500 3750);
    ("AÇU-RN", esf_only 2750 4125);
    ("BRUMADO-BA", esf_only 2750 4125);
    ("CAAPORÃ-PB", esf_only 2500 3750);
    ("CALDAS BRANDÃO-PB", esf_only 2000 3000);
    ("CANAÃ-MG", esf_only 2000 3000);
    ("CARNAUBAIS-RN", esf_only 2000 3000);
    ("CONDE-PB", esf_only 2500 3750);
    ("CORDEIRO-RJ", esf_only 2500 3750);
    ("FERNANDO PEDROZA-RN", esf_only 2000 3000);
    ("GROSSOS-RN", esf_only 2000 3000);
    ("GUARABIRA-PB", esf_only 2750 4125);
    ("ITABAIANA-PB", esf_only 2500 3750);
    ("ITAPOROROCA-PB", esf_only 2000 3000);
    ("ITATUBA-PB", esf_only 2000 3000);
    ("MOGEIRO-PB", esf_only 2000 3000);
    ("PATU-RN", esf_only 2000 3000);
    ("PAULA CÂNDIDO-MG", esf_only 2000 3000);
    ("PEDRO VELHO-RN", esf_only 2000 3000);
    ("PENDÊNCIAS-RN", esf_only 2000 3000);
    ("POÇO BRANCO-RN", esf_only 2000 3000);
    ("SANTA RITA-PB", esf_only 3000 4500);
    ("SÃO JOSÉ DE UBÁ-RJ", esf_only 2000 3000);
    ("SÃO MIGUEL DO ANTA-MG", esf_only 2000 3000);
    ("TIBAU-RN", esf_only 2000 3000);
    ("VIÇOSA-MG", esf_only 2750 4125);
    ("VIÇOSA DO CEARÁ-CE", esf_only 2750 4125) ].

(** A row of the parameter frame; [EAP_POR_INE] is
    [params.get('eap_por_ine', {})]. *)
Record ParamRow : Type := {
  MUNICIPIO : string;
  UF : string;
  PARAMETRO_ESF : Z;
  LIMITE_ESF : Z;
  EAP_POR_INE : gmap string TeamParams
}.

(** The body of the loop of [carregar_parametros]: a key that does not
    unpack into name and state is reported and skipped. *)
Definition registry_row (municipio_uf : string) (params : RegistryEntry)
  : option ParamRow :=
  match PyStr.rsplit1 "-" municipio_uf with
  | Some (nome, uf) =>
      Some {| MUNICIPIO := nome; UF := uf;
              PARAMETRO_ESF := parametro_esf params;
              LIMITE_ESF := limite_esf params;
              EAP_POR_INE := default ∅ (eap_por_ine params) |}
  | None => None
  end.

Definition carregar_parametros_de (registry : list (string * RegistryEntry))
  : list ParamRow :=
  omap (fun kv => registry_row kv.1 kv.2) registry.

Definition carregar_parametros : list ParamRow :=
  carregar_parametros_de PARAMETROS_POR_MUNICIPIO.

(* ================================================================== *)
(** * 4. Uploaded files and their routing ([_processar_uploads]) *)
(* ================================================================== *)

(** A table as pandas holds it, column by column: each column is its label
    and its cells, a missing cell (NaN) being [None]. *)
Definition DataFrame : Type := list (string * list (option string)).

Definition columns (df : DataFrame) : list string := map fst df.

(** [c in df.columns] *)
Definition has_column (df : DataFrame) (c : string) : bool :=
  existsb (String.eqb c) (columns df).

(** [df[c]]: the cells of the column labelled [c]. *)
Fixpoint column (df : DataFrame) (c : string) : option (list (option string)) :=
  match df with
  | [] => None
  | (c', cells) :: df' => if String.eqb c c' then Some cells else column df' c
  end.

(** [df.columns = df.columns.str.strip()] *)
Definition strip_columns (df : DataFrame) : DataFrame :=
  map (fun col => (PyStr.strip col.1, col.2)) df.

(** An uploaded file: its name and its workbook, which is its sheets in
    order, or [None] when the bytes are not a readable workbook. *)
Record UploadedFile : Type := {
  name : string;
  workbook : option (list (string * DataFrame))
}.

Fixpoint sheet_named (sheets : list (string * DataFrame)) (n : string)
  : option DataFrame :=
  match sheets with
  | [] => None
  | (n', df) :: rest => if String.eqb n n' then Some df else sheet_named rest n
  end.

(** [pd.read_excel(bytes, sheet_name=...)]; [None] is an exception, which
    every caller catches.  Without a sheet name the first sheet is read. *)
Definition read_excel (file : UploadedFile) (sheet_name : option string)
  : option DataFrame :=
  match workbook file, sheet_name with
  | None, _ => None
  | Some sheets, Some n => sheet_named sheets n
  | Some sheets, None => head (map snd sheets)
  end.

Definition COL_STATUS_DOC : string := "STATUS DOCUMENTO".
Definition COL_TEMPO_SEM_ATUALIZAR : string := "TEMPO SEM ATUALIZAR".
Definition COL_UNIDADE : string := "UNIDADE DE SAÚDE".
Definition COL_NOME_EQUIPE : string := "NOME EQUIPE".
Definition COL_INE : string := "INE".
Definition COL_CIDADAO : string := "CIDADÃO".
Definition COL_EQUIPE_COMPLETA : string := "EQUIPE_COMPLETA".
Definition COL_FAMILIA_VINCULADA : string := "TEM FAMÍLIA VÍNCULADA?".
Definition DOM_COL_UNIDADE : string := "Estabelecimento".

Definition req_cidadaos : list string :=
  [COL_STATUS_DOC; COL_TEMPO_SEM_ATUALIZAR; COL_UNIDADE; COL_NOME_EQUIPE;
   COL_INE; COL_CIDADAO].

Definition req_domicilios : list string :=
  [DOM_COL_UNIDADE; "INE"; COL_TEMPO_SEM_ATUALIZAR; COL_FAMILIA_VINCULADA].

Section Uploads.

(** The column transformations that follow the check of the required
    columns (selection, [dropna], upper-casing, the composite keys, and the
    coercion of the ['DATA'] cells): pandas code of which only one thing
    matters to the routing, whether it raises ([None], caught by the
    parser's [except]). *)
Variable normalizar_cidadaos : DataFrame -> option DataFrame.
Variable normalizar_domicilios : DataFrame -> option DataFrame.
Variable to_datetime_coerce : list (option string) -> option (list (option string)).

Definition _ler_planilha_cidadaos (file : UploadedFile) : option DataFrame :=
  match read_excel file (Some "DETALHADO") with
  | None => None
  | Some df =>
      let df := strip_columns df in
      if forallb (has_column df) req_cidadaos
      then normalizar_cidadaos df
      else None
  end.

Definition _ler_planilha_domicilios (file : UploadedFile) : option DataFrame :=
  match read_excel file (Some "DETALHADO") with
  | None => None
  | Some df =>
      let df := strip_columns df in
      if forallb (has_column df) req_domicilios
      then normalizar_domicilios df
      else None
  end.

(** [df['DATA'] = pd.to_datetime(df['DATA'], errors='coerce')] *)
Definition converter_datas (df : DataFrame) : option DataFrame :=
  match column df "DATA" with
  | None => Some df
  | Some cells =>
      match to_datetime_coerce cells with
      | Some datas =>
          Some (map (fun col => if String.eqb col.1 "DATA" then (col.1, datas) else col) df)
      | None => None
      end
  end.

Definition _ler_planilha_produtividade (file : UploadedFile) : option DataFrame :=
  match read_excel file None with
  | None => None
  | Some df => converter_datas (strip_columns df)
  end.

(** The three lists the loop of [_processar_uploads] fills. *)
Record Uploads : Type := {
  cid_list : list DataFrame;
  dom_list : list DataFrame;
  prod_list : list DataFrame
}.

Definition no_uploads : Uploads :=
  {| cid_list := []; dom_list := []; prod_list := [] |}.

(** One turn of the loop over [files]. *)
Definition processar_arquivo (acc : Uploads) (f : UploadedFile) : Uploads :=
  match _ler_planilha_cidadaos f with
  | Some df_cid =>
      {| cid_list := cid_list acc ++ [df_cid];
         dom_list := dom_list acc; prod_list := prod_list acc |}
  | None =>
      match _ler_planilha_domicilios f with
      | Some df_dom =>
          {| cid_list := cid_list acc;
             dom_list := dom_list acc ++ [df_dom]; prod_list := prod_list acc |}
      | None =>
          match _ler_planilha_produtividade f with
          | Some df_prod =>
              if has_column df_prod "EQUIPE"
              then {| cid_list := cid_list acc; dom_list := dom_list acc;
                      prod_list := prod_list acc ++ [df_prod] |}
              else acc
          | None => acc
          end
      end
  end.

Definition _processar_uploads (files : list UploadedFile) : Uploads :=
  foldl processar_arquivo no_uploads files.

End Uploads.

(* ================================================================== *)
(** * 5. [DashboardAPS]: state, municipality selection, team parameters *)
(* ================================================================== *)

(** The attributes of [DashboardAPS] that the parameter resolution reads
    and [render_controls] writes.  [parametros_municipio_atual] is a
    dictionary: [None] is the empty one of [__init__], [Some row] is
    [pars.to_dict()].  [brutos] stands for the three attributes
    [df_cid_bruto], [df_dom_bruto] and [df_prod_bruto]: each is kept as the
    list of frames that [pd.concat] joined into it, the empty list being
    [None]. *)
Record DashboardAPS : Type := {
  df_parametros : list ParamRow;
  municipio_selecionado : option string;
  parametro_oficial : Z;
  limite_oficial : Z;
  parametros_municipio_atual : option ParamRow;
  brutos : Uploads
}.

(** [DashboardAPS.__init__] *)
Definition init : DashboardAPS :=
  {| df_parametros := carregar_parametros;
     municipio_selecionado := None;
     parametro_oficial := 0;
     limite_oficial := 0;
     parametros_municipio_atual := None;
     brutos := no_uploads |}.

(** [_get_parametros_por_ine] *)
Definition _get_parametros_por_ine (self : DashboardAPS) (ine : string)
  : TeamParams :=
  let eap_map : gmap string TeamParams :=
    match parametros_municipio_atual self with
    | Some pars => EAP_POR_INE pars
    | None => ∅
    end in
  match eap_map !! ine with
  | Some params => params
  | None => {| tipo := "ESF";
               parametro := parametro_oficial self;
               limite_maximo := limite_oficial self |}
  end.

(** The three assignments of [render_controls] that install the row [pars]
    of the municipality [m]:
    [self.municipio_selecionado = m],
    [self.parametros_municipio_atual = pars.to_dict()],
    [self.parametro_oficial, self.limite_oficial = pars['PARAMETRO_ESF'], pars['LIMITE_ESF']]. *)
Definition definir_parametros (self : DashboardAPS) (m : string) (pars : ParamRow)
  : DashboardAPS :=
  {| df_parametros := df_parametros self;
     municipio_selecionado := Some m;
     parametro_oficial := PARAMETRO_ESF pars;
     limite_oficial := LIMITE_ESF pars;
     parametros_municipio_atual := Some pars;
     brutos := brutos self |}.

(** The three assignments that end [_processar_uploads]: a list that is
    not empty replaces the frame, an empty one leaves it as it was. *)
Definition atribuir_brutos (self : DashboardAPS) (novos : Uploads) : DashboardAPS :=
  let manter (novo antes : list DataFrame) :=
    match novo with
    | [] => antes
    | _ :: _ => novo
    end in
  {| df_parametros := df_parametros self;
     municipio_selecionado := municipio_selecionado self;
     parametro_oficial := parametro_oficial self;
     limite_oficial := limite_oficial self;
     parametros_municipio_atual := parametros_municipio_atual self;
     brutos := {| cid_list := manter (cid_list novos) (cid_list (brutos self));
                  dom_list := manter (dom_list novos) (dom_list (brutos self));
                  prod_list := manter (prod_list novos) (prod_list (brutos self)) |} |}.

(** [self.df_cid_bruto is None and self.df_dom_bruto is None and
    self.df_prod_bruto is None] *)
Definition sem_planilhas (self : DashboardAPS) : bool :=
  match cid_list (brutos self), dom_list (brutos self), prod_list (brutos self) with
  | [], [], [] => true
  | _, _, _ => false
  end.

Section Controls.

(** [_normalize_text]: NFKD decomposition, removal of the non-ASCII code
    points, upper-casing and stripping, all of [unicodedata] and [str]. *)
Variable _normalize_text : string -> string.

(** The column transformations of the parsers, as in [_processar_uploads]. *)
Variable normalizar_cidadaos : DataFrame -> option DataFrame.
Variable normalizar_domicilios : DataFrame -> option DataFrame.
Variable to_datetime_coerce : list (option string) -> option (list (option string)).

(** [os.path.basename(path)] *)
Definition basename (path : string) : string :=
  match PyStr.rsplit1 "/" path with
  | Some (_, b) => b
  | None => path
  end.

(** [_normalize_text(os.path.basename(f.name).split('_')[0])] *)
Definition file_token (f : UploadedFile) : string :=
  _normalize_text (default EmptyString (head (PyStr.split "_" (basename (name f))))).

(** [sorted(self.df_parametros['MUNICIPIO'].unique())] *)
Definition municipios (self : DashboardAPS) : list string :=
  PyStr.sorted (PyStr.unique (map MUNICIPIO (df_parametros self))).

(** [{_normalize_text(m): m for m in municipios}]: a later name replaces an
    earlier one under the same key. *)
Definition map_norm (self : DashboardAPS) : gmap string string :=
  foldl (fun (m : gmap string string) mu => <[ _normalize_text mu := mu ]> m)
        ∅ (municipios self).

(** [next((map_norm[token] for f in files if token in map_norm), None)] *)
Fixpoint municipio_inferido (norm : gmap string string)
    (files : list UploadedFile) : option string :=
  match files with
  | [] => None
  | f :: rest =>
      match norm !! file_token f with
      | Some m => Some m
      | None => municipio_inferido norm rest
      end
  end.

(** [self.df_parametros.query("MUNICIPIO == @m").iloc[0]] *)
Definition query_municipio (df : list ParamRow) (m : string) : outcome ParamRow :=
  match List.find (fun r => String.eqb (MUNICIPIO r) m) df with
  | Some pars => Returns pars
  | None => Raises "IndexError"
  end.

(** The choice of the municipality and the loading of its parameters.
    [inferido or municipios[0]] takes the second operand when the first is
    [None] or the empty string. *)
Definition selecionar_municipio (self : DashboardAPS)
    (files : list UploadedFile) : outcome DashboardAPS :=
  let municipios := municipios self in
  let escolha : outcome string :=
    match municipio_inferido (map_norm self) files with
    | Some (String c m) => Returns (String c m)
    | _ => match municipios with
           | m0 :: _ => Returns m0
           | [] => Raises "IndexError"
           end
    end in
  match escolha with
  | Raises e => Raises e
  | Returns m =>
      match query_municipio (df_parametros self) m with
      | Raises e => Raises e
      | Returns pars => Returns (definir_parametros self m pars)
      end
  end.

(** [render_controls], from the uploader to the filter widgets.  Without
    files the method returns at once; the files are routed by
    [_processar_uploads]; when no frame came out of them the method returns
    again, before any municipality is chosen. *)
Definition render_controls (self : DashboardAPS)
    (files : list UploadedFile) : outcome DashboardAPS :=
  match files with
  | [] => Returns self
  | _ :: _ =>
      let self :=
        atribuir_brutos self
          (_processar_uploads normalizar_cidadaos normalizar_domicilios
             to_datetime_coerce files) in
      if sem_planilhas self then Returns self
      else selecionar_municipio self files
  end.

End Controls.

(* ================================================================== *)
(** * 6. Capacity classifier ([_calcular_vinculos]) *)
(* ================================================================== *)

(** A row of the citizens frame after ingestion.  [dropna] leaves no row
    whose facility, team name, INE or citizen is missing.  The composite
    key is [NOME EQUIPE.str.strip() + ' - ' + INE]: for a team name that is
    not text [.str.strip()] gives NaN, and so is the key; such a name and
    its key are [None] here. *)
Record CitizenRecord : Type := {
  STATUS_DOCUMENTO : option string;
  TEMPO_SEM_ATUALIZAR : option string;
  UNIDADE_DE_SAUDE : string;
  NOME_EQUIPE : option string;
  INE_EQUIPE : string;
  CIDADAO : string;
  EQUIPE_COMPLETA : option string
}.

(** [groupby(keys)[col].agg()] with the default [sort=True]: one entry per
    key, the keys ascending, the values merged in row order. *)
Section GroupBy.
Context {K V : Type} (cmp : K -> K -> comparison) (agg : V -> V -> V).

Fixpoint group_insert (k : K) (v : V) (g : list (K * V)) : list (K * V) :=
  match g with
  | [] => [(k, v)]
  | (k', v') :: g' =>
      match cmp k k' with
      | Eq => (k', agg v' v) :: g'
      | Lt => (k, v) :: g
      | Gt => (k', v') :: group_insert k v g'
      end
  end.

Definition groupby (rows : list (K * V)) : list (K * V) :=
  foldl (fun g kv => group_insert kv.1 kv.2 g) [] rows.

End GroupBy.

(** Order of the two-column group key: by facility, then by team. *)
Definition compare_pair (a b : string * string) : comparison :=
  match String.compare a.1 b.1 with
  | Eq => String.compare a.2 b.2
  | c => c
  end.

Inductive status : Type :=
| Dentro_do_Parametro
| Acima_do_Parametro
| ACIMA_DO_LIMITE_MAXIMO.

(** The text the code stores in the ['Status'] column. *)
Definition status_label (s : status) : string :=
  match s with
  | Dentro_do_Parametro => "✅ Dentro do Parâmetro"
  | Acima_do_Parametro => "⚠️ Acima do Parâmetro"
  | ACIMA_DO_LIMITE_MAXIMO => "🚨 ACIMA DO LIMITE MÁXIMO"
  end.

(** [get_status], on the three cells of the row it reads. *)
Definition get_status (n_vinculadas parametro_equipe limite_equipe : Z) : status :=
  if limite_equipe <? n_vinculadas then ACIMA_DO_LIMITE_MAXIMO
  else if parametro_equipe <? n_vinculadas then Acima_do_Parametro
  else Dentro_do_Parametro.

(** A row of [df_vinculos]. *)
Record VinculoRow : Type := {
  Unidade_de_Saude : string;
  Equipe_Original : string;
  N_de_Pessoas_Vinculadas : Z;
  INE : string;
  Tipo_de_Equipe : string;
  Parametro_Equipe : Z;
  Limite_Equipe : Z;
  Status : status;
  Equipe : string
}.

(** [.str.split(' - ').str[-1].str.strip()] *)
Definition ine_da_equipe (equipe_original : string) : string :=
  PyStr.strip (PyStr.last_piece (PyStr.split " - " equipe_original)).

(** [formatar_nome_exibicao] *)
Definition formatar_nome_exibicao (tipo_de_equipe unidade ine : string) : string :=
  let tipo_sigla :=
    if String.eqb tipo_de_equipe "20" || String.eqb tipo_de_equipe "30"
    then "EAP " +:+ tipo_de_equipe else "ESF" in
  tipo_sigla +:+ " - " +:+ unidade +:+ " - " +:+ ine.

(** The grouped counts: one row per (facility, composite team key).
    [groupby] leaves out the rows whose key is missing. *)
Definition contar_vinculos (df_cid_filtrado : list CitizenRecord)
  : list ((string * string) * Z) :=
  groupby compare_pair Z.add
    (omap (fun r => match EQUIPE_COMPLETA r with
                    | Some equipe => Some ((UNIDADE_DE_SAUDE r, equipe), 1)
                    | None => None
                    end) df_cid_filtrado).

(** The columns added to one grouped row. *)
Definition classificar (self : DashboardAPS) (g : (string * string) * Z) : VinculoRow :=
  let ine := ine_da_equipe g.1.2 in
  let params := _get_parametros_por_ine self ine in
  {| Unidade_de_Saude := g.1.1;
     Equipe_Original := g.1.2;
     N_de_Pessoas_Vinculadas := g.2;
     INE := ine;
     Tipo_de_Equipe := tipo params;
     Parametro_Equipe := parametro params;
     Limite_Equipe := limite_maximo params;
     Status := get_status g.2 (parametro params) (limite_maximo params);
     Equipe := formatar_nome_exibicao (tipo params) g.1.1 ine |}.

(** The frame before the final [sort_values]. *)
Definition vinculos_classificados (self : DashboardAPS)
    (df_cid_filtrado : list CitizenRecord) : list VinculoRow :=
  map (classificar self) (contar_vinculos df_cid_filtrado).

(** [_calcular_vinculos]: the classified frame under
    [sort_values('Nº de Pessoas Vinculadas', ascending=False)].  The call
    names no [kind], so the algorithm is the parameter [k].  On a grouped
    frame without rows [apply(get_status, axis=1)] returns a frame, not a
    column, and its assignment to ['Status'] raises [ValueError]. *)
Definition _calcular_vinculos (k : sort_kind) (self : DashboardAPS)
    (df_cid_filtrado : list CitizenRecord) : outcome (list VinculoRow) :=
  match contar_vinculos df_cid_filtrado with
  | [] => Raises "ValueError"
  | _ :: _ =>
      Returns (sort_values_desc k N_de_Pessoas_Vinculadas
                 (vinculos_classificados self df_cid_filtrado))
  end.

(* ================================================================== *)
(** * 7. Crosstab generator ([_gerar_grafico_barras_crosstab]) *)
(* ================================================================== *)

(** A frame of integer cells: column labels, and per row the index label
    and one cell per column. *)
Record CountTable : Type := {
  ct_columns : list string;
  ct_rows : list (string * list Z)
}.

(** ** IEEE 754 binary64, as numpy's [float64] computes

    A finite float is kept as the rational it denotes.  [round64] gives the
    float nearest to a rational, ties going to the even mantissa: the
    rounding that follows every float operation and the conversion of an
    integer.  The exponent is not bounded: the quotients and products of
    the counts of a frame stay far inside the normal range. *)
Module Float64.
Local Open Scope Q_scope.

(** The nearest integer, ties to even. *)
Definition round_half_even (y : Q) : Z :=
  let f := Qfloor y in
  match Qcompare (y - inject_Z f) (Qmake 1 2) with
  | Lt => f
  | Gt => (f + 1)%Z
  | Eq => if Z.even f then f else (f + 1)%Z
  end.

(** The exponent [e] of a positive rational: [2^e <= y < 2^(e+1)]. *)
Definition exponent (y : Q) : Z :=
  let e := (Z.log2 (Qnum y) - Z.log2 (Zpos (Qden y)))%Z in
  if Qle_bool (2 ^ e) y then e else (e - 1)%Z.

(** A positive rational rounded to a mantissa of 53 bits. *)
Definition round64_pos (y : Q) : Q :=
  let e := exponent y in
  inject_Z (round_half_even (y * 2 ^ (52 - e))) * 2 ^ (e - 52).

Definition Qround64 (y : Q) : Q :=
  match Qnum y with
  | Z0 => 0
  | Zpos _ => round64_pos y
  | Zneg _ => - round64_pos (- y)
  end.

Definition round64 (x : Qc) : Qc := Q2Qc (Qround64 x).

(** The unit roundoff [2^-53]. *)
Definition u64 : Qc := Q2Qc (Qmake 1 (2 ^ 53)).

(** The conversion of an [int64] cell to [float64]. *)
Definition float_of_Z (z : Z) : Qc := round64 (Qc_of_Z z).

End Float64.

Import Float64.

(** A float cell: a finite binary64 value, an infinity or NaN. *)
Inductive pyfloat : Type :=
| Fin (q : Qc)
| PosInf
| NegInf
| NaN.

Record PercTable : Type := {
  pt_columns : list string;
  pt_rows : list (string * list pyfloat)
}.

(** The observations a crosstab counts: the rows where neither the index
    nor the category is missing. *)
Definition observations (index cats : list (option string))
  : list (string * string) :=
  omap (fun gc => match gc with
                  | (Some g, Some c) => Some (g, c)
                  | _ => None
                  end) (zip index cats).

Definition count_obs (obs : list (string * string)) (g c : string) : Z :=
  Z.of_nat (length (List.filter
    (fun o => String.eqb o.1 g && String.eqb o.2 c) obs)).

(** [pd.crosstab(index=..., columns=...)]: the distinct index values and
    the distinct categories, both ascending, and the count of each pair. *)
Definition pd_crosstab (index cats : list (option string)) : CountTable :=
  let obs := observations index cats in
  let cols := PyStr.sorted (PyStr.unique (map snd obs)) in
  {| ct_columns := cols;
     ct_rows := map (fun g => (g, map (count_obs obs g) cols))
                    (PyStr.sorted (PyStr.unique (map fst obs))) |}.

(** [cat in tab.columns] *)
Definition ct_has (tab : CountTable) (c : string) : bool :=
  existsb (String.eqb c) (ct_columns tab).

(** [tab[c] = v] for a label the frame may already have: every column of
    that label is overwritten, and a new one is appended when there is
    none.  [vs] gives the new cell of each row. *)
Fixpoint overwrite (labels : list string) (c : string) (v : Z) (cells : list Z)
  : list Z :=
  match labels, cells with
  | l :: labels', x :: cells' =>
      (if String.eqb l c then v else x) :: overwrite labels' c v cells'
  | _, _ => cells
  end.

Definition set_column (tab : CountTable) (c : string)
    (value : string * list Z -> Z) : CountTable :=
  if ct_has tab c
  then {| ct_columns := ct_columns tab;
          ct_rows := map (fun r : string * list Z => (r.1, overwrite (ct_columns tab) c (value r) r.2))
                         (ct_rows tab) |}
  else {| ct_columns := ct_columns tab ++ [c];
          ct_rows := map (fun r : string * list Z => (r.1, r.2 ++ [value r])) (ct_rows tab) |}.

(** The cell of a row under the first column labelled [c]. *)
Fixpoint cell (labels : list string) (cells : list Z) (c : string) : option Z :=
  match labels, cells with
  | l :: labels', x :: cells' =>
      if String.eqb l c then Some x else cell labels' cells' c
  | _, _ => None
  end.

(** [tab[ordem]]: the listed columns in the listed order; a label that the
    frame lacks raises [KeyError]. *)
Definition select_columns (tab : CountTable) (ordem : list string)
  : outcome CountTable :=
  if forallb (ct_has tab) ordem
  then Returns
         {| ct_columns := ordem;
            ct_rows := map (fun r : string * list Z =>
                         (r.1, map (fun c => default 0 (cell (ct_columns tab) r.2 c)) ordem))
                       (ct_rows tab) |}
  else Raises "KeyError".

(** [tab.sum(axis=1)] on one row *)
Definition row_sum (r : string * list Z) : Z := foldr Z.add 0 r.2.

(** [tab.drop(columns=c)]: the cells of a row outside the columns labelled
    [c]. *)
Fixpoint drop_cells {A : Type} (labels : list string) (c : string)
    (cells : list A) : list A :=
  match labels, cells with
  | l :: labels', x :: cells' =>
      if String.eqb l c then drop_cells labels' c cells'
      else x :: drop_cells labels' c cells'
  | _, _ => []
  end.

Definition drop_label (labels : list string) (c : string) : list string :=
  List.filter (fun l => negb (String.eqb l c)) labels.

(** Element-wise [/] of an integer cell by an integer: both are converted
    to [float64] and the quotient is rounded; division by zero gives an
    infinity, or NaN for [0 / 0]. *)
Definition truediv (a b : Z) : pyfloat :=
  if b =? 0
  then (if a =? 0 then NaN else if 0 <? a then PosInf else NegInf)
  else Fin (round64 (float_of_Z a / float_of_Z b))%Qc.

(** [.fillna(0)] *)
Definition fillna0 (x : pyfloat) : pyfloat :=
  match x with
  | NaN => Fin 0%Qc
  | _ => x
  end.

(** [* 100]: the product is rounded. *)
Definition times100 (x : pyfloat) : pyfloat :=
  match x with
  | Fin q => Fin (round64 (q * Qc_of_Z 100))%Qc
  | _ => x
  end.

(** The loop [for cat in ordem: if cat not in tab.columns: tab[cat] = 0]. *)
Definition zero_fill (tab : CountTable) (ordem : list string) : CountTable :=
  foldl (fun t cat => if ct_has t cat then t else set_column t cat (fun _ => 0))
        tab ordem.

(** [tab['Total']] on one row of a frame with the given column labels. *)
Definition total_de (labels : list string) (r : string * list Z) : Z :=
  default 0 (cell labels r.2 "Total").

(** The expression applied to each cell of [perc_df]: [/ total], then
    [.fillna(0)], then [* 100]. *)
Definition percentual (total x : Z) : pyfloat :=
  times100 (fillna0 (truediv x total)).

(** [tab.sort_values('Total', ascending=False)]: a label carried by more
    than one column raises [ValueError]. *)
Definition sort_by_total (k : sort_kind) (tab : CountTable) : outcome CountTable :=
  match List.filter (String.eqb "Total") (ct_columns tab) with
  | [_] =>
      Returns
        {| ct_columns := ct_columns tab;
           ct_rows := sort_values_desc k (total_de (ct_columns tab)) (ct_rows tab) |}
  | [] => Raises "KeyError"
  | _ => Raises "ValueError"
  end.

(** [tab.drop(columns='Total').div(tab['Total'], axis=0).fillna(0) * 100] *)
Definition percentuais (tab : CountTable) : PercTable :=
  {| pt_columns := drop_label (ct_columns tab) "Total";
     pt_rows := map (fun r : string * list Z =>
                  (r.1, map (percentual (total_de (ct_columns tab) r))
                            (drop_cells (ct_columns tab) "Total" r.2)))
                (ct_rows tab) |}.

(** [_gerar_grafico_barras_crosstab]: [Returns None] is the pair
    [(None, None)]; otherwise the percentage frame the figure is drawn from
    and the frame [tab] that is returned with it.  The figure itself is not
    part of the model: [perc_df.reset_index().melt(...)] and [px.bar] run
    after both frames are computed and can still raise (a category that
    reads as the label of the grouping column cannot be inserted beside it),
    in which case the code returns nothing.  What is proved of the frames is
    therefore proved of those the function returns. *)
Definition _gerar_grafico_barras_crosstab (k : sort_kind) (df : DataFrame)
    (grupo col_categorica : string) (ordem : list string)
  : outcome (option (PercTable * CountTable)) :=
  if negb (has_column df grupo) then Returns None
  else
    match column df grupo, column df col_categorica with
    | Some index, Some cats =>
        let tab := pd_crosstab index cats in
        let tab := zero_fill tab ordem in
        match select_columns tab ordem with
        | Raises e => Raises e
        | Returns tab =>
            let tab := set_column tab "Total" row_sum in
            match sort_by_total k tab with
            | Raises e => Raises e
            | Returns tab => Returns (Some (percentuais tab, tab))
            end
        end
    | _, _ => Raises "KeyError"
    end.

(* ================================================================== *)
(** * 8. Rankings ([_render_aba_producao_consolidada]) *)
(* ================================================================== *)

(** The columns of the productivity frame that the rankings read. *)
Record ProductivityRecord : Type := {
  EQUIPE : option string;
  PROFISSIONAL : option string;
  TOTAL_GERAL : option Z
}.

(** [Series.nlargest(n)] with the default [keep='first'].  When the series
    has at most [n] entries pandas returns
    [sort_values(ascending=False).head(n)]; otherwise it keeps the entries
    not below the n-th largest value, orders them with a stable sort and
    takes the first [n]. *)
Definition kth_largest (n : nat) (vals : list Z) : Z :=
  nth (Nat.pred n) (stable_sort_desc (fun v => v) vals) 0.

Definition nlargest {A : Type} (k : sort_kind) (n : nat) (key : A -> Z)
    (s : list A) : list A :=
  match n with
  | O => []
  | _ =>
      if (length s <=? n)%nat
      then firstn n (sort_values_desc k key s)
      else
        let kth_val := kth_largest n (map key s) in
        firstn n (stable_sort_desc key
                    (List.filter (fun r => kth_val <=? key r) s))
  end.

(** Sums of an [int64] column wrap around at 64 bits. *)
Definition wrap64 (z : Z) : Z := (z + 2 ^ 63) mod 2 ^ 64 - 2 ^ 63.

Definition add64 (a b : Z) : Z := wrap64 (a + b).

(** [groupby(col)['TOTAL GERAL'].sum()]: rows whose key is missing are
    left out, a missing total adds nothing.  The column is [int64] when no
    total is missing and its sums wrap around; with a missing total it is
    [float64], whose sums are the same integers as long as the magnitudes
    added stay below 2^53. *)
Definition somar_por (col : ProductivityRecord -> option string)
    (df : list ProductivityRecord) : list (string * Z) :=
  groupby String.compare add64
    (omap (fun r => match col r with
                    | Some key => Some (key, default 0 (TOTAL_GERAL r))
                    | None => None
                    end) df).

(** [df_filt['PROFISSIONAL'].fillna('Não Informado')] *)
Definition fillna_profissional (df : list ProductivityRecord)
  : list ProductivityRecord :=
  map (fun r => {| EQUIPE := EQUIPE r;
                   PROFISSIONAL := Some (default "Não Informado" (PROFISSIONAL r));
                   TOTAL_GERAL := TOTAL_GERAL r |}) df.

(** [df_filt.groupby('PROFISSIONAL')['TOTAL GERAL'].sum().nlargest(5).reset_index()] *)
Definition top_5_profissionais (k : sort_kind) (df_filt : list ProductivityRecord)
  : list (string * Z) :=
  nlargest k 5 snd (somar_por PROFISSIONAL (fillna_profissional df_filt)).

(** [df_filt.groupby('EQUIPE')['TOTAL GERAL'].sum().nlargest(5).reset_index()] *)
Definition top_5_equipes (k : sort_kind) (df_filt : list ProductivityRecord)
  : list (string * Z) :=
  nlargest k 5 snd (somar_por EQUIPE df_filt).

(* ================================================================== *)
(** * 9. Filters and prepared frames
      ([render_controls], [_preparar_dados_para_analise]) *)
(* ================================================================== *)

(** A [pd.Timestamp] without time zone, in nanoseconds since the epoch, and
    a [datetime.date], in days since the epoch. *)
Definition Timestamp : Type := Z.
Definition date : Type := Z.

(** [ts.date()] and [.dt.date] *)
Definition date_of (ts : Timestamp) : date := ts / 86400000000000.


(** [df.query("`UNIDADE DE SAÚDE` == @self.unidade_selecionada")] *)
Definition query_unidade (unidade : string) (df : list CitizenRecord)
  : list CitizenRecord :=
  List.filter (fun r => String.eqb (UNIDADE_DE_SAUDE r) unidade) df.

Section Producao.

(** The rows of the productivity frame, of which the filters read the
    ['DATA'] cell only: a time stamp, or [None] for NaT. *)
Variable Prod : Type.
Variable DATA : Prod -> option Timestamp.

(** [df.dropna(subset=['DATA'])] *)
Definition dropna_DATA (df : list Prod) : list Prod :=
  List.filter (fun r => match DATA r with Some _ => true | None => false end) df.

(** The period that [render_controls] proposes in the date input:
    [(df_data['DATA'].min().date(), df_data['DATA'].max().date())], and
    nothing when no row has a date. *)
Definition periodo_padrao (df_prod_bruto : list Prod) : option (date * date) :=
  match omap DATA df_prod_bruto with
  | [] => None
  | ts :: rest => Some (date_of (foldr Z.min ts rest), date_of (foldr Z.max ts rest))
  end.

(** The productivity branch of [_preparar_dados_para_analise]: a period of
    two dates keeps the dated rows whose day lies between them, both ends
    included; any other value of [periodo_selecionado] ([None], or a tuple
    of another length) keeps the frame as it is. *)
Definition filtrar_periodo (periodo_selecionado : option (list date))
    (df_prod_bruto : list Prod) : list Prod :=
  match periodo_selecionado with
  | Some [inicio; fim] =>
      List.filter
        (fun r => match DATA r with
                  | Some ts => (inicio <=? date_of ts) && (date_of ts <=? fim)
                  | None => false
                  end)
        df_prod_bruto
  | _ => df_prod_bruto
  end.

(** The data attributes of [DashboardAPS]; [None] is Python's [None]. *)
Record Frames : Type := {
  df_cid_bruto : option (list CitizenRecord);
  df_cid_filtrado : option (list CitizenRecord);
  df_dom_bruto : option DataFrame;
  df_dom_filtrado : option DataFrame;
  df_prod_bruto : option (list Prod);
  df_prod_filtrado : option (list Prod);
  df_vinculos : option (list VinculoRow);
  unidade_selecionada : string;
  periodo_selecionado : option (list date);
  grupo_principal : string
}.

(** [_preparar_dados_para_analise]; an exception of [_calcular_vinculos]
    leaves the method. *)
Definition _preparar_dados_para_analise (k : sort_kind) (self : DashboardAPS)
    (d : Frames) : outcome Frames :=
  let todas := String.eqb (unidade_selecionada d) "Todas" in
  let cid_filtrado :=
    match df_cid_bruto d with
    | Some bruto =>
        Some (if todas then bruto else query_unidade (unidade_selecionada d) bruto)
    | None => df_cid_filtrado d
    end in
  let vinculos : outcome (option (list VinculoRow)) :=
    match df_cid_bruto d, cid_filtrado with
    | Some _, Some filtrado =>
        match _calcular_vinculos k self filtrado with
        | Returns rows => Returns (Some rows)
        | Raises e => Raises e
        end
    | _, _ => Returns (df_vinculos d)
    end in
  match vinculos with
  | Raises e => Raises e
  | Returns vinculos =>
      Returns
        {| df_cid_bruto := df_cid_bruto d;
           df_cid_filtrado := cid_filtrado;
           df_dom_bruto := df_dom_bruto d;
           df_dom_filtrado :=
             match df_dom_bruto d with
             | Some bruto => Some bruto
             | None => df_dom_filtrado d
             end;
           df_prod_bruto := df_prod_bruto d;
           df_prod_filtrado :=
             match df_prod_bruto d with
             | Some bruto => Some (filtrar_periodo (periodo_selecionado d) bruto)
             | None => df_prod_filtrado d
             end;
           df_vinculos := vinculos;
           unidade_selecionada := unidade_selecionada d;
           periodo_selecionado := periodo_selecionado d;
           grupo_principal :=
             match df_cid_bruto d with
             | Some _ => if todas then COL_UNIDADE else "Equipe"
             | None => grupo_principal d
             end |}
  end.

(* ---------------------------------------------------------------- *)
(** ** The menu and the pages ([_render_menu_page],
       [render_dashboard_content]) *)

(** The render methods that [view_map] dispatches to. *)
Inductive pagina : Type :=
| menu_page | aba_resumo | aba_vinculo | aba_tempo_cid | aba_cpf | aba_domicilios
| aba_familia_vinculada | aba_producao_consolidada | aba_tipo_atendimento_esf
| aba_tipos_consultas_esb.

(** The reports the menu offers, as (label, view name). *)
Definition reports (d : Frames) : list (string * string) :=
  (match df_cid_bruto d with
   | Some _ => [("⭐ Painel Resumo", "resumo"); ("📈 Vínculo", "vinculo");
                ("⏳ Atualização", "tempo_cid"); ("📇 CPF", "cpf")]
   | None => []
   end)
  ++ (match df_dom_bruto d with
      | Some _ => [("🏠 Domicílios", "domicilios");
                   ("🏘️ Família Vinculada", "familia_vinculada")]
      | None => []
      end)
  ++ (match df_prod_bruto d with
      | Some _ => [("📊 Produção Consolidada", "producao");
                   ("📑 Tipo de Atendimento ESF", "tipo_atendimento");
                   ("🦷 Tipos de Consultas ESB", "consultas_esb")]
      | None => []
      end).

Definition view_map : list (string * pagina) :=
  [("menu", menu_page); ("resumo", aba_resumo); ("vinculo", aba_vinculo);
   ("tempo_cid", aba_tempo_cid); ("cpf", aba_cpf); ("domicilios", aba_domicilios);
   ("familia_vinculada", aba_familia_vinculada);
   ("producao", aba_producao_consolidada);
   ("tipo_atendimento", aba_tipo_atendimento_esf);
   ("consultas_esb", aba_tipos_consultas_esb)].

(** [view_map.get(view, ...)]: [None] is the page "Página não encontrada". *)
Definition render_dashboard_content (view : string) : option pagina :=
  snd <$> List.find (fun e => String.eqb e.1 view) view_map.

(** The test on which a page returns before drawing anything because its
    frame is [None]. *)
Definition sem_frame (p : pagina) (d : Frames) : bool :=
  match p with
  | menu_page => false
  | aba_resumo | aba_vinculo =>
      match df_vinculos d with Some _ => false | None => true end
  | aba_tempo_cid | aba_cpf =>
      match df_cid_filtrado d with Some _ => false | None => true end
  | aba_domicilios | aba_familia_vinculada =>
      match df_dom_filtrado d with Some _ => false | None => true end
  | aba_producao_consolidada | aba_tipo_atendimento_esf | aba_tipos_consultas_esb =>
      match df_prod_filtrado d with Some _ => false | None => true end
  end.

End Producao.

Arguments dropna_DATA {Prod} DATA df.
Arguments periodo_padrao {Prod} DATA df_prod_bruto.
Arguments filtrar_periodo {Prod} DATA periodo_selecionado df_prod_bruto.
Arguments df_cid_bruto {Prod} _.
Arguments df_cid_filtrado {Prod} _.
Arguments df_dom_bruto {Prod} _.
Arguments df_dom_filtrado {Prod} _.
Arguments df_prod_bruto {Prod} _.
Arguments df_prod_filtrado {Prod} _.
Arguments df_vinculos {Prod} _.
Arguments unidade_selecionada {Prod} _.
Arguments periodo_selecionado {Prod} _.
Arguments grupo_principal {Prod} _.
Arguments _preparar_dados_para_analise {Prod} DATA k self d.
Arguments reports {Prod} d.
Arguments sem_frame {Prod} p d.

(* ================================================================== *)
(** * 10. The team table of the link tab ([_render_aba_vinculo]) *)
(* ================================================================== *)

(** [(n - limite).clip(lower=0)] *)
Definition Excedente (r : VinculoRow) : Z :=
  Z.max (N_de_Pessoas_Vinculadas r - Limite_Equipe r) 0.

(** [x > 0] on a float: false for NaN. *)
Definition maior_que_zero (x : pyfloat) : bool :=
  match x with
  | Fin q => bool_decide (0 < q)%Qc
  | PosInf => true
  | NegInf | NaN => false
  end.

(** A cell of the ['% Acima do Limite'] column: the value that is printed
    with one decimal and a percent sign, or the text "N/A". *)
Inductive texto_percentual : Type :=
| Percentual (x : pyfloat)
| N_A.

(** [((Excedente / Limite_Equipe) * 100).apply(lambda x: f"{x:.1f}%" if x > 0 else "N/A")] *)
Definition perc_Acima_do_Limite (r : VinculoRow) : texto_percentual :=
  let x := times100 (truediv (Excedente r) (Limite_Equipe r)) in
  if maior_que_zero x then Percentual x else N_A.

(* ================================================================== *)
(** * 11. The summary panel ([_render_aba_resumo]) *)
(* ================================================================== *)

(** [self.df_cid_filtrado[COL_CIDADAO].nunique()] *)
Definition total_cidadaos (df_cid_filtrado : list CitizenRecord) : Z :=
  Z.of_nat (length (PyStr.unique (map CIDADAO df_cid_filtrado))).

(** [df[COL_TEMPO_SEM_ATUALIZAR].isin(['13 A 24 MESES', 'MAIS DE 2 ANOS'])] *)
Definition desatualizado (r : CitizenRecord) : bool :=
  match TEMPO_SEM_ATUALIZAR r with
  | Some t => String.eqb t "13 A 24 MESES" || String.eqb t "MAIS DE 2 ANOS"
  | None => false
  end.

(** [cadastros_desatualizados.groupby(COL_EQUIPE_COMPLETA).size()]; the
    rows whose key is missing are in no group. *)
Definition contagem_desatualizados (df_cid_filtrado : list CitizenRecord)
  : list (string * Z) :=
  groupby String.compare Z.add
    (omap (fun r => (fun equipe => (equipe, 1)) <$> EQUIPE_COMPLETA r)
          (List.filter desatualizado df_cid_filtrado)).

(** The ['Nº Desatualizados'] cell that the left merge on the team key,
    followed by [fillna(0)], gives a row of [df_vinculos]. *)
Definition N_Desatualizados (contagem : list (string * Z)) (r : VinculoRow) : Z :=
  default 0 (snd <$> List.find (fun e => String.eqb e.1 (Equipe_Original r)) contagem).

(** [(df_merged['Nº Desatualizados'] / df_merged['Nº de Pessoas Vinculadas']) * 100] *)
Definition perc_Desatualizados (contagem : list (string * Z)) (r : VinculoRow)
  : pyfloat :=
  times100 (truediv (N_Desatualizados contagem r) (N_de_Pessoas_Vinculadas r)).

(** [df_merged]: the rows of [df_vinculos], in their order, each with its
    two new cells. *)
Definition df_merged (df_vinculos : list VinculoRow)
    (df_cid_filtrado : list CitizenRecord) : list (VinculoRow * Z * pyfloat) :=
  let contagem := contagem_desatualizados df_cid_filtrado in
  map (fun r => (r, N_Desatualizados contagem r, perc_Desatualizados contagem r))
      df_vinculos.

(** [df_vinculos.groupby('Unidade de Saúde').agg(N_Equipes=('Equipe Original',
    'nunique'), N_Cidadaos=('Nº de Pessoas Vinculadas', 'sum'))]: per
    facility, the number of distinct team keys and the sum of the counts. *)
Definition resumo_unidades (df_vinculos : list VinculoRow)
  : list (string * (Z * Z)) :=
  map (fun g : string * (list string * Z) =>
         (g.1, (Z.of_nat (length (PyStr.unique g.2.1)), g.2.2)))
      (groupby String.compare
         (fun a b : list string * Z => (a.1 ++ b.1, a.2 + b.2))
         (map (fun r => (Unidade_de_Saude r,
                         ([Equipe_Original r], N_de_Pessoas_Vinculadas r)))
              df_vinculos)).

(** [resumo['N_Cidadaos'] / resumo['N_Equipes']] *)
Definition Media_Cidadaos_Equipe (g : string * (Z * Z)) : pyfloat :=
  truediv g.2.2 g.2.1.

(* ================================================================== *)
(** * 12. Production figures ([_render_aba_producao_consolidada]) *)
(* ================================================================== *)

(** [df_filt['TOTAL GERAL'].sum()]: missing cells add nothing, and the sum
    wraps around as the sums by group do. *)
Definition total_atendimentos (df_filt : list ProductivityRecord) : Z :=
  foldr add64 0 (map (fun r => default 0 (TOTAL_GERAL r)) df_filt).

(** [df_filt.groupby('PROFISSIONAL')['TOTAL GERAL'].sum().nlargest(1)] *)
Definition top_profissional_series (k : sort_kind)
    (df_filt : list ProductivityRecord) : list (string * Z) :=
  nlargest k 1 snd (somar_por PROFISSIONAL df_filt).

(* ================================================================== *)
(** * 13. The family-link tab ([_render_aba_familia_vinculada]) *)
(* ================================================================== *)

(** The category order is read off the data:
    [list(df[COL_FAMILIA_VINCULADA].dropna().unique())]. *)
Definition _render_aba_familia_vinculada (k : sort_kind)
    (df_dom_filtrado : option DataFrame)
  : outcome (option (PercTable * CountTable)) :=
  match df_dom_filtrado with
  | None => Returns None
  | Some df =>
      match column df COL_FAMILIA_VINCULADA with
      | None => Raises "KeyError"
      | Some cats =>
          let ordem := PyStr.unique (omap id cats) in
          _gerar_grafico_barras_crosstab k df "ESTABELECIMENTO_COMPLETO"
            COL_FAMILIA_VINCULADA ordem
      end
  end.

(* ================================================================== *)
(** * 14. The dental consultations table
       ([_render_aba_tipos_consultas_esb]) *)
(* ================================================================== *)

(** A row label: a facility name, or the position that [to_frame] and a
    default index use. *)
Inductive rotulo : Type :=
| Posicao (i : Z)
| Nome (s : string).

Definition rotulo_eqb (a b : rotulo) : bool :=
  match a, b with
  | Posicao i, Posicao j => i =? j
  | Nome s, Nome t => String.eqb s t
  | _, _ => false
  end.

(** A frame of numbers in which a cell may be missing (NaN). *)
Record Quadro : Type := {
  q_columns : list string;
  q_rows : list (rotulo * list (option Z))
}.

(** A labelled series of numbers. *)
Definition Serie : Type := list (rotulo * Z).

Definition quadro_de (tab : CountTable) : Quadro :=
  {| q_columns := ct_columns tab;
     q_rows := map (fun r : string * list Z => (Nome r.1, map Some r.2)) (ct_rows tab) |}.

(** [tab.sum()]: the sum of every column, labelled by the column. *)
Definition somar_colunas (tab : CountTable) : list Z :=
  map (fun c => foldr Z.add 0
                  (map (fun r : string * list Z => default 0 (cell (ct_columns tab) r.2 c))
                       (ct_rows tab)))
      (ct_columns tab).

(** [q.sum(axis=1)]: missing cells add nothing. *)
Definition somar_linhas (q : Quadro) : Serie :=
  map (fun r : rotulo * list (option Z) => (r.1, foldr Z.add 0 (map (default 0) r.2)))
      (q_rows q).

(** [q.index = labels]: a list of another length raises. *)
Definition set_index (q : Quadro) (labels : list rotulo) : outcome Quadro :=
  if (length labels =? length (q_rows q))%nat
  then Returns {| q_columns := q_columns q;
                  q_rows := zip_with (fun l (r : rotulo * list (option Z)) => (l, r.2))
                              labels (q_rows q) |}
  else Raises "ValueError".

(** The value a series holds under a label. *)
Definition valor_em (s : Serie) (l : rotulo) : option Z :=
  snd <$> List.find (fun e => rotulo_eqb e.1 l) s.

(** [q[c] = s] for a series [s]: the series is aligned with the index of
    the frame, so a row whose label the series lacks receives NaN. *)
Definition q_overwrite (labels : list string) (c : string) (v : option Z)
    (cells : list (option Z)) : list (option Z) :=
  zip_with (fun l x => if String.eqb l c then v else x) labels cells.

Definition setitem_serie (q : Quadro) (c : string) (s : Serie) : Quadro :=
  if existsb (String.eqb c) (q_columns q)
  then {| q_columns := q_columns q;
          q_rows := map (fun r : rotulo * list (option Z) =>
                           (r.1, q_overwrite (q_columns q) c (valor_em s r.1) r.2))
                        (q_rows q) |}
  else {| q_columns := q_columns q ++ [c];
          q_rows := map (fun r : rotulo * list (option Z) =>
                           (r.1, r.2 ++ [valor_em s r.1]))
                        (q_rows q) |}.

(** The cell of a row under the first column labelled [c]. *)
Fixpoint q_cell (labels : list string) (cells : list (option Z)) (c : string)
  : option Z :=
  match labels, cells with
  | l :: labels', x :: cells' =>
      if String.eqb l c then x else q_cell labels' cells' c
  | _, _ => None
  end.

(** [pd.concat([a, b])] of two frames with distinct column labels each:
    the columns of [a] followed by those only [b] has, the rows of [a]
    followed by the rows of [b], NaN where a frame lacks a column. *)
Definition concat (a b : Quadro) : Quadro :=
  let cols :=
    q_columns a
    ++ List.filter (fun c => negb (existsb (String.eqb c) (q_columns a))) (q_columns b) in
  let rows (q : Quadro) :=
    map (fun r : rotulo * list (option Z) =>
           (r.1, map (q_cell (q_columns q) r.2) cols)) (q_rows q) in
  {| q_columns := cols; q_rows := rows a ++ rows b |}.

Definition categorias : list string :=
  ["Consulta de manutenção em odontologia"; "Consulta de retorno em odontologia";
   "Não informado"; "Primeira consulta odontológica programática "].

(** [_render_aba_tipos_consultas_esb], from the pivot table [tabela] (rows:
    facilities, columns: kinds of consultation, cells: counts) to the frame
    that is displayed and exported.  In the tuple assignment the row sums
    of [total_geral] are computed under its default index, before the index
    is renamed. *)
Definition _render_aba_tipos_consultas_esb (tabela : CountTable) : outcome Quadro :=
  let tabela := zero_fill tabela categorias in
  match select_columns tabela categorias with
  | Raises e => Raises e
  | Returns tabela =>
      let tabela := set_column tabela "Total Unidade" row_sum in
      match select_columns tabela categorias with
      | Raises e => Raises e
      | Returns so_categorias =>
          let total_geral :=
            {| q_columns := categorias;
               q_rows := [(Posicao 0, map Some (somar_colunas so_categorias))] |} in
          let total_unidade := somar_linhas total_geral in
          match set_index total_geral [Nome "Total Geral"] with
          | Raises e => Raises e
          | Returns total_geral =>
              let total_geral :=
                setitem_serie total_geral "Total Unidade" total_unidade in
              Returns (concat (quadro_de tabela) total_geral)
          end
      end
  end.

(* ================================================================== *)
(** * 15. Spontaneous demand per facility
       ([_render_aba_tipo_atendimento_esf]) *)
(* ================================================================== *)

Definition mapa_categorias : list (string * string) :=
  [ ("CONSULTA AGENDADA", "Cuidado Programado");
    ("CONSULTA AGENDADA PROGRAMADA / CUIDADO CONTINUADO", "Cuidado Programado");
    ("CONSULTA NO DIA", "Demanda Espontânea");
    ("ATENDIMENTO DE URGÊNCIA", "Demanda Espontânea");
    ("ESCUTA INICIAL / ORIENTAÇÃO", "Outros") ].

(** A cell of [df['TIPO DE ATENDIMENTO'].map(mapa_categorias)]: missing for
    a missing kind and for a kind that is no key of the dictionary. *)
Definition categoria_atendimento (tipo : option string) : option string :=
  match tipo with
  | Some t => snd <$> List.find (fun e => String.eqb e.1 t) mapa_categorias
  | None => None
  end.

(** [df[df['Categoria Atendimento'] == 'Demanda Espontânea']], as the pairs
    of the facility and the kind of attendance of each row kept. *)
Definition df_demanda (unidade tipo : list (option string))
  : list (option string * option string) :=
  List.filter
    (fun x => match categoria_atendimento x.2 with
              | Some c => String.eqb c "Demanda Espontânea"
              | None => false
              end)
    (zip unidade tipo).

(** The cell of a row under a column, as a sort key. *)
Definition celula (tab : CountTable) (c : string) (r : string * list Z) : Z :=
  default 0 (cell (ct_columns tab) r.2 c).

(** [pd.crosstab(...).sort_values(['ATENDIMENTO DE URGÊNCIA', 'CONSULTA NO
    DIA'], ascending=False).head(15)].  A key that is no column raises
    [KeyError].  With several keys pandas sorts through numpy's [lexsort]:
    a stable sort on the last key, then a stable sort on the first. *)
Definition tabela_demanda (unidade tipo : list (option string))
  : outcome CountTable :=
  let d := df_demanda unidade tipo in
  let tab := pd_crosstab (map fst d) (map snd d) in
  if forallb (ct_has tab) ["ATENDIMENTO DE URGÊNCIA"; "CONSULTA NO DIA"]
  then Returns
         {| ct_columns := ct_columns tab;
            ct_rows :=
              firstn 15
                (stable_sort_desc (celula tab "ATENDIMENTO DE URGÊNCIA")
                   (stable_sort_desc (celula tab "CONSULTA NO DIA") (ct_rows tab))) |}
  else Raises "KeyError".

(* ================================================================== *)
(** * Properties *)
(* ================================================================== *)

Example split_two : PyStr.split " - " "EQUIPE 1 - 0001" = ["EQUIPE 1"; "0001"].
Proof. reflexivity. Qed.

Example split_none : PyStr.split " - " "EQUIPE 1" = ["EQUIPE 1"].
Proof. reflexivity. Qed.

Example split_trailing : PyStr.split " - " "A - " = ["A"; ""].
Proof. reflexivity. Qed.

Example split_overlap : PyStr.split " - " "EQ - - 1" = ["EQ"; "- 1"].
Proof. reflexivity. Qed.

Example strip_both : PyStr.strip "  0001 " = "0001".
Proof. reflexivity. Qed.

Example rsplit1_uf : PyStr.rsplit1 "-" "ALTO DO RODRIGUES-RN" = Some ("ALTO DO RODRIGUES", "RN").
Proof. reflexivity. Qed.


(** ** Strings *)

Module PyStrFacts.
Import PyStr.

Lemma sapp_cons (c : ascii) (a b : string) :
  String c a +:+ b = String c (a +:+ b).
Proof. reflexivity. Qed.

Lemma sapp_nil_l (s : string) : "" +:+ s = s.
Proof. reflexivity. Qed.

Lemma sapp_nil_r (s : string) : s +:+ "" = s.
Proof. induction s as [|c s IH]; [reflexivity|]. by rewrite sapp_cons, IH. Qed.

Lemma sapp_assoc (a b c : string) : (a +:+ b) +:+ c = a +:+ (b +:+ c).
Proof. induction a as [|x a IH]; [reflexivity|]. by rewrite !sapp_cons, IH. Qed.

Lemma slen_app (a b : string) :
  String.length (a +:+ b) = (String.length a + String.length b)%nat.
Proof.
  induction a as [|x a IH]; [reflexivity|].
  rewrite sapp_cons. cbn [String.length]. by rewrite IH.
Qed.

Lemma startswith_spec (p s : string) :
  startswith p s = true <-> exists r, s = p +:+ r.
Proof.
  revert s. induction p as [|a p IH]; intros s; simpl.
  - split; [intros _; by exists s | done].
  - destruct s as [|b s].
    + split; [done | intros [r Hr]; discriminate Hr].
    + rewrite andb_true_iff, Ascii.eqb_eq, IH. split.
      * intros [-> [r ->]]. by exists r.
      * intros [r Hr]. rewrite sapp_cons in Hr. injection Hr as -> ->. eauto.
Qed.

(** A decision procedure for [sub in s]. *)
Fixpoint occursb (sub s : string) : bool :=
  startswith sub s
  || match s with
     | EmptyString => false
     | String _ s' => occursb sub s'
     end.

Lemma occursb_spec (sub s : string) : occursb sub s = true <-> occurs sub s.
Proof.
  induction s as [|c s IH].
  - cbn [occursb]. rewrite orb_false_r, startswith_spec. split.
    + intros [r Hr]. by exists "", r.
    + intros [a [b Hab]]. destruct a; [by exists b | discriminate Hab].
  - cbn [occursb]. rewrite orb_true_iff, startswith_spec, IH. split.
    + intros [[r Hr] | [a [b Hab]]].
      * by exists "", r.
      * exists (String c a), b. by rewrite sapp_cons, Hab.
    + intros [a [b Hab]]. destruct a as [|x a].
      * left. by exists b.
      * right. rewrite sapp_cons in Hab. injection Hab as _ ->. by exists a, b.
Qed.

Lemma not_occurs (sub s : string) : occursb sub s = false -> ~ occurs sub s.
Proof. intros Hb Ho. apply occursb_spec in Ho. congruence. Qed.

(** [cur] is what the piece under construction already holds. *)
Definition prepend (cur : string) (pieces : list string) : list string :=
  match pieces with
  | [] => []
  | p :: ps => (cur +:+ p) :: ps
  end.

Lemma split_aux_cur (sep s : string) (skip : nat) (cur : string) :
  split_aux sep skip cur s = prepend cur (split_aux sep skip "" s).
Proof.
  revert skip cur. induction s as [|c s IH]; intros skip cur.
  - cbn [split_aux prepend]. by rewrite sapp_nil_r.
  - cbn [split_aux]. destruct skip as [|n]; [|apply IH].
    destruct (startswith sep (String c s)).
    + cbn [prepend]. by rewrite sapp_nil_r.
    + rewrite (IH O (cur +:+ String c "")), (IH O ("" +:+ String c "")).
      destruct (split_aux sep 0 "" s) as [|p ps]; [reflexivity|].
      cbn [prepend]. by rewrite sapp_nil_l, sapp_assoc.
Qed.

Lemma split_aux_skip (sep a r : string) (cur : string) :
  split_aux sep (String.length a) cur (a +:+ r) = split_aux sep 0 cur r.
Proof.
  induction a as [|x a IH]; [reflexivity|].
  rewrite sapp_cons. cbn [String.length split_aux]. apply IH.
Qed.

Section Split.
Variables (c0 : ascii) (sep' : string).
Let sep : string := String c0 sep'.

Lemma split_match (r : string) : split sep (sep +:+ r) = "" :: split sep r.
Proof.
  unfold split. subst sep. rewrite sapp_cons. cbn [split_aux].
  assert (Hs : startswith (String c0 sep') (String c0 (sep' +:+ r)) = true).
  { apply startswith_spec. by exists r. }
  rewrite Hs. cbn [String.length Nat.pred]. by rewrite split_aux_skip.
Qed.

Lemma split_nomatch (c : ascii) (s : string) :
  startswith sep (String c s) = false ->
  split sep (String c s) = prepend (String c "") (split sep s).
Proof.
  intros Hs. unfold split. cbn [split_aux]. rewrite Hs.
  by rewrite split_aux_cur.
Qed.

Lemma occurs_cons (c : ascii) (s : string) :
  occurs sep (String c s) -> startswith sep (String c s) = false -> occurs sep s.
Proof.
  intros Ho Hs. apply occursb_spec in Ho. cbn [occursb] in Ho.
  rewrite Hs in Ho. by apply occursb_spec.
Qed.

(** What [split] returns: the whole string when the separator does not
    occur in it; otherwise at least two pieces, the last of which follows a
    separator and holds none. *)
Lemma split_spec (s : string) :
  (~ occurs sep s /\ split sep s = [s])
  \/ (exists q p ps, s = q +:+ sep +:+ p /\ ~ occurs sep p
                     /\ split sep s = ps ++ [p] /\ ps <> []).
Proof.
  remember (String.length s) as n eqn:Hn.
  revert s Hn. induction (lt_wf n) as [n _ IH]. intros s Hn.
  destruct s as [|c s].
  { left. split; [|reflexivity]. apply not_occurs. reflexivity. }
  destruct (startswith sep (String c s)) eqn:Hs.
  - apply startswith_spec in Hs as [r Hr]. rewrite Hr, split_match.
    right.
    destruct (IH (String.length r)) with (s := r) as [[Hno Hsp]|(q & p & ps & Hq & Hno & Hsp & Hps)];
      [ | reflexivity | | ].
    + subst n. rewrite Hr, slen_app. subst sep. cbn [String.length]. lia.
    + exists "", r, [""]. rewrite Hsp. by repeat split.
    + exists (sep +:+ q), p, ("" :: ps). rewrite Hsp.
      repeat split; [|done..]. rewrite Hq, !sapp_assoc. done.
  - rewrite (split_nomatch _ _ Hs).
    destruct (IH (String.length s)) with (s := s) as [[Hno Hsp]|(q & p & ps & Hq & Hno & Hsp & Hps)];
      [subst n; cbn [String.length]; lia | reflexivity | | ].
    + left. rewrite Hsp. split; [|reflexivity].
      intros Ho. apply Hno. by eapply occurs_cons.
    + right. rewrite Hsp. destruct ps as [|p0 ps]; [done|].
      exists (String c q), p, ((String c "" +:+ p0) :: ps).
      repeat split; [|done..]. by rewrite Hq, sapp_cons.
Qed.

End Split.








(** ** [sorted], [unique] and membership *)

Lemma In_insert_sorted (x y : string) (l : list string) :
  In x (insert_sorted y l) <-> x = y \/ In x l.
Proof.
  induction l as [|z l IH]; cbn [insert_sorted].
  - cbn. intuition.
  - destruct (String.leb y z); cbn; [intuition|]. rewrite IH. intuition.
Qed.

Lemma In_sorted (x : string) (l : list string) : In x (sorted l) <-> In x l.
Proof.
  induction l as [|y l IH]; [reflexivity|].
  cbn [sorted foldr]. fold (sorted l). rewrite In_insert_sorted, IH. cbn. intuition.
Qed.

Lemma In_unique (x : string) (l : list string) : In x (unique l) <-> In x l.
Proof.
  induction l as [|y l IH]; [reflexivity|].
  cbn [unique]. cbn [In]. rewrite List.filter_In, IH.
  destruct (String.eqb_spec y x) as [->|Hne]; cbn; intuition congruence.
Qed.

Lemma existsb_eqb_In (c : string) (l : list string) :
  existsb (String.eqb c) l = true <-> In c l.
Proof.
  rewrite existsb_exists. split.
  - intros [x [Hx ->%String.eqb_eq]]. exact Hx.
  - intros Hc. exists c. by rewrite String.eqb_refl.
Qed.

Lemma existsb_eqb_not_In (c : string) (l : list string) :
  existsb (String.eqb c) l = false <-> ~ In c l.
Proof. rewrite <- existsb_eqb_In. by destruct (existsb _ l). Qed.

End PyStrFacts.

Module PandasFacts.
Import Pandas.

Section InsertionFacts.
Context {A : Type} (key : A -> Z) (strict : bool).
Local Abbreviation insert_desc := (insert_desc key strict).
Local Abbreviation isort_desc := (isort_desc key strict).
Local Abbreviation goes_first := (goes_first key strict).

Lemma insert_desc_perm x l : Permutation (insert_desc x l) (x :: l).
Proof.
  induction l as [|y l IH]; simpl; [reflexivity|].
  destruct (goes_first x y); [reflexivity|].
  rewrite IH. apply perm_swap.
Qed.

Lemma isort_desc_perm l : Permutation (isort_desc l) l.
Proof.
  induction l as [|x l IH]; simpl; [reflexivity|].
  rewrite insert_desc_perm. by constructor.
Qed.

Lemma insert_desc_sorted x l :
  StronglySorted (desc_by key) l -> StronglySorted (desc_by key) (insert_desc x l).
Proof.
  induction l as [|y l IH]; simpl; intros Hs.
  { repeat constructor. }
  apply StronglySorted_inv in Hs as [Hs Hall].
  destruct (goes_first x y) eqn:Hgo.
  - assert (key y <= key x) as Hyx.
    { unfold goes_first in Hgo. destruct strict; lia. }
    constructor; [by constructor|].
    constructor; [exact Hyx|].
    eapply Forall_impl; [|exact Hall]. unfold desc_by. intros z Hz. simpl in Hz. lia.
  - constructor; [by apply IH|].
    rewrite insert_desc_perm. constructor; [|exact Hall].
    unfold desc_by, goes_first in *. destruct strict; lia.
Qed.

Lemma isort_desc_sorted l : StronglySorted (desc_by key) (isort_desc l).
Proof.
  induction l as [|x l IH]; simpl; [constructor|].
  by apply insert_desc_sorted.
Qed.


End InsertionFacts.

(** The stable insertion sort keeps the elements of each key value in
    their order. *)
Lemma insert_desc_stable {A : Type} (key : A -> Z) (v : Z) (x : A) (l : list A) :
  StronglySorted (desc_by key) l ->
  filter (fun r => key r = v) (insert_desc key false x l)
  = filter (fun r => key r = v) (x :: l).
Proof.
  induction l as [|y l IH]; intros Hs; [reflexivity|].
  apply StronglySorted_inv in Hs as [Hs Hall].
  cbn [insert_desc]. destruct (goes_first key false x y) eqn:Hgo; [reflexivity|].
  unfold goes_first in Hgo. apply Z.leb_gt in Hgo.
  rewrite filter_cons, (IH Hs), !filter_cons.
  repeat case_decide; try done; lia.
Qed.

Lemma isort_desc_stable {A : Type} (key : A -> Z) (v : Z) (l : list A) :
  filter (fun r => key r = v) (stable_sort_desc key l)
  = filter (fun r => key r = v) l.
Proof.
  unfold stable_sort_desc. induction l as [|x l IH]; [reflexivity|].
  cbn [isort_desc foldr]. rewrite insert_desc_stable by apply isort_desc_sorted.
  rewrite !filter_cons. fold (isort_desc key false l). by rewrite IH.
Qed.

(** ** [take] along an indexer *)

Lemma take_rows_seq {A : Type} (rows : list A) :
  take_rows rows (seq 0 (length rows)) = rows.
Proof.
  unfold take_rows. induction rows as [|r rows IH] using rev_ind; [reflexivity|].
  rewrite length_app, Nat.add_comm. cbn [length Nat.add].
  rewrite seq_S, omap_app. cbn [omap list_omap Nat.add].
  rewrite lookup_app_r, Nat.sub_diag by lia. cbn.
  f_equal. rewrite <- IH at 2. apply list_omap_ext.
  apply Forall2_same_length_lookup_2; [done|].
  intros i x y Hx Hy. rewrite Hx in Hy. injection Hy as <-.
  apply lookup_seq in Hx as [-> Hi]. by rewrite lookup_app_l.
Qed.

Lemma take_rows_perm {A : Type} (rows : list A) (ix : list nat) :
  Permutation ix (seq 0 (length rows)) -> Permutation (take_rows rows ix) rows.
Proof.
  intros Hp. unfold take_rows. rewrite Hp. fold (take_rows rows (seq 0 (length rows))).
  by rewrite take_rows_seq.
Qed.

Lemma map_take_rows {A B : Type} (f : A -> B) (rows : list A) (ix : list nat) :
  map f (take_rows rows ix) = take_rows (map f rows) ix.
Proof.
  unfold take_rows. induction ix as [|i ix IH]; [reflexivity|].
  change (map f rows) with (f <$> rows) in *.
  cbn [omap list_omap]. rewrite list_lookup_fmap.
  destruct (rows !! i); cbn [fmap option_fmap option_map map]; [f_equal|]; exact IH.
Qed.

Lemma take_rows_in_range (keys : list Z) (ix : list nat) :
  Forall (fun i => (i < length keys)%nat) ix ->
  take_rows keys ix = map (key_at keys) ix.
Proof.
  unfold take_rows, key_at. induction 1 as [|i ix Hi _ IH]; [reflexivity|].
  cbn [omap list_omap map]. destruct (lookup_lt_is_Some_2 keys i Hi) as [x Hx].
  rewrite Hx. cbn. by rewrite IH.
Qed.

Lemma filter_take_rows {A : Type} (key : A -> Z) (v : Z) (rows : list A) (ix : list nat) :
  filter (fun r => key r = v) (take_rows rows ix)
  = take_rows rows (filter (fun i => key_at (map key rows) i = v) ix).
Proof.
  unfold take_rows, key_at. induction ix as [|i ix IH]; [reflexivity|].
  change (map key rows) with (key <$> rows) in *.
  rewrite (filter_cons _ i ix). rewrite list_lookup_fmap.
  cbn [omap list_omap].
  destruct (rows !! i) as [r|] eqn:Hr; cbn [fmap option_fmap option_map default].
  - rewrite filter_cons. repeat case_decide; try done.
    cbn. rewrite Hr. cbn. by rewrite IH.
  - case_decide; [|by rewrite IH]. cbn. rewrite Hr. cbn. by rewrite IH.
Qed.

Lemma StronglySorted_map {A B : Type} (R : B -> B -> Prop) (f : A -> B) (l : list A) :
  StronglySorted R (map f l) <-> StronglySorted (fun a b => R (f a) (f b)) l.
Proof.
  induction l as [|x l IH]; cbn [map].
  - split; constructor.
  - split; intros H; apply StronglySorted_inv in H as [Hs Hall]; constructor.
    + by apply IH.
    + exact (proj1 (Forall_map _ _ _) Hall).
    + by apply IH.
    + exact (proj2 (Forall_map _ _ _) Hall).
Qed.

(** ** [sort_values] *)

Section SortValues.
Context {A : Type} (k : sort_kind) (key : A -> Z).

Lemma sort_values_desc_perm (rows : list A) :
  Permutation (sort_values_desc k key rows) rows.
Proof.
  apply take_rows_perm. rewrite <- (length_map key). apply indexer_perm.
Qed.

Lemma sort_values_desc_sorted (rows : list A) :
  StronglySorted (desc_by key) (sort_values_desc k key rows).
Proof.
  unfold sort_values_desc. apply (StronglySorted_map descending key).
  rewrite map_take_rows. apply indexer_desc.
Qed.

Lemma sort_values_desc_stable (rows : list A) (v : Z) :
  stable k ->
  filter (fun r => key r = v) (sort_values_desc k key rows)
  = filter (fun r => key r = v) rows.
Proof.
  intros Hst. unfold sort_values_desc.
  rewrite filter_take_rows, Hst, <- filter_take_rows.
  by rewrite length_map, take_rows_seq.
Qed.

End SortValues.

(** ** Two kinds *)

Lemma isort_indexer_desc (strict : bool) (keys : list Z) :
  StronglySorted descending
    (take_rows keys (isort_desc (key_at keys) strict (seq 0 (length keys)))).
Proof.
  rewrite take_rows_in_range.
  - apply (StronglySorted_map descending). apply isort_desc_sorted.
  - rewrite isort_desc_perm. apply Forall_forall. intros i Hi.
    apply in_seq in Hi. lia.
Qed.

(** A sort of the given strictness as a [sort_kind]. *)
Definition insertion_kind (strict : bool) : sort_kind :=
  {| indexer := fun keys => isort_desc (key_at keys) strict (seq 0 (length keys));
     indexer_perm := fun keys => isort_desc_perm (key_at keys) strict _;
     indexer_desc := isort_indexer_desc strict |}.

(** [kind="stable"] *)
Definition stable_kind : sort_kind := insertion_kind false.

(** A kind that meets the contract of the default one and is not stable:
    equal keys come out in reverse. *)
Definition reversing_kind : sort_kind := insertion_kind true.

Lemma stable_kind_stable : stable stable_kind.
Proof. intros keys v. apply (isort_desc_stable (key_at keys)). Qed.

End PandasFacts.

(* ================================================================== *)
(** * Rounding to binary64 *)
(* ================================================================== *)

Module Float64Facts.
Import Float64.
Local Open Scope Q_scope.

Lemma round_half_even_spec (y : Q) :
  y - (Qmake 1 2) <= inject_Z (round_half_even y) <= y + (Qmake 1 2)
  /\ (inject_Z (round_half_even y) == y + (Qmake 1 2) -> Z.even (round_half_even y) = true)
  /\ (inject_Z (round_half_even y) == y - (Qmake 1 2) -> Z.even (round_half_even y) = true).
Proof.
  unfold round_half_even.
  pose proof (Qfloor_le y) as Hle. pose proof (Qlt_floor y) as Hlt.
  rewrite inject_Z_plus in Hlt. change (inject_Z 1) with 1 in Hlt.
  destruct (Qcompare (y - inject_Z (Qfloor y)) (Qmake 1 2)) eqn:Hc.
  - apply Qeq_alt in Hc.
    destruct (Z.even (Qfloor y)) eqn:Hev.
    + repeat split; try lra. all: intros _; exact Hev.
    + rewrite inject_Z_plus. change (inject_Z 1) with 1.
      assert (Hodd : Z.even (Qfloor y + 1) = true).
      { rewrite Z.even_add, Hev. reflexivity. }
      repeat split; try lra. all: intros _; exact Hodd.
  - apply Qlt_alt in Hc. repeat split; try lra. all: intros H; exfalso; lra.
  - apply Qgt_alt in Hc. rewrite inject_Z_plus. change (inject_Z 1) with 1.
    repeat split; try lra. all: intros H; exfalso; lra.
Qed.

Lemma round_half_even_mono (x y : Q) :
  x <= y -> (round_half_even x <= round_half_even y)%Z.
Proof.
  intros Hxy.
  destruct (round_half_even_spec x) as ([Hx1 Hx2] & Hxu & Hxd).
  destruct (round_half_even_spec y) as ([Hy1 Hy2] & Hyu & Hyd).
  destruct (Z_le_gt_dec (round_half_even x) (round_half_even y)) as [|Hgt]; [assumption|].
  exfalso.
  assert (H1 : (round_half_even y + 1 <= round_half_even x)%Z) by lia.
  rewrite Zle_Qle, inject_Z_plus in H1.
  change (inject_Z 1) with 1 in H1.
  assert (Ex : inject_Z (round_half_even x) == x + (Qmake 1 2)) by lra.
  assert (Ey : inject_Z (round_half_even y) == y - (Qmake 1 2)) by lra.
  assert (Hm : inject_Z (round_half_even x) == inject_Z (round_half_even y + 1)).
  { rewrite inject_Z_plus. change (inject_Z 1) with 1. lra. }
  apply (proj1 (inject_Z_injective _ _)) in Hm.
  specialize (Hxu Ex). specialize (Hyd Ey).
  rewrite Hm, Z.even_add, Hyd in Hxu. discriminate Hxu.
Qed.

Lemma round_half_even_Z (z : Z) : round_half_even (inject_Z z) = z.
Proof.
  unfold round_half_even. rewrite Qfloor_Z.
  assert (Hc : Qcompare (inject_Z z - inject_Z z) (Qmake 1 2) = Lt).
  { apply (proj1 (Qlt_alt _ _)). ring_simplify (inject_Z z - inject_Z z). reflexivity. }
  rewrite Hc. reflexivity.
Qed.

Lemma Qpow2_pos (e : Z) : 0 < 2 ^ e.
Proof. apply Qpower_0_lt. reflexivity. Qed.

Lemma Qpow2_succ (e : Z) : 2 ^ (e + 1) == 2 * 2 ^ e.
Proof. rewrite Qpower_plus by discriminate. change (2 ^ 1) with 2. ring. Qed.

Lemma Qpow2_pred (e : Z) : 2 ^ (e - 1) == 2 ^ e / 2.
Proof. rewrite Qpower_minus by discriminate. reflexivity. Qed.

Lemma Qpow2_log2 (n : Z) :
  (0 < n)%Z -> 2 ^ Z.log2 n <= inject_Z n /\ inject_Z n < 2 * 2 ^ Z.log2 n.
Proof.
  intros Hn. destruct (Z.log2_spec n Hn) as [H1 H2].
  pose proof (Z.log2_nonneg n) as H0.
  rewrite Zle_Qle in H1. rewrite Zlt_Qlt in H2.
  rewrite Zpower_Qpower in H1 by assumption.
  rewrite Zpower_Qpower in H2 by lia.
  change (inject_Z 2) with 2 in *.
  replace (Z.succ (Z.log2 n)) with (Z.log2 n + 1)%Z in H2 by lia.
  rewrite Qpow2_succ in H2. split; assumption.
Qed.

Lemma exponent_spec (y : Q) :
  0 < y -> 2 ^ exponent y <= y /\ y < 2 ^ (exponent y + 1).
Proof.
  intros Hy. unfold exponent.
  destruct y as [n d]. cbn [Qnum Qden].
  assert (Hn : (0 < n)%Z).
  { unfold Qlt in Hy. cbn in Hy. lia. }
  destruct (Qpow2_log2 n Hn) as [Ha1 Ha2].
  destruct (Qpow2_log2 (Zpos d) eq_refl) as [Hb1 Hb2].
  set (a := Z.log2 n) in *. set (b := Z.log2 (Zpos d)) in *.
  assert (HA := Qpow2_pos a). assert (HB := Qpow2_pos b).
  assert (Hyd : (Qmake n d) * inject_Z (Zpos d) == inject_Z n).
  { rewrite (Qmake_Qdiv n d). field. intros H. inversion H. }
  assert (HE : 2 ^ (a - b) * 2 ^ b == 2 ^ a).
  { rewrite <- Qpower_plus by discriminate. replace (a - b + b)%Z with a by lia. reflexivity. }
  set (E := 2 ^ (a - b)) in *. set (A := 2 ^ a) in *. set (B := 2 ^ b) in *.
  set (N := inject_Z n) in *. set (D := inject_Z (Zpos d)) in *.
  set (y := Qmake n d) in *.
  assert (HEpos : 0 < E) by apply Qpow2_pos.
  assert (Hup : y < 2 * E).
  { assert (y * B <= y * D) by (apply Qmult_le_l; lra).
    assert (y * B < 2 * E * B) by lra.
    apply Qmult_lt_r with (z := B); assumption. }
  assert (Hlo : E / 2 < y).
  { assert (y * D < y * (2 * B)) by (apply Qmult_lt_l; lra).
    assert (E / 2 * (2 * B) == A) by (field_simplify; lra).
    assert (E / 2 * (2 * B) < y * (2 * B)) by lra.
    apply Qmult_lt_r with (z := 2 * B); [lra|assumption]. }
  destruct (Qle_bool E y) eqn:Hb.
  - apply Qle_bool_iff in Hb. split; [assumption|].
    rewrite Qpow2_succ. assumption.
  - assert (Hlt : y < E).
    { apply Qnot_le_lt. intros H. apply Qle_bool_iff in H. congruence. }
    replace (a - b - 1 + 1)%Z with (a - b)%Z by lia.
    rewrite Qpow2_pred. fold E. split; lra.
Qed.

Lemma exponent_mono (x y : Q) : 0 < x -> x <= y -> (exponent x <= exponent y)%Z.
Proof.
  intros Hx Hxy.
  destruct (exponent_spec x Hx) as [Hx1 _].
  destruct (exponent_spec y) as [_ Hy2]; [lra|].
  assert (H : 2 ^ exponent x < 2 ^ (exponent y + 1)) by lra.
  apply Qpower_lt_compat_l_inv in H; [lia|reflexivity].
Qed.

(** The unit of least precision of the binade of exponent [e], and the
    scaled value. *)
Lemma scale_inv (e : Z) : 2 ^ (52 - e) * 2 ^ (e - 52) == 1.
Proof.
  rewrite <- Qpower_plus by discriminate.
  replace (52 - e + (e - 52))%Z with 0%Z by lia. reflexivity.
Qed.

Lemma pow2_52 (e : Z) : 2 ^ e * 2 ^ (52 - e) == inject_Z (2 ^ 52).
Proof.
  rewrite <- Qpower_plus by discriminate.
  replace (e + (52 - e))%Z with 52%Z by lia. reflexivity.
Qed.

Lemma pow2_53 (e : Z) : 2 ^ (e + 1) * 2 ^ (52 - e) == inject_Z (2 ^ 53).
Proof.
  rewrite <- Qpower_plus by discriminate.
  replace (e + 1 + (52 - e))%Z with 53%Z by lia. reflexivity.
Qed.

Section Positive.
Variable y : Q.
Hypothesis Hy : 0 < y.

Let e := exponent y.
Let z := y * 2 ^ (52 - e).
Let m := round_half_even z.

Lemma scaled_range : inject_Z (2 ^ 52) <= z /\ z < inject_Z (2 ^ 53).
Proof.
  destruct (exponent_spec y Hy) as [H1 H2]. fold e in H1, H2.
  assert (Ht := Qpow2_pos (52 - e)). unfold z. split.
  - rewrite <- (pow2_52 e). apply Qmult_le_r; assumption.
  - rewrite <- (pow2_53 e). apply Qmult_lt_r; assumption.
Qed.

Lemma mantissa_range : (2 ^ 52 <= m <= 2 ^ 53)%Z.
Proof.
  destruct scaled_range as [H1 H2]. unfold m. split.
  - rewrite <- (round_half_even_Z (2 ^ 52)). apply round_half_even_mono, H1.
  - rewrite <- (round_half_even_Z (2 ^ 53)). apply round_half_even_mono. lra.
Qed.

Lemma round64_pos_eq : round64_pos y = inject_Z m * 2 ^ (e - 52).
Proof. reflexivity. Qed.

Lemma y_scaled : y == z * 2 ^ (e - 52).
Proof.
  unfold z. rewrite <- Qmult_assoc, scale_inv. ring.
Qed.

Lemma round64_pos_binade : 2 ^ e <= round64_pos y <= 2 ^ (e + 1).
Proof.
  rewrite round64_pos_eq. destruct mantissa_range as [H1 H2].
  rewrite Zle_Qle in H1, H2.
  assert (Hs := Qpow2_pos (e - 52)).
  assert (E1 : 2 ^ e == inject_Z (2 ^ 52) * 2 ^ (e - 52)).
  { rewrite <- (pow2_52 e), <- Qmult_assoc, scale_inv. ring. }
  assert (E2 : 2 ^ (e + 1) == inject_Z (2 ^ 53) * 2 ^ (e - 52)).
  { rewrite <- (pow2_53 e), <- Qmult_assoc, scale_inv. ring. }
  rewrite E1, E2. split; apply Qmult_le_r; assumption.
Qed.

Lemma round64_pos_positive : 0 < round64_pos y.
Proof.
  destruct round64_pos_binade as [H _]. pose proof (Qpow2_pos e). lra.
Qed.

Lemma round64_pos_error :
  y * (1 - (Qmake 1 (2 ^ 53))) <= round64_pos y <= y * (1 + (Qmake 1 (2 ^ 53))).
Proof.
  rewrite round64_pos_eq.
  destruct (round_half_even_spec z) as ([H1 H2] & _). fold m in H1, H2.
  destruct scaled_range as [Hz _].
  assert (Hs := Qpow2_pos (e - 52)).
  set (s := 2 ^ (e - 52)) in *.
  assert (Hys : y == z * s) by apply y_scaled.
  assert (Hhalf : s * (Qmake 1 2) <= y * (Qmake 1 (2 ^ 53))).
  { rewrite Hys.
    assert (inject_Z (2 ^ 52) * s <= z * s) by (apply Qmult_le_r; assumption).
    assert (E : inject_Z (2 ^ 52) * (Qmake 1 (2 ^ 53)) == Qmake 1 2) by reflexivity.
    assert (s * (Qmake 1 2) == inject_Z (2 ^ 52) * s * (Qmake 1 (2 ^ 53))).
    { rewrite <- E. ring. }
    assert (inject_Z (2 ^ 52) * s * (Qmake 1 (2 ^ 53)) <= z * s * (Qmake 1 (2 ^ 53))).
    { apply Qmult_le_r; [reflexivity|assumption]. }
    lra. }
  assert (L : (z - (Qmake 1 2)) * s <= inject_Z m * s) by (apply Qmult_le_r; assumption).
  assert (U : inject_Z m * s <= (z + (Qmake 1 2)) * s) by (apply Qmult_le_r; assumption).
  split; lra.
Qed.

End Positive.

Lemma round64_pos_mono (x y : Q) :
  0 < x -> x <= y -> round64_pos x <= round64_pos y.
Proof.
  intros Hx Hxy. assert (Hy : 0 < y) by lra.
  pose proof (exponent_mono x y Hx Hxy) as He.
  destruct (Z.eq_dec (exponent x) (exponent y)) as [Heq|Hne].
  - unfold round64_pos. rewrite Heq.
    apply Qmult_le_r; [apply Qpow2_pos|].
    rewrite <- Zle_Qle. apply round_half_even_mono.
    apply Qmult_le_r; [apply Qpow2_pos|assumption].
  - destruct (round64_pos_binade x Hx) as [_ Hu].
    destruct (round64_pos_binade y Hy) as [Hl _].
    assert (2 ^ (exponent x + 1) <= 2 ^ exponent y).
    { apply Qpower_le_compat_l; [lia|discriminate]. }
    lra.
Qed.

Lemma Qround64_of_pos (y : Q) : 0 < y -> Qround64 y = round64_pos y.
Proof.
  destruct y as [[|p|p] d]; intros H; try reflexivity; exfalso;
    unfold Qlt in H; cbn in H; lia.
Qed.

Lemma Qround64_of_neg (y : Q) : y < 0 -> Qround64 y = - round64_pos (- y).
Proof.
  destruct y as [[|p|p] d]; intros H; try reflexivity; exfalso;
    unfold Qlt in H; cbn in H; lia.
Qed.

Lemma Qround64_of_zero (y : Q) : y == 0 -> Qround64 y = 0.
Proof.
  destruct y as [[|p|p] d]; intros H; try reflexivity; exfalso;
    unfold Qeq in H; cbn in H; lia.
Qed.

Lemma Qround64_positive (y : Q) : 0 < y -> 0 < Qround64 y.
Proof. intros H. rewrite Qround64_of_pos by assumption. now apply round64_pos_positive. Qed.

Lemma Qround64_negative (y : Q) : y < 0 -> Qround64 y < 0.
Proof.
  intros H. rewrite Qround64_of_neg by assumption.
  assert (0 < round64_pos (- y)) by (apply round64_pos_positive; lra). lra.
Qed.

Lemma Qround64_mono (x y : Q) : x <= y -> Qround64 x <= Qround64 y.
Proof.
  intros Hxy.
  destruct (Q_dec x 0) as [[Hx|Hx]|Hx], (Q_dec y 0) as [[Hy|Hy]|Hy].
  - rewrite !Qround64_of_neg by assumption.
    assert (round64_pos (- y) <= round64_pos (- x)) by (apply round64_pos_mono; lra).
    lra.
  - pose proof (Qround64_negative x Hx). pose proof (Qround64_positive y Hy). lra.
  - pose proof (Qround64_negative x Hx). rewrite (Qround64_of_zero y Hy). lra.
  - exfalso. lra.
  - rewrite !Qround64_of_pos by assumption. apply round64_pos_mono; assumption.
  - exfalso. lra.
  - exfalso. lra.
  - pose proof (Qround64_positive y Hy). rewrite (Qround64_of_zero x Hx). lra.
  - rewrite (Qround64_of_zero x Hx), (Qround64_of_zero y Hy). lra.
Qed.

Lemma Qround64_error (y : Q) :
  0 <= y ->
  y * (1 - (Qmake 1 (2 ^ 53))) <= Qround64 y <= y * (1 + (Qmake 1 (2 ^ 53))).
Proof.
  intros Hy. destruct (Q_dec y 0) as [[H|H]|H].
  - exfalso. lra.
  - rewrite Qround64_of_pos by assumption. apply round64_pos_error. assumption.
  - rewrite (Qround64_of_zero y H), H. split; lra.
Qed.

(** ** On canonical rationals *)

Lemma round64_0 : round64 0%Qc = 0%Qc.
Proof. apply Qc_is_canon. reflexivity. Qed.

Lemma round64_positive (x : Qc) : (0 < x)%Qc -> (0 < round64 x)%Qc.
Proof.
  unfold Qclt, round64. cbn [this Q2Qc]. rewrite !Qred_correct.
  apply Qround64_positive.
Qed.

Lemma round64_negative (x : Qc) : (x < 0)%Qc -> (round64 x < 0)%Qc.
Proof.
  unfold Qclt, round64. cbn [this Q2Qc]. rewrite !Qred_correct.
  apply Qround64_negative.
Qed.

Lemma round64_mono (x y : Qc) : (x <= y)%Qc -> (round64 x <= round64 y)%Qc.
Proof.
  unfold Qcle, round64. cbn [this Q2Qc]. rewrite !Qred_correct.
  apply Qround64_mono.
Qed.

Lemma round64_error (x : Qc) :
  (0 <= x)%Qc ->
  (x * (1 - u64) <= round64 x)%Qc /\ (round64 x <= x * (1 + u64))%Qc.
Proof.
  unfold Qcle, round64, u64, Qcmult, Qcminus, Qcplus, Qcopp. cbn [this Q2Qc].
  rewrite !Qred_correct. intros H.
  repeat (rewrite ?Qred_correct; cbn [this Q2Qc]).
  apply (Qround64_error x H).
Qed.

End Float64Facts.

Module PercentFacts.
Import Float64 Float64Facts.
Local Open Scope Q_scope.

Lemma Qmul_le (a b c d : Q) : 0 <= a -> a <= b -> 0 <= c -> c <= d -> a * c <= b * d.
Proof.
  intros Ha Hab Hc Hcd.
  apply Qle_trans with (b * c).
  - apply Qmult_le_compat_r; assumption.
  - rewrite !(Qmult_comm b). apply Qmult_le_compat_r; [assumption|lra].
Qed.

(** A quotient of two approximated operands. *)
Lemma Qdiv_bounds (X T x1 t1 lo1 hi1 lo2 hi2 : Q) :
  0 <= X -> 0 < T -> 0 < lo2 -> 0 <= lo1 ->
  X * lo1 <= x1 -> x1 <= X * hi1 ->
  T * lo2 <= t1 -> t1 <= T * hi2 ->
  X / T * (lo1 / hi2) <= x1 / t1 /\ x1 / t1 <= X / T * (hi1 / lo2).
Proof.
  intros HX HT Hlo2 Hlo1 Hx1 Hx2 Ht1 Ht2.
  assert (Ht : 0 < t1).
  { assert (0 < T * lo2) by (apply Qmult_lt_0_compat; assumption). lra. }
  assert (Hhi2 : 0 < hi2).
  { destruct (Qlt_le_dec 0 hi2) as [|Hn]; [assumption|exfalso].
    assert (T * hi2 <= 0).
    { rewrite <- (Qmult_0_r T). rewrite !(Qmult_comm T).
      apply Qmult_le_compat_r; lra. }
    lra. }
  assert (Hr : 0 <= X / T).
  { apply Qle_shift_div_l; [assumption|lra]. }
  assert (Hx0 : 0 <= x1).
  { assert (0 <= X * lo1) by (apply Qmult_le_0_compat; assumption). lra. }
  assert (Hhi1 : 0 <= X * hi1) by lra.
  split.
  - apply Qle_shift_div_l; [assumption|].
    (* X/T * (lo1/hi2) * t1 <= X/T*(lo1/hi2) * (T*hi2) = X*lo1 <= x1 *)
    apply Qle_trans with (X / T * (lo1 / hi2) * (T * hi2)).
    + apply Qmul_le; try lra.
      all: apply Qmult_le_0_compat; [assumption|].
      all: apply Qle_shift_div_l; [assumption|lra].
    + assert (E : X / T * (lo1 / hi2) * (T * hi2) == X * lo1) by (field; lra).
      rewrite E. assumption.
  - apply Qle_shift_div_r; [assumption|].
    apply Qle_trans with (X * hi1); [assumption|].
    assert (E : X * hi1 == X / T * (hi1 / lo2) * (T * lo2)) by (field; lra).
    rewrite E.
    assert (Hc : 0 <= X / T * (hi1 / lo2)).
    { assert (E' : X / T * (hi1 / lo2) == X * hi1 / (T * lo2)) by (field; lra).
      rewrite E'. apply Qle_shift_div_l; [apply Qmult_lt_0_compat; assumption|lra]. }
    apply Qmul_le; try lra.
    all: apply Qmult_le_0_compat; lra.
Qed.

(** The four roundings of [x / total * 100]: the two conversions, the
    quotient and the product.  The result is within [5 * 2^-53] of the
    exact value, relatively. *)
Lemma percent_chain (X T x1 t1 q c : Q) :
  let u := Qmake 1 (2 ^ 53) in
  0 <= X -> 0 < T ->
  X * (1 - u) <= x1 -> x1 <= X * (1 + u) ->
  T * (1 - u) <= t1 -> t1 <= T * (1 + u) ->
  x1 / t1 * (1 - u) <= q -> q <= x1 / t1 * (1 + u) ->
  q * 100 * (1 - u) <= c -> c <= q * 100 * (1 + u) ->
  X / T * 100 * (1 - Qmake 5 (2 ^ 53)) <= c
  /\ c <= X / T * 100 * (1 + Qmake 5 (2 ^ 53)).
Proof.
  intros u HX HT Hx1 Hx2 Ht1 Ht2 Hq1 Hq2 Hc1 Hc2.
  assert (Hlo : 0 < 1 - u) by reflexivity.
  assert (Hhi : 0 < 1 + u) by reflexivity.
  destruct (Qdiv_bounds X T x1 t1 (1 - u) (1 + u) (1 - u) (1 + u)) as [Hd1 Hd2];
    try assumption; try lra.
  assert (Hr : 0 <= X / T).
  { apply Qle_shift_div_l; [assumption|lra]. }
  set (r := X / T) in *. set (d := x1 / t1) in *.
  set (lo := 1 - u) in *. set (hi := 1 + u) in *.
  assert (Hlh : 0 <= lo / hi) by (apply Qle_shift_div_l; [assumption|lra]).
  assert (Hhl : 0 <= hi / lo) by (apply Qle_shift_div_l; [assumption|lra]).
  assert (Hd0 : 0 <= d).
  { apply Qle_trans with (r * (lo / hi)); [|assumption].
    apply Qmult_le_0_compat; assumption. }
  assert (Hq0 : 0 <= q).
  { apply Qle_trans with (d * lo); [|assumption].
    apply Qmult_le_0_compat; lra. }
  (* lower *)
  assert (L1 : r * (lo / hi) * lo <= q).
  { apply Qle_trans with (d * lo); [|assumption].
    apply Qmult_le_compat_r; lra. }
  assert (L2 : r * (lo / hi) * lo * 100 * lo <= c).
  { apply Qle_trans with (q * 100 * lo); [|assumption].
    apply Qmult_le_compat_r; lra. }
  (* upper *)
  assert (U1 : q <= r * (hi / lo) * hi).
  { apply Qle_trans with (d * hi); [assumption|].
    apply Qmult_le_compat_r; lra. }
  assert (U2 : c <= r * (hi / lo) * hi * 100 * hi).
  { apply Qle_trans with (q * 100 * hi); [assumption|].
    apply Qmult_le_compat_r; lra. }
  assert (KL : 1 - Qmake 5 (2 ^ 53) <= lo / hi * lo * lo).
  { apply Qle_bool_imp_le. vm_compute. reflexivity. }
  assert (KU : hi / lo * hi * hi <= 1 + Qmake 5 (2 ^ 53)).
  { apply Qle_bool_imp_le. vm_compute. reflexivity. }
  assert (Hr100 : 0 <= r * 100) by (apply Qmult_le_0_compat; lra).
  split.
  - apply Qle_trans with (r * 100 * (lo / hi * lo * lo)).
    + rewrite !(Qmult_comm (r * 100)). apply Qmult_le_compat_r; assumption.
    + assert (E : r * 100 * (lo / hi * lo * lo) == r * (lo / hi) * lo * 100 * lo) by ring.
      rewrite E. assumption.
  - apply Qle_trans with (r * 100 * (hi / lo * hi * hi)).
    + assert (E : r * 100 * (hi / lo * hi * hi) == r * (hi / lo) * hi * 100 * hi) by ring.
      rewrite E. assumption.
    + rewrite !(Qmult_comm (r * 100)). apply Qmult_le_compat_r; assumption.
Qed.

End PercentFacts.

(* ================================================================== *)
(** * Team parameters and status *)
(* ================================================================== *)

Import PyStr PyStrFacts.

(** The parameters a team receives when no override applies. *)
Definition esf_padrao (params : RegistryEntry) : TeamParams :=
  {| tipo := "ESF";
     parametro := parametro_esf params;
     limite_maximo := limite_esf params |}.

(** C1.  Once the row built from a registry entry is installed, an INE that
    is no key of the entry's EAP map (the map may be empty, or the entry may
    have none) resolves to subtype "ESF" with the entry's default target and
    hard cap; an INE that is a key resolves to exactly the override stored
    for it, whatever its values are. *)
Theorem get_parametros_por_ine_spec
    (municipio_uf : string) (params : RegistryEntry) (pars : ParamRow)
    (self : DashboardAPS) (m ine : string) :
  registry_row municipio_uf params = Some pars ->
  (forall override,
      default ∅ (eap_por_ine params) !! ine = Some override ->
      _get_parametros_por_ine (definir_parametros self m pars) ine = override)
  /\ (default ∅ (eap_por_ine params) !! ine = None ->
      _get_parametros_por_ine (definir_parametros self m pars) ine
      = esf_padrao params)
  /\ (eap_por_ine params = None ->
      _get_parametros_por_ine (definir_parametros self m pars) ine
      = esf_padrao params).
Proof.
  unfold registry_row. destruct (rsplit1 "-" municipio_uf) as [[nome uf]|]; [|done].
  intros [= <-]. unfold _get_parametros_por_ine, esf_padrao. cbn.
  split; [|split].
  - intros override ->. reflexivity.
  - intros ->. reflexivity.
  - intros ->. cbn. by rewrite lookup_empty.
Qed.

Lemma get_parametros_por_ine_witness :
  _get_parametros_por_ine
    (definir_parametros init "MACAÍBA"
       {| MUNICIPIO := "MACAÍBA"; UF := "RN"; PARAMETRO_ESF := 2750; LIMITE_ESF := 4125;
          EAP_POR_INE :=
            <[ "0001234" := {| tipo := "20"; parametro := 1375; limite_maximo := 2063 |} ]>
            {[ "0005678" := {| tipo := "30"; parametro := 1875; limite_maximo := 2813 |} ]} |})
    "0001234"
  = {| tipo := "20"; parametro := 1375; limite_maximo := 2063 |}.
Proof.
  eapply (get_parametros_por_ine_spec "MACAÍBA-RN"
            {| parametro_esf := 2750; limite_esf := 4125;
               eap_por_ine := Some
                 (<[ "0001234" := {| tipo := "20"; parametro := 1375; limite_maximo := 2063 |} ]>
                  {[ "0005678" := {| tipo := "30"; parametro := 1875; limite_maximo := 2813 |} ]}) |}).
  - reflexivity.
  - vm_compute. reflexivity.
Defined.

(** Before any municipality is installed the map is empty and the defaults
    are the zeros of [__init__]. *)
Lemma get_parametros_por_ine_init (ine : string) :
  _get_parametros_por_ine init ine
  = {| tipo := "ESF"; parametro := 0; limite_maximo := 0 |}.
Proof. unfold _get_parametros_por_ine. cbn. by rewrite lookup_empty. Qed.

(** C2, as the code has it.  The comparisons are strict and the hard cap is
    tested first: above the hard limit iff [c > h]; above the target iff
    [c > t] and [c <= h]; within the target iff [c <= t] and [c <= h].
    A count equal to the target is within the target when [t <= h]; a count
    equal to the hard cap is above the target when [t < h] and within it
    when [h <= t]; when [t = h] no count is above the target, any count
    beyond it being above the hard limit. *)
Theorem get_status_spec (c t h : Z) :
  (get_status c t h = ACIMA_DO_LIMITE_MAXIMO <-> h < c)
  /\ (get_status c t h = Acima_do_Parametro <-> t < c /\ c <= h)
  /\ (get_status c t h = Dentro_do_Parametro <-> c <= t /\ c <= h)
  /\ (t <= h -> get_status t t h = Dentro_do_Parametro)
  /\ (t < h -> get_status h t h = Acima_do_Parametro)
  /\ (h <= t -> get_status h t h = Dentro_do_Parametro)
  /\ (t = h -> get_status c t h <> Acima_do_Parametro).
Proof.
  unfold get_status.
  repeat split; repeat case_match; try done; try lia.
Qed.

Example get_status_5_4_4 : get_status 5 4 4 = ACIMA_DO_LIMITE_MAXIMO.
Proof. reflexivity. Qed.

(** C2 as stated fails where target and hard cap coincide or are inverted:
    with [c = t = h = 4] the count equals the hard cap and is classified
    within the target, not above it; with [c = t = 5], [h = 4] the count
    equals the target and is classified above the hard limit. *)
Lemma get_status_boundary_counterexample :
  get_status 4 4 4 = Dentro_do_Parametro
  /\ get_status 4 4 4 <> Acima_do_Parametro
  /\ get_status 5 5 4 = ACIMA_DO_LIMITE_MAXIMO
  /\ get_status 5 5 4 <> Dentro_do_Parametro.
Proof. repeat split; done. Qed.

(* ================================================================== *)
(** * The INE token of a composite team key *)
(* ================================================================== *)


Example ine_da_equipe_composite : ine_da_equipe "EQUIPE 1 - 0001" = "0001".
Proof. reflexivity. Qed.


(* ================================================================== *)
(** * Grouped frames are ascending by key *)
(* ================================================================== *)

Module GroupByFacts.

Section Order.
Context {K V : Type} (cmp : K -> K -> comparison) (agg : V -> V -> V).
Hypothesis cmp_antisym : forall x y, cmp x y = CompOpp (cmp y x).
Hypothesis cmp_trans : forall x y z, cmp x y = Lt -> cmp y z = Lt -> cmp x z = Lt.

Definition key_lt (a b : K * V) : Prop := cmp a.1 b.1 = Lt.

Lemma group_insert_keys (P : K -> Prop) (k : K) (v : V) (g : list (K * V)) :
  P k -> Forall (fun kv => P kv.1) g ->
  Forall (fun kv => P kv.1) (group_insert cmp agg k v g).
Proof.
  intros Hk. induction 1 as [|[k' v'] g Hk' Hg IH]; cbn [group_insert].
  - by repeat constructor.
  - destruct (cmp k k'); constructor; try done. by constructor.
Qed.

Lemma group_insert_sorted (k : K) (v : V) (g : list (K * V)) :
  StronglySorted key_lt g -> StronglySorted key_lt (group_insert cmp agg k v g).
Proof.
  induction g as [|[k' v'] g IH]; intros Hs; cbn [group_insert].
  { repeat constructor. }
  apply StronglySorted_inv in Hs as [Hs Hall].
  destruct (cmp k k') eqn:Hc.
  - constructor; [done|]. exact Hall.
  - constructor; [by constructor|]. constructor; [exact Hc|].
    eapply List.Forall_impl; [|exact Hall]. intros kv Hkv. by eapply cmp_trans.
  - constructor; [by apply IH|].
    apply (group_insert_keys (fun x => cmp k' x = Lt)); [|exact Hall].
    rewrite cmp_antisym, Hc. reflexivity.
Qed.

Lemma groupby_sorted (rows : list (K * V)) :
  StronglySorted key_lt (groupby cmp agg rows).
Proof.
  unfold groupby.
  assert (Hgen : forall g, StronglySorted key_lt g ->
                 StronglySorted key_lt
                   (foldl (fun g kv => group_insert cmp agg kv.1 kv.2 g) g rows)).
  { induction rows as [|kv rows IH]; intros g Hg; [exact Hg|].
    cbn [foldl]. apply IH. by apply group_insert_sorted. }
  apply Hgen. constructor.
Qed.

End Order.

(** ** The order of strings and of pairs of strings *)

Lemma ascii_compare_N (a b : ascii) :
  Ascii.compare a b = N.compare (N_of_ascii a) (N_of_ascii b).
Proof. reflexivity. Qed.

Lemma string_compare_trans (x y z : string) :
  String.compare x y = Lt -> String.compare y z = Lt -> String.compare x z = Lt.
Proof.
  revert y z. induction x as [|a x IH]; intros [|b y] [|c z]; cbn [String.compare];
    try done.
  rewrite !ascii_compare_N.
  destruct (N.compare_spec (N_of_ascii a) (N_of_ascii b)) as [Hab|Hab|Hab]; [| |done];
    destruct (N.compare_spec (N_of_ascii b) (N_of_ascii c)) as [Hbc|Hbc|Hbc]; try done.
  - rewrite Hab, Hbc, N.compare_refl. apply IH.
  - intros _ _. by rewrite Hab, (proj2 (N.compare_lt_iff _ _) Hbc).
  - intros _ _. by rewrite <- Hbc, (proj2 (N.compare_lt_iff _ _) Hab).
  - intros _ _.
    assert (Hac : (N_of_ascii a < N_of_ascii c)%N) by lia.
    by rewrite (proj2 (N.compare_lt_iff _ _) Hac).
Qed.

Lemma string_compare_refl (x : string) : String.compare x x = Eq.
Proof.
  induction x as [|a x IH]; [reflexivity|].
  cbn [String.compare]. by rewrite ascii_compare_N, N.compare_refl.
Qed.

Lemma compare_pair_eq (a b : string * string) : compare_pair a b = Eq -> a = b.
Proof.
  destruct a as [a1 a2], b as [b1 b2]. unfold compare_pair. cbn [fst snd].
  destruct (String.compare a1 b1) eqn:H1; try done.
  intros H2. apply String.compare_eq_iff in H1, H2. by subst.
Qed.

Lemma compare_pair_antisym (a b : string * string) :
  compare_pair a b = CompOpp (compare_pair b a).
Proof.
  unfold compare_pair. rewrite (String.compare_antisym a.1 b.1).
  destruct (String.compare b.1 a.1); cbn [CompOpp]; [|done..].
  apply String.compare_antisym.
Qed.

Lemma compare_pair_trans (a b c : string * string) :
  compare_pair a b = Lt -> compare_pair b c = Lt -> compare_pair a c = Lt.
Proof.
  unfold compare_pair.
  destruct (String.compare a.1 b.1) eqn:Hab; try done;
    destruct (String.compare b.1 c.1) eqn:Hbc; try done.
  - apply String.compare_eq_iff in Hab, Hbc. rewrite Hab, Hbc, string_compare_refl.
    apply string_compare_trans.
  - apply String.compare_eq_iff in Hab. rewrite Hab, Hbc. done.
  - apply String.compare_eq_iff in Hbc. rewrite <- Hbc, Hab. done.
  - by rewrite (string_compare_trans _ _ _ Hab Hbc).
Qed.

End GroupByFacts.

Import GroupByFacts.

(** The grouped counts are ascending by facility, then by team key. *)
Lemma contar_vinculos_sorted (df_cid_filtrado : list CitizenRecord) :
  StronglySorted (key_lt compare_pair) (contar_vinculos df_cid_filtrado).
Proof.
  apply groupby_sorted.
  - apply compare_pair_antisym.
  - apply compare_pair_trans.
Qed.

(** The grouped sums are ascending by group name. *)
Lemma somar_por_sorted (col : ProductivityRecord -> option string)
    (df : list ProductivityRecord) :
  StronglySorted (key_lt String.compare) (somar_por col df).
Proof.
  apply groupby_sorted.
  - apply String.compare_antisym.
  - apply string_compare_trans.
Qed.

(* ================================================================== *)
(** * The order of the classified teams *)
(* ================================================================== *)

Import PandasFacts.

(** Rows with the same key value stand in [out] in the order they have in
    [inp]. *)
Definition ties_in_order {A : Type} (key : A -> Z) (out inp : list A) : Prop :=
  forall v : Z, filter (fun r => key r = v) out = filter (fun r => key r = v) inp.

(** The group key of a classified row. *)
Definition chave (r : VinculoRow) : string * string :=
  (Unidade_de_Saude r, Equipe_Original r).

Lemma chave_vinculos (self : DashboardAPS) (df_cid_filtrado : list CitizenRecord) :
  map chave (vinculos_classificados self df_cid_filtrado)
  = map fst (contar_vinculos df_cid_filtrado).
Proof.
  unfold vinculos_classificados. rewrite map_map. apply map_ext.
  by intros [[unidade equipe] n].
Qed.

(** [groupby] yields no group only for no row. *)
Lemma group_insert_not_nil {K V : Type} (cmp : K -> K -> comparison)
    (agg : V -> V -> V) (key : K) (v : V) (g : list (K * V)) :
  group_insert cmp agg key v g <> [].
Proof.
  destruct g as [|[k' v'] g]; cbn [group_insert]; [done|].
  by destruct (cmp key k').
Qed.

Lemma groupby_nil {K V : Type} (cmp : K -> K -> comparison)
    (agg : V -> V -> V) (rows : list (K * V)) :
  groupby cmp agg rows = [] <-> rows = [].
Proof.
  split; [|by intros ->].
  unfold groupby. destruct rows as [|kv rows]; [done|]. cbn [foldl].
  assert (H : forall g, g <> [] ->
            foldl (fun g kv => group_insert cmp agg kv.1 kv.2 g) g rows <> []).
  { induction rows as [|kv' rows IH]; intros g Hg; [done|].
    cbn [foldl]. apply IH, group_insert_not_nil. }
  intros Hnil. exfalso. by apply (H _ (group_insert_not_nil cmp agg kv.1 kv.2 [])).
Qed.


Lemma calcular_vinculos_returns (k : sort_kind) (self : DashboardAPS)
    (df_cid_filtrado : list CitizenRecord) (rows : list VinculoRow) :
  _calcular_vinculos k self df_cid_filtrado = Returns rows ->
  contar_vinculos df_cid_filtrado <> []
  /\ rows = sort_values_desc k N_de_Pessoas_Vinculadas
              (vinculos_classificados self df_cid_filtrado).
Proof.
  unfold _calcular_vinculos.
  destruct (contar_vinculos df_cid_filtrado) as [|g gs]; [done|].
  by intros [= <-].
Qed.



(** PATU, a municipality of the registry without overrides: target 2000,
    hard limit 3000. *)
Definition patu : ParamRow :=
  {| MUNICIPIO := "PATU"; UF := "RN"; PARAMETRO_ESF := 2000; LIMITE_ESF := 3000;
     EAP_POR_INE := ∅ |}.

Example patu_no_registro : In patu carregar_parametros.
Proof. vm_compute. tauto. Qed.

(** The instance once PATU is the selected municipality. *)
Definition painel_patu : DashboardAPS := definir_parametros init "PATU" patu.

(** Two citizens of one facility, each the only member of their team. *)
Definition cidadao_de (equipe ine cidadao : string) : CitizenRecord :=
  {| STATUS_DOCUMENTO := Some "COM CPF";
     TEMPO_SEM_ATUALIZAR := Some "ATÉ 4 MESES";
     UNIDADE_DE_SAUDE := "UBS A";
     NOME_EQUIPE := Some equipe;
     INE_EQUIPE := ine;
     CIDADAO := cidadao;
     EQUIPE_COMPLETA := Some (strip equipe +:+ " - " +:+ ine) |}.

Definition ana : CitizenRecord := cidadao_de "EQUIPE 1" "0001" "ANA".
Definition bia : CitizenRecord := cidadao_de "EQUIPE 2" "0002" "BIA".

(** A citizen whose team name is a number in the sheet: the composite key
    is missing. *)
Definition sem_equipe (cidadao : string) : CitizenRecord :=
  {| STATUS_DOCUMENTO := Some "COM CPF";
     TEMPO_SEM_ATUALIZAR := Some "ATÉ 4 MESES";
     UNIDADE_DE_SAUDE := "UBS A";
     NOME_EQUIPE := None;
     INE_EQUIPE := "0003";
     CIDADAO := cidadao;
     EQUIPE_COMPLETA := None |}.

(** Eighteen citizens of one facility, each the only member of their
    team. *)
Definition dezoito_cidadaos : list CitizenRecord :=
  map (fun n => cidadao_de ("EQUIPE " +:+ n) ("00" +:+ n) ("CIDADAO " +:+ n))
    ["01"; "02"; "03"; "04"; "05"; "06"; "07"; "08"; "09";
     "10"; "11"; "12"; "13"; "14"; "15"; "16"; "17"; "18"].


(** A frame whose rows all lack the team key is not classified. *)
Example calcular_vinculos_sem_chave :
  _calcular_vinculos stable_kind init [sem_equipe "ANA"] = Raises "ValueError"
  /\ _calcular_vinculos stable_kind init [] = Raises "ValueError".
Proof. split; reflexivity. Qed.

(** Two citizens of one team in PATU: one classified row, two enrolled,
    within the target. *)
Example calcular_vinculos_dois_cidadaos :
  _calcular_vinculos stable_kind painel_patu
    [cidadao_de "EQUIPE 1" "0001" "ANA"; cidadao_de "EQUIPE 1" "0001" "BIA"]
  = Returns
    [ {| Unidade_de_Saude := "UBS A";
         Equipe_Original := "EQUIPE 1 - 0001";
         N_de_Pessoas_Vinculadas := 2;
         INE := "0001";
         Tipo_de_Equipe := "ESF";
         Parametro_Equipe := 2000;
         Limite_Equipe := 3000;
         Status := Dentro_do_Parametro;
         Equipe := "ESF - UBS A - 0001" |} ].
Proof. vm_compute. reflexivity. Qed.


(* ================================================================== *)
(** * The fallback municipality *)
(* ================================================================== *)


(** The row of the first entry of the registry. *)
Definition alhandra : ParamRow :=
  {| MUNICIPIO := "ALHANDRA"; UF := "PB";
     PARAMETRO_ESF := 2500; LIMITE_ESF := 3750;
     EAP_POR_INE :=
       {[ "0009999" := {| tipo := "30"; parametro := 1875; limite_maximo := 2813 |} ]} |}.

(** A batch of one citizens workbook, one text file and one productivity
    workbook: the first and the last are kept, the second is ignored. *)
Definition planilha_cidadaos_de (nome : string) : UploadedFile :=
  {| name := nome;
     workbook := Some [("DETALHADO",
       [("STATUS DOCUMENTO", [Some "COM CPF"]); ("TEMPO SEM ATUALIZAR", [Some "ATÉ 4 MESES"]);
        ("UNIDADE DE SAÚDE ", [Some "UBS A"]); ("NOME EQUIPE", [Some "EQUIPE 1"]);
        ("INE", [Some "0001"]); ("CIDADÃO", [Some "ANA"])])] |}.

Definition planilha_cidadaos : UploadedFile :=
  planilha_cidadaos_de "ALHANDRA_cidadaos.xlsx".

Definition arquivo_ilegivel : UploadedFile :=
  {| name := "notas.xlsx"; workbook := None |}.

Definition planilha_producao : UploadedFile :=
  {| name := "producao.xlsx";
     workbook := Some [("Plan1",
       [("EQUIPE", [Some "EQUIPE 1"]); ("PROFISSIONAL", [Some "ANA"]);
        ("TOTAL GERAL", [Some "10"])])] |}.



Section Selection.
Variable _normalize_text : string -> string.
Variable normalizar_cidadaos : DataFrame -> option DataFrame.
Variable normalizar_domicilios : DataFrame -> option DataFrame.
Variable to_datetime_coerce : list (option string) -> option (list (option string)).

Local Abbreviation processar_uploads :=
  (_processar_uploads normalizar_cidadaos normalizar_domicilios to_datetime_coerce).
Local Abbreviation controls :=
  (render_controls _normalize_text normalizar_cidadaos normalizar_domicilios
     to_datetime_coerce).



(** The mechanism behind the fallback, for any parameter frame: it is the
    least municipality name in code-point order, which the shipped registry
    happens to list first. *)
Lemma fallback_is_least_name (self : DashboardAPS) (files : list UploadedFile)
    (m0 : string) (rest : list string) :
  municipio_inferido _normalize_text (map_norm _normalize_text self) files = None ->
  municipios self = m0 :: rest ->
  exists pars,
    In pars (df_parametros self) /\ MUNICIPIO pars = m0
    /\ selecionar_municipio _normalize_text self files
       = Returns (definir_parametros self m0 pars).
Proof.
  intros Hinf Hm. unfold selecionar_municipio, query_municipio. rewrite Hinf, Hm.
  assert (Hin : In m0 (map MUNICIPIO (df_parametros self))).
  { apply In_unique, In_sorted. unfold municipios in Hm. rewrite Hm. by left. }
  apply in_map_iff in Hin as (row & Hrow & Hin).
  destruct (List.find (fun r => String.eqb (MUNICIPIO r) m0) (df_parametros self))
    as [pars|] eqn:Hfind.
  - apply find_some in Hfind as [Hp Heq%String.eqb_eq]. by exists pars.
  - exfalso. apply (find_none _ _ Hfind) in Hin. rewrite Hrow, String.eqb_refl in Hin. done.
Qed.


End Selection.



(** In a registry whose first entry is not the least name, the fallback is
    the least name. *)
Example fallback_ordem_alfabetica :
  let registro := [("PATU-RN", esf_only 2000 3000); ("CONDE-PB", esf_only 2500 3750)] in
  let self :=
    {| df_parametros := carregar_parametros_de registro;
       municipio_selecionado := None; parametro_oficial := 0; limite_oficial := 0;
       parametros_municipio_atual := None; brutos := no_uploads |} in
  municipio_selecionado
    <$> (match render_controls (fun s => s) Some Some Some self [planilha_producao] with
         | Returns self => Some self
         | Raises _ => None
         end)
  = Some (Some "CONDE").
Proof. vm_compute. reflexivity. Qed.

(** A file name that does yield a municipality selects it. *)
Example municipio_inferido_mogeiro :
  municipio_selecionado
    <$> (match render_controls (fun s => s) Some Some Some init
                 [planilha_cidadaos_de "uploads/MOGEIRO_cidadaos.xlsx"] with
         | Returns self => Some self
         | Raises _ => None
         end)
  = Some (Some "MOGEIRO").
Proof. vm_compute. reflexivity. Qed.

(** A team whose INE has an override is labelled with its EAP subtype. *)
Example calcular_vinculos_eap :
  match _calcular_vinculos stable_kind (definir_parametros init "ALHANDRA" alhandra)
          [cidadao_de "EQUIPE 9" "0009999" "ANA"] with
  | Returns rows =>
      map (fun r => (Equipe r, Tipo_de_Equipe r, Parametro_Equipe r, Status r)) rows
  | Raises _ => []
  end
  = [("EAP 30 - UBS A - 0009999", "30", 1875, Dentro_do_Parametro)].
Proof. vm_compute. reflexivity. Qed.

(* ================================================================== *)
(** * The routing of uploaded files *)
(* ================================================================== *)

Section UploadsFacts.
Variable normalizar_cidadaos : DataFrame -> option DataFrame.
Variable normalizar_domicilios : DataFrame -> option DataFrame.
Variable to_datetime_coerce : list (option string) -> option (list (option string)).

Local Abbreviation ler_cid := (_ler_planilha_cidadaos normalizar_cidadaos).
Local Abbreviation ler_dom := (_ler_planilha_domicilios normalizar_domicilios).
Local Abbreviation ler_prod := (_ler_planilha_produtividade to_datetime_coerce).
Local Abbreviation processar :=
  (processar_arquivo normalizar_cidadaos normalizar_domicilios to_datetime_coerce).

(** The frame a file contributes to each list: a file reaches the
    households parser only when the citizens parser declined it, and the
    productivity parser only when both did. *)
Definition como_cidadaos (f : UploadedFile) : option DataFrame := ler_cid f.

Definition como_domicilios (f : UploadedFile) : option DataFrame :=
  match ler_cid f with
  | Some _ => None
  | None => ler_dom f
  end.

Definition como_produtividade (f : UploadedFile) : option DataFrame :=
  match ler_cid f, ler_dom f with
  | None, None =>
      match ler_prod f with
      | Some df => if has_column df "EQUIPE" then Some df else None
      | None => None
      end
  | _, _ => None
  end.

Lemma processar_uploads_from (acc : Uploads) (files : list UploadedFile) :
  foldl processar acc files
  = {| cid_list := cid_list acc ++ omap como_cidadaos files;
       dom_list := dom_list acc ++ omap como_domicilios files;
       prod_list := prod_list acc ++ omap como_produtividade files |}.
Proof.
  revert acc. induction files as [|f files IH]; intros acc.
  - cbn. rewrite !app_nil_r. by destruct acc.
  - cbn [foldl]. rewrite IH. unfold processar_arquivo.
    cbn [omap list_omap]. unfold como_cidadaos, como_domicilios, como_produtividade.
    destruct (ler_cid f) as [df_cid|]; cbn.
    { by rewrite <- app_assoc. }
    destruct (ler_dom f) as [df_dom|]; cbn.
    { by rewrite <- app_assoc. }
    destruct (ler_prod f) as [df_prod|]; cbn; [|done].
    destruct (has_column df_prod "EQUIPE"); cbn; [|done].
    by rewrite <- app_assoc.
Qed.

(** C8.  Every file of a batch is offered to the citizens parser, then to
    the households parser, then to the productivity parser, and the first
    that returns a frame keeps the file; a file that none accepts adds
    nothing, and the files after it are processed all the same.  A parser
    that finds a required column missing returns nothing instead of
    raising. *)
Theorem processar_uploads_spec (files : list UploadedFile) :
  _processar_uploads normalizar_cidadaos normalizar_domicilios to_datetime_coerce files
  = {| cid_list := omap como_cidadaos files;
       dom_list := omap como_domicilios files;
       prod_list := omap como_produtividade files |}
  /\ (forall f df,
        read_excel f (Some "DETALHADO") = Some df ->
        forallb (has_column (strip_columns df)) req_cidadaos = false ->
        ler_cid f = None)
  /\ (forall f df,
        read_excel f (Some "DETALHADO") = Some df ->
        forallb (has_column (strip_columns df)) req_domicilios = false ->
        ler_dom f = None)
  /\ (forall f, read_excel f (Some "DETALHADO") = None ->
                ler_cid f = None /\ ler_dom f = None)
  /\ (forall before f after,
        como_cidadaos f = None -> como_domicilios f = None ->
        como_produtividade f = None ->
        _processar_uploads normalizar_cidadaos normalizar_domicilios
          to_datetime_coerce (before ++ f :: after)
        = _processar_uploads normalizar_cidadaos normalizar_domicilios
            to_datetime_coerce (before ++ after)).
Proof.
  assert (Hall : forall fs,
    _processar_uploads normalizar_cidadaos normalizar_domicilios to_datetime_coerce fs
    = {| cid_list := omap como_cidadaos fs;
         dom_list := omap como_domicilios fs;
         prod_list := omap como_produtividade fs |}).
  { intros fs. unfold _processar_uploads. by rewrite processar_uploads_from. }
  split; [apply Hall|]. split; [|split; [|split]].
  - intros f df Hread Hreq. unfold _ler_planilha_cidadaos. by rewrite Hread, Hreq.
  - intros f df Hread Hreq. unfold _ler_planilha_domicilios. by rewrite Hread, Hreq.
  - intros f Hread. unfold _ler_planilha_cidadaos, _ler_planilha_domicilios.
    by rewrite Hread.
  - intros before f after Hc Hd Hp. rewrite !Hall, !omap_app.
    cbn [omap list_omap]. by rewrite Hc, Hd, Hp.
Qed.

End UploadsFacts.

(** The batch of the three sample files: the first and the last are kept,
    the second is ignored. *)
Example processar_uploads_batch :
  let r := _processar_uploads Some Some Some
             [planilha_cidadaos; arquivo_ilegivel; planilha_producao] in
  length (cid_list r) = 1%nat /\ length (dom_list r) = 0%nat
  /\ length (prod_list r) = 1%nat.
Proof. vm_compute. repeat split. Qed.

(* ================================================================== *)
(** * The crosstab *)
(* ================================================================== *)

Module CrosstabFacts.

(** ** Counting *)

Lemma count_obs_nonneg (obs : list (string * string)) (g c : string) :
  0 <= count_obs obs g c.
Proof. unfold count_obs. lia. Qed.

Lemma count_obs_absent (obs : list (string * string)) (g c : string) :
  ~ In c (map snd obs) -> count_obs obs g c = 0.
Proof.
  intros Hc. unfold count_obs.
  replace (List.filter _ obs) with (@nil (string * string)); [reflexivity|].
  symmetry. induction obs as [|o obs IH]; [reflexivity|].
  cbn [List.filter]. destruct (String.eqb_spec o.2 c) as [Heq|Hne].
  - exfalso. apply Hc. left. exact Heq.
  - rewrite andb_false_r. apply IH. intros Hin. apply Hc. by right.
Qed.

(** ** Frames whose cells are a function of the row and column labels *)

Definition counts_table (cnt : string -> string -> Z) (cols rows : list string)
  : CountTable :=
  {| ct_columns := cols;
     ct_rows := map (fun g => (g, map (cnt g) cols)) rows |}.

Lemma cell_map (f : string -> Z) (labels : list string) (c : string) :
  In c labels -> cell labels (map f labels) c = Some (f c).
Proof.
  induction labels as [|l labels IH]; [done|].
  intros Hc. cbn [map cell]. destruct (String.eqb_spec l c) as [->|Hne]; [done|].
  apply IH. destruct Hc; [congruence|done].
Qed.

Lemma set_column_absent (cnt : string -> string -> Z) (cols rows : list string)
    (c : string) :
  ~ In c cols -> (forall g, cnt g c = 0) ->
  set_column (counts_table cnt cols rows) c (fun _ => 0)
  = counts_table cnt (cols ++ [c]) rows.
Proof.
  intros Hc Hz. unfold set_column, ct_has.
  cbn [ct_columns counts_table ct_rows].
  rewrite (proj2 (existsb_eqb_not_In c cols) Hc).
  unfold counts_table. f_equal. rewrite map_map. apply map_ext. intros g.
  rewrite map_app. cbn [map]. by rewrite Hz.
Qed.

Lemma zero_fill_counts (cnt : string -> string -> Z) (rows ordem cols : list string) :
  (forall c, ~ In c cols -> forall g, cnt g c = 0) ->
  exists cols',
    zero_fill (counts_table cnt cols rows) ordem = counts_table cnt cols' rows
    /\ incl cols cols' /\ incl ordem cols'.
Proof.
  unfold zero_fill. revert cols. induction ordem as [|cat ordem IH]; intros cols Hz.
  - exists cols. split; [reflexivity|]. split; [apply incl_refl | intros x []].
  - cbn [foldl].
    change (ct_has (counts_table cnt cols rows) cat) with (existsb (String.eqb cat) cols).
    destruct (existsb (String.eqb cat) cols) eqn:Hcat.
    + destruct (IH cols Hz) as (cols' & Heq & Hcols & Hincl).
      exists cols'. split; [exact Heq|]. split; [exact Hcols|].
      intros x [<-|Hx]; [|by apply Hincl].
      apply Hcols. by apply existsb_eqb_In.
    + apply existsb_eqb_not_In in Hcat.
      rewrite set_column_absent by auto.
      destruct (IH (cols ++ [cat])) as (cols' & Heq & Hcols & Hincl).
      { intros c Hc g. apply Hz. intros Hin. apply Hc, in_or_app. by left. }
      exists cols'. split; [exact Heq|]. split.
      * intros x Hx. apply Hcols, in_or_app. by left.
      * intros x [<-|Hx]; [|by apply Hincl].
        apply Hcols, in_or_app. right. by left.
Qed.

Lemma select_counts (cnt : string -> string -> Z) (rows ordem cols : list string) :
  incl ordem cols ->
  select_columns (counts_table cnt cols rows) ordem
  = Returns (counts_table cnt ordem rows).
Proof.
  intros Hincl. unfold select_columns.
  assert (forallb (ct_has (counts_table cnt cols rows)) ordem = true) as ->.
  { apply forallb_forall. intros c Hc. apply existsb_eqb_In. by apply Hincl. }
  f_equal. unfold counts_table. f_equal. cbn [ct_rows ct_columns].
  rewrite map_map. apply map_ext. intros g. cbn. f_equal.
  apply map_ext_in. intros c Hc. rewrite cell_map by by apply Hincl. done.
Qed.

(** The frame after [tab = tab[ordem]]: whatever the data, its columns are
    the categories of [ordem], in that order, and each cell counts the
    observations of its row and column. *)
Lemma crosstab_selected (index cats : list (option string)) (ordem : list string) :
  let obs := observations index cats in
  select_columns (zero_fill (pd_crosstab index cats) ordem) ordem
  = Returns (counts_table (count_obs obs) ordem
               (sorted (unique (map fst obs)))).
Proof.
  intros obs.
  change (pd_crosstab index cats)
    with (counts_table (count_obs obs) (sorted (unique (map snd obs)))
            (sorted (unique (map fst obs)))).
  destruct (zero_fill_counts (count_obs obs) (sorted (unique (map fst obs))) ordem
              (sorted (unique (map snd obs)))) as (cols' & -> & _ & Hincl).
  { intros c Hc g. apply count_obs_absent. intros Hin. apply Hc.
    by apply In_sorted, In_unique. }
  by apply select_counts.
Qed.

(** ** The [Total] column *)

Lemma filter_eqb_absent (c : string) (l : list string) :
  ~ In c l -> List.filter (String.eqb c) l = [].
Proof.
  induction l as [|x l IH]; [done|]. intros Hc. cbn [List.filter].
  destruct (String.eqb_spec c x) as [->|_].
  - exfalso. apply Hc. by left.
  - apply IH. intros Hin. apply Hc. by right.
Qed.

Lemma cell_app_last (f : string -> Z) (labels : list string) (c : string) (v : Z) :
  ~ In c labels -> cell (labels ++ [c]) (map f labels ++ [v]) c = Some v.
Proof.
  induction labels as [|l labels IH]; intros Hc; cbn [app map cell].
  - by rewrite String.eqb_refl.
  - destruct (String.eqb_spec l c) as [->|_].
    + exfalso. apply Hc. by left.
    + apply IH. intros Hin. apply Hc. by right.
Qed.

Lemma cell_app_other (f : string -> Z) (labels : list string) (c d : string) (v : Z) :
  In c labels -> cell (labels ++ [d]) (map f labels ++ [v]) c = Some (f c).
Proof.
  induction labels as [|l labels IH]; [done|]. intros Hc. cbn [app map cell].
  destruct (String.eqb_spec l c) as [->|Hne]; [done|].
  apply IH. destruct Hc; [congruence|done].
Qed.

Lemma drop_cells_app_last (f : string -> Z) (labels : list string) (c : string) (v : Z) :
  ~ In c labels -> drop_cells (labels ++ [c]) c (map f labels ++ [v]) = map f labels.
Proof.
  induction labels as [|l labels IH]; intros Hc; cbn [app map drop_cells].
  - by rewrite String.eqb_refl.
  - destruct (String.eqb_spec l c) as [->|_].
    + exfalso. apply Hc. by left.
    + f_equal. apply IH. intros Hin. apply Hc. by right.
Qed.

Lemma drop_label_app_last (labels : list string) (c : string) :
  ~ In c labels -> drop_label (labels ++ [c]) c = labels.
Proof.
  unfold drop_label. induction labels as [|l labels IH]; intros Hc; cbn [app List.filter].
  - by rewrite String.eqb_refl.
  - destruct (String.eqb_spec l c) as [->|_]; cbn [negb].
    + exfalso. apply Hc. by left.
    + f_equal. apply IH. intros Hin. apply Hc. by right.
Qed.

Lemma In_drop_label (labels : list string) (c x : string) :
  In x (drop_label labels c) <-> In x labels /\ x <> c.
Proof.
  unfold drop_label. rewrite List.filter_In, negb_true_iff, String.eqb_neq. done.
Qed.

Lemma cell_overwrite_same (f : string -> Z) (labels : list string) (c : string) (v : Z) :
  In c labels -> cell labels (overwrite labels c v (map f labels)) c = Some v.
Proof.
  induction labels as [|l labels IH]; [done|]. intros Hc. cbn [map overwrite cell].
  destruct (String.eqb_spec l c) as [->|Hne]; [done|].
  apply IH. destruct Hc; [congruence|done].
Qed.

Lemma cell_overwrite_other (f : string -> Z) (labels : list string) (c d : string) (v : Z) :
  In d labels -> d <> c ->
  cell labels (overwrite labels c v (map f labels)) d = Some (f d).
Proof.
  induction labels as [|l labels IH]; [done|]. intros Hd Hne. cbn [map overwrite cell].
  destruct (String.eqb_spec l d) as [->|Hld].
  - by rewrite (proj2 (String.eqb_neq d c) Hne).
  - apply IH; [|done]. destruct Hd; [congruence|done].
Qed.

(** The frame after [tab['Total'] = tab.sum(axis=1)]. *)
Definition totalled (cnt : string -> string -> Z) (ordem rows : list string)
  : CountTable :=
  set_column (counts_table cnt ordem rows) "Total" row_sum.

(** The sum of the cells of a row over the categories of [ordem]. *)
Definition soma (cnt : string -> string -> Z) (ordem : list string) (g : string) : Z :=
  foldr Z.add 0 (map (cnt g) ordem).

Lemma totalled_absent (cnt : string -> string -> Z) (ordem rows : list string) :
  ~ In "Total" ordem ->
  totalled cnt ordem rows
  = {| ct_columns := ordem ++ ["Total"];
       ct_rows := map (fun g => (g, map (cnt g) ordem ++ [soma cnt ordem g])) rows |}.
Proof.
  intros Hc. unfold totalled, set_column, ct_has. cbn [ct_columns counts_table ct_rows].
  rewrite (proj2 (existsb_eqb_not_In "Total" ordem) Hc).
  f_equal. by rewrite map_map.
Qed.

Lemma totalled_present (cnt : string -> string -> Z) (ordem rows : list string) :
  In "Total" ordem ->
  totalled cnt ordem rows
  = {| ct_columns := ordem;
       ct_rows := map (fun g => (g, overwrite ordem "Total" (soma cnt ordem g)
                                      (map (cnt g) ordem))) rows |}.
Proof.
  intros Hc. unfold totalled, set_column, ct_has. cbn [ct_columns counts_table ct_rows].
  rewrite (proj2 (existsb_eqb_In "Total" ordem) Hc).
  f_equal. by rewrite map_map.
Qed.

Lemma totalled_columns (cnt : string -> string -> Z) (ordem rows : list string) :
  drop_label (ct_columns (totalled cnt ordem rows)) "Total" = drop_label ordem "Total".
Proof.
  destruct (in_dec string_dec "Total" ordem) as [Hin|Hout].
  - by rewrite totalled_present.
  - rewrite totalled_absent by done. cbn [ct_columns].
    rewrite drop_label_app_last by done.
    unfold drop_label. symmetry. apply forallb_filter_id, forallb_forall.
    intros x Hx. apply negb_true_iff, String.eqb_neq. congruence.
Qed.

(** Each row of the frame holds, under [Total], the sum over [ordem] of
    the counts of its group and, under every other category of [ordem], the
    count of that category. *)
Lemma totalled_rows (cnt : string -> string -> Z) (ordem rows : list string)
    (r : string * list Z) :
  In r (ct_rows (totalled cnt ordem rows)) ->
  In r.1 rows
  /\ total_de (ct_columns (totalled cnt ordem rows)) r = soma cnt ordem r.1
  /\ forall c, In c ordem -> c <> "Total" ->
        cell (ct_columns (totalled cnt ordem rows)) r.2 c = Some (cnt r.1 c).
Proof.
  unfold total_de. destruct (in_dec string_dec "Total" ordem) as [Hin|Hout].
  - rewrite totalled_present by done. cbn [ct_rows ct_columns].
    intros (g & <- & Hg)%in_map_iff. cbn [fst snd]. split; [done|]. split.
    + by rewrite cell_overwrite_same.
    + intros c Hc Hne. by apply cell_overwrite_other.
  - rewrite totalled_absent by done. cbn [ct_rows ct_columns].
    intros (g & <- & Hg)%in_map_iff. cbn [fst snd]. split; [done|]. split.
    + by rewrite cell_app_last.
    + intros c Hc _. by apply cell_app_other.
Qed.

(** ** [sort_values('Total')] *)

Lemma sort_by_total_returns (k : sort_kind) (tab tab' : CountTable) :
  sort_by_total k tab = Returns tab' ->
  ct_columns tab' = ct_columns tab
  /\ ct_rows tab' = sort_values_desc k (total_de (ct_columns tab)) (ct_rows tab).
Proof.
  unfold sort_by_total.
  destruct (List.filter (String.eqb "Total") (ct_columns tab)) as [|? [|? ?]]; [done| |done].
  intros [= <-]. done.
Qed.

Lemma sort_by_total_absent (k : sort_kind) (cnt : string -> string -> Z)
    (ordem rows : list string) :
  ~ In "Total" ordem ->
  sort_by_total k (totalled cnt ordem rows)
  = Returns
      {| ct_columns := ordem ++ ["Total"];
         ct_rows := sort_values_desc k (total_de (ordem ++ ["Total"]))
                      (ct_rows (totalled cnt ordem rows)) |}.
Proof.
  intros Hc. unfold sort_by_total. rewrite totalled_absent by done.
  cbn [ct_columns ct_rows]. rewrite filter_app, filter_eqb_absent by done.
  cbn [List.filter app]. by rewrite String.eqb_refl.
Qed.

Lemma sort_values_desc_singleton {A : Type} (k : sort_kind) (key : A -> Z) (r : A) :
  sort_values_desc k key [r] = [r].
Proof.
  apply Permutation_length_1_inv. symmetry. apply sort_values_desc_perm.
Qed.

(** ** The whole function *)

Lemma column_has (df : DataFrame) (c : string) (cells : list (option string)) :
  column df c = Some cells -> has_column df c = true.
Proof.
  unfold has_column, columns. induction df as [|[c' cells'] df IH]; [done|].
  cbn [column map existsb fst]. destruct (String.eqb c c'); [done|]. exact IH.
Qed.

(** The distinct group values, ascending: the index of the crosstab. *)
Definition grupos (index cats : list (option string)) : list string :=
  sorted (unique (map fst (observations index cats))).

Lemma gerar_unfold (k : sort_kind) (df : DataFrame) (grupo col_categorica : string)
    (ordem : list string) (index cats : list (option string)) :
  column df grupo = Some index -> column df col_categorica = Some cats ->
  _gerar_grafico_barras_crosstab k df grupo col_categorica ordem
  = match sort_by_total k
            (totalled (count_obs (observations index cats)) ordem (grupos index cats)) with
    | Returns tab => Returns (Some (percentuais tab, tab))
    | Raises e => Raises e
    end.
Proof.
  intros Hg Hc. unfold _gerar_grafico_barras_crosstab.
  rewrite (column_has _ _ _ Hg), Hg, Hc. cbn [negb].
  by rewrite crosstab_selected.
Qed.

Lemma gerar_returns (k : sort_kind) (df : DataFrame) (grupo col_categorica : string)
    (ordem : list string) (perc : PercTable) (tab : CountTable) :
  _gerar_grafico_barras_crosstab k df grupo col_categorica ordem
  = Returns (Some (perc, tab)) ->
  exists index cats,
    column df grupo = Some index /\ column df col_categorica = Some cats
    /\ sort_by_total k
         (totalled (count_obs (observations index cats)) ordem (grupos index cats))
       = Returns tab
    /\ perc = percentuais tab.
Proof.
  intros Hret.
  destruct (column df grupo) as [index|] eqn:Hg.
  - destruct (column df col_categorica) as [cats|] eqn:Hc.
    + rewrite (gerar_unfold k df grupo col_categorica ordem index cats Hg Hc) in Hret.
      exists index, cats. split; [done|]. split; [done|].
      destruct (sort_by_total k _) as [tab'|e]; [|done].
      injection Hret as <- <-. by split.
    + unfold _gerar_grafico_barras_crosstab in Hret.
      rewrite (column_has _ _ _ Hg), Hg, Hc in Hret. done.
  - unfold _gerar_grafico_barras_crosstab in Hret. rewrite Hg in Hret.
    by destruct (negb (has_column df grupo)).
Qed.

End CrosstabFacts.

Import CrosstabFacts.

(** The rows of the frame that is returned when ["Total"] is no category:
    one per group, each holding its counts over [ordem] and their sum. *)
Lemma crosstab_rows_absent (k : sort_kind) (cnt : string -> string -> Z)
    (ordem rows : list string) (r : string * list Z) :
  ~ In "Total" ordem ->
  In r (sort_values_desc k (total_de (ordem ++ ["Total"]))
          (ct_rows (totalled cnt ordem rows))) ->
  In r.1 rows
  /\ r.2 = map (cnt r.1) ordem ++ [soma cnt ordem r.1]
  /\ total_de (ordem ++ ["Total"]) r = soma cnt ordem r.1.
Proof.
  intros Hc Hr.
  apply (Permutation_in _ (sort_values_desc_perm k _ _)) in Hr.
  rewrite totalled_absent in Hr by done. cbn [ct_rows] in Hr.
  apply in_map_iff in Hr as (g & <- & Hg). cbn [fst snd].
  split; [done|]. split; [done|].
  unfold total_de. cbn [snd]. by rewrite cell_app_last.
Qed.


(** The scenario of two citizens of one team, one with and one without CPF. *)
Definition df_dois_cidadaos : DataFrame :=
  [ ("UNIDADE DE SAÚDE", [Some "UBS A"; Some "UBS A"]);
    ("STATUS DOCUMENTO", [Some "COM CPF"; Some "SEM CPF"]) ].

Lemma not_in_ordem_cpf : ~ In "Total" ["COM CPF"; "SEM CPF"].
Proof. intros [H|[H|[]]]; discriminate H. Qed.

Definition perc_dois_cidadaos : PercTable :=
  {| pt_columns := ["COM CPF"; "SEM CPF"];
     pt_rows := [("UBS A", [percentual 2 1; percentual 2 1])] |}.

Definition tab_dois_cidadaos : CountTable :=
  {| ct_columns := ["COM CPF"; "SEM CPF"; "Total"];
     ct_rows := [("UBS A", [1; 1; 2])] |}.

Lemma gerar_dois_cidadaos :
  _gerar_grafico_barras_crosstab stable_kind df_dois_cidadaos
    "UNIDADE DE SAÚDE" "STATUS DOCUMENTO" ["COM CPF"; "SEM CPF"]
  = Returns (Some (perc_dois_cidadaos, tab_dois_cidadaos)).
Proof. vm_compute. reflexivity. Qed.


(** Three observations of group "a": one of category "X" and two of a
    category that is itself called "Total". *)
Definition df_categoria_total : DataFrame :=
  [ ("g", [Some "a"; Some "a"; Some "a"]);
    ("c", [Some "X"; Some "Total"; Some "Total"]) ].

Lemma gerar_categoria_total (k : sort_kind) :
  _gerar_grafico_barras_crosstab k df_categoria_total "g" "c" ["X"; "Total"]
  = Returns (Some
      ({| pt_columns := ["X"];
          pt_rows := [("a", [percentual 3 1])] |},
       {| ct_columns := ["X"; "Total"];
          ct_rows := [("a", [1; 3])] |})).
Proof.
  rewrite (gerar_unfold k df_categoria_total "g" "c" ["X"; "Total"]
             [Some "a"; Some "a"; Some "a"] [Some "X"; Some "Total"; Some "Total"]
             eq_refl eq_refl).
  unfold sort_by_total.
  change (totalled _ _ _)
    with {| ct_columns := ["X"; "Total"]; ct_rows := [("a", [1; 3])] |}.
  cbn [ct_columns ct_rows List.filter String.eqb Ascii.eqb Bool.eqb].
  by rewrite sort_values_desc_singleton.
Qed.

(* ================================================================== *)
(** * Percentages *)
(* ================================================================== *)

(** The exact sum of a row of float cells, when all of them are finite. *)
Fixpoint soma_percentuais (cells : list pyfloat) : option Qc :=
  match cells with
  | [] => Some 0%Qc
  | Fin q :: rest => (fun s => (q + s)%Qc) <$> soma_percentuais rest
  | _ :: _ => None
  end.

(** Five units of roundoff: what the two conversions, the division and the
    multiplication by 100 can add up to, relatively. *)
Definition tol_percentual : Qc := Q2Qc (Qmake 5 (2 ^ 53)).

(** The float [q] is the exact value [v] (not negative) up to rounding. *)
Definition proximo (v q : Qc) : Prop :=
  (v * (1 - tol_percentual) <= q)%Qc /\ (q <= v * (1 + tol_percentual))%Qc.

(** The exact percentage of a count. *)
Definition percentual_exato (total x : Z) : Qc :=
  (Qc_of_Z x / Qc_of_Z total * Qc_of_Z 100)%Qc.

Lemma Qc_of_Z_nonzero (z : Z) : z <> 0 -> Qc_of_Z z <> 0%Qc.
Proof.
  intros Hz Hq. apply Hz. apply Z2Qc_inj. rewrite Hq. symmetry. apply Z2Qc_inj_0.
Qed.

Lemma percentual_nonzero (total x : Z) :
  total <> 0 ->
  percentual total x
  = Fin (round64 (round64 (float_of_Z x / float_of_Z total) * Qc_of_Z 100))%Qc.
Proof.
  intros Hz. unfold percentual, truediv.
  by rewrite (proj2 (Z.eqb_neq total 0) Hz).
Qed.

Lemma percentual_zero : percentual 0 0 = Fin 0%Qc.
Proof.
  unfold percentual, truediv. cbn [Z.eqb fillna0 times100].
  apply (f_equal Fin). apply Qc_is_canon. reflexivity.
Qed.

Module CellFacts.
Import Float64Facts PercentFacts.

(** From canonical rationals to rationals. *)
Lemma this_mult (a b : Qc) : (this (a * b)%Qc == this a * this b)%Q.
Proof. apply Qred_correct. Qed.

Lemma this_div (a b : Qc) : (this (a / b)%Qc == this a / this b)%Q.
Proof.
  unfold Qcdiv, Qcinv. rewrite this_mult. cbn [this Q2Qc].
  by rewrite Qred_correct.
Qed.

Lemma this_of_Z (z : Z) : (this (Qc_of_Z z) == inject_Z z)%Q.
Proof. reflexivity. Qed.

Lemma this_round64 (x : Qc) : (this (round64 x) == Qround64 x)%Q.
Proof. apply Qred_correct. Qed.

Lemma this_one_minus (p : positive) :
  (this (1 - Q2Qc (Qmake 5 p))%Qc == 1 - Qmake 5 p)%Q.
Proof.
  unfold Qcminus, Qcplus, Qcopp. cbn [this Q2Qc]. by rewrite !Qred_correct.
Qed.

Lemma this_one_plus (p : positive) :
  (this (1 + Q2Qc (Qmake 5 p))%Qc == 1 + Qmake 5 p)%Q.
Proof.
  unfold Qcplus. cbn [this Q2Qc]. by rewrite !Qred_correct.
Qed.

(** A percentage cell is its exact value up to rounding. *)
Lemma percentual_proximo (total x : Z) :
  0 < total -> 0 <= x ->
  proximo (percentual_exato total x)
    (round64 (round64 (float_of_Z x / float_of_Z total) * Qc_of_Z 100))%Qc.
Proof.
  intros Ht Hx.
  assert (HX : (0 <= inject_Z x)%Q).
  { change 0%Q with (inject_Z 0). by rewrite <- Zle_Qle. }
  assert (HT : (0 < inject_Z total)%Q).
  { change 0%Q with (inject_Z 0). by rewrite <- Zlt_Qlt. }
  pose proof (Qround64_error (inject_Z x) HX) as [Hx1 Hx2].
  pose proof (Qround64_error (inject_Z total)) as [Ht1 Ht2]; [lra|].
  set (x1 := Qround64 (inject_Z x)) in *.
  set (t1 := Qround64 (inject_Z total)) in *.
  assert (Hx1' : (this (float_of_Z x) == x1)%Q) by apply this_round64.
  assert (Ht1' : (this (float_of_Z total) == t1)%Q) by apply this_round64.
  assert (Hx0 : (0 <= x1)%Q).
  { assert (0 <= inject_Z x * (1 - Qmake 1 (2 ^ 53)))%Q; [|lra].
    apply Qmult_le_0_compat; [done|]. apply Qle_bool_imp_le. reflexivity. }
  assert (Ht0 : (0 < t1)%Q).
  { assert (0 < inject_Z total * (1 - Qmake 1 (2 ^ 53)))%Q; [|lra].
    apply Qmult_lt_0_compat; [done|]. reflexivity. }
  set (d := (float_of_Z x / float_of_Z total)%Qc).
  assert (Hd : (this d == x1 / t1)%Q).
  { unfold d. by rewrite this_div, Hx1', Ht1'. }
  assert (Hd0 : (0 <= this d)%Q).
  { rewrite Hd. apply Qle_shift_div_l; [done|]. lra. }
  pose proof (Qround64_error (this d) Hd0) as [Hq1 Hq2].
  set (q := Qround64 (this d)) in *.
  rewrite Hd in Hq1, Hq2.
  assert (Hq' : (this (round64 d) == q)%Q) by apply this_round64.
  assert (Hq0 : (0 <= q)%Q).
  { assert (0 <= x1 / t1 * (1 - Qmake 1 (2 ^ 53)))%Q; [|lra].
    apply Qmult_le_0_compat.
    - apply Qle_shift_div_l; [done|]. lra.
    - apply Qle_bool_imp_le. reflexivity. }
  set (p := (round64 d * Qc_of_Z 100)%Qc).
  assert (Hp : (this p == q * 100)%Q).
  { unfold p. rewrite this_mult, Hq', this_of_Z. reflexivity. }
  assert (Hp0 : (0 <= this p)%Q) by (rewrite Hp; lra).
  pose proof (Qround64_error (this p) Hp0) as [Hc1 Hc2].
  set (c := Qround64 (this p)) in *.
  rewrite Hp in Hc1, Hc2.
  destruct (percent_chain (inject_Z x) (inject_Z total) x1 t1 q c)
    as [L U]; try assumption; try lra.
  unfold proximo, percentual_exato, tol_percentual, Qcle.
  rewrite !this_mult, !this_div, !this_of_Z, this_one_minus, this_one_plus,
    this_round64.
  split; assumption.
Qed.

(** The sum of approximations approximates the sum. *)
Lemma proximo_soma (vs qs : list Qc) :
  Forall2 proximo vs qs ->
  proximo (foldr Qcplus 0%Qc vs) (foldr Qcplus 0%Qc qs).
Proof.
  induction 1 as [|v q vs qs [H1 H2] _ [IH1 IH2]]; cbn [foldr].
  - unfold proximo. assert (E : forall t : Qc, (0 * t = 0)%Qc) by (intros; ring).
    rewrite !E. split; apply Qcle_refl.
  - unfold proximo in *. split.
    + replace ((v + foldr Qcplus 0 vs) * (1 - tol_percentual))%Qc
        with (v * (1 - tol_percentual)
              + foldr Qcplus 0 vs * (1 - tol_percentual))%Qc by ring.
      by apply Qcplus_le_compat.
    + replace ((v + foldr Qcplus 0 vs) * (1 + tol_percentual))%Qc
        with (v * (1 + tol_percentual)
              + foldr Qcplus 0 vs * (1 + tol_percentual))%Qc by ring.
      by apply Qcplus_le_compat.
Qed.

Lemma soma_exata (total : Z) (counts : list Z) :
  total <> 0 ->
  foldr Qcplus 0%Qc (map (percentual_exato total) counts)
  = percentual_exato total (foldr Z.add 0%Z counts).
Proof.
  intros Hz. pose proof (Qc_of_Z_nonzero total Hz) as Hq.
  unfold percentual_exato.
  induction counts as [|x counts IH]; cbn [map foldr].
  - rewrite Z2Qc_inj_0. by field.
  - rewrite IH, Z2Qc_inj_add. by field.
Qed.

Lemma soma_percentuais_Fin (qs : list Qc) :
  soma_percentuais (map Fin qs) = Some (foldr Qcplus 0%Qc qs).
Proof.
  induction qs as [|q qs IH]; [reflexivity|].
  cbn [map soma_percentuais foldr]. by rewrite IH.
Qed.

End CellFacts.

Import CellFacts.

Lemma counts_all_zero (counts : list Z) :
  Forall (fun x => 0 <= x) counts -> foldr Z.add 0 counts = 0 ->
  Forall (fun x => x = 0) counts.
Proof.
  induction 1 as [|x counts Hx Hall IH]; cbn [foldr]; intros Hsum; [constructor|].
  assert (0 <= foldr Z.add 0 counts).
  { clear -Hall. induction Hall; cbn [foldr]; lia. }
  constructor; [lia|]. apply IH. lia.
Qed.

Lemma percentuais_zero_row (counts : list Z) :
  Forall (fun x => x = 0) counts ->
  Forall (eq (Fin 0%Qc)) (map (percentual 0) counts).
Proof.
  induction 1 as [|x counts -> _ IH]; cbn [map]; [constructor|].
  rewrite percentual_zero. by constructor.
Qed.

(** The cells of a row of positive total: finite, each its exact percentage
    up to rounding, and their exact sum 100 up to rounding. *)
Lemma percentuais_positive_row (counts : list Z) :
  Forall (fun x => 0 <= x) counts ->
  0 < foldr Z.add 0 counts ->
  exists qs,
    map (percentual (foldr Z.add 0 counts)) counts = map Fin qs
    /\ Forall2 (fun q x => proximo (percentual_exato (foldr Z.add 0 counts) x) q)
               qs counts
    /\ proximo (Qc_of_Z 100) (foldr Qcplus 0%Qc qs).
Proof.
  intros Hpos Ht. set (total := foldr Z.add 0 counts) in *.
  exists (map (fun x => round64 (round64 (float_of_Z x / float_of_Z total)
                                 * Qc_of_Z 100))%Qc counts).
  split; [|split].
  - rewrite map_map. apply map_ext. intros x. apply percentual_nonzero. lia.
  - apply Forall2_fmap_l, Forall_Forall2_diag.
    eapply list.Forall_impl; [exact Hpos|]. intros x Hx. by apply percentual_proximo.
  - assert (Hsum : foldr Qcplus 0%Qc (map (percentual_exato total) counts)
                   = Qc_of_Z 100).
    { rewrite soma_exata by lia. unfold percentual_exato. fold total.
      pose proof (Qc_of_Z_nonzero total ltac:(lia)). by field. }
    pose proof (proximo_soma (map (percentual_exato total) counts)
                  (map (fun x => round64 (round64 (float_of_Z x / float_of_Z total)
                                          * Qc_of_Z 100))%Qc counts)) as Hp.
    rewrite Hsum in Hp. apply Hp.
    apply Forall2_fmap, Forall_Forall2_diag.
    eapply list.Forall_impl; [exact Hpos|]. intros x Hx. by apply percentual_proximo.
Qed.

(** C5, as the code has it.  Whenever the function returns its two frames
    for an order list of which ["Total"] is not a category, the percentage
    frame has the rows of the count frame, in the same order; each of its
    cells is the float that the code computes from the count of the raw
    frame and the row's total.  In a row whose total is 0 every cell is the
    float 0; in a row whose total is positive every cell is finite and is
    the exact percentage up to rounding (relative error at most
    [5 * 2^-53]), and the exact sum of the cells is 100 up to rounding.  No
    cell is NaN or infinite. *)
Theorem crosstab_percentages (k : sort_kind) (df : DataFrame)
    (grupo col_categorica : string) (ordem : list string)
    (index cats : list (option string)) (perc : PercTable) (tab : CountTable) :
  column df grupo = Some index -> column df col_categorica = Some cats ->
  ~ In "Total" ordem ->
  _gerar_grafico_barras_crosstab k df grupo col_categorica ordem
  = Returns (Some (perc, tab)) ->
  Forall2 (fun (p : string * list pyfloat) (r : string * list Z) =>
       let total := total_de (ct_columns tab) r in
       let counts := map (count_obs (observations index cats) r.1) ordem in
       p.1 = r.1
       /\ r.2 = counts ++ [total]
       /\ 0 <= total
       /\ p.2 = map (percentual total) counts
       /\ (total = 0 -> Forall (eq (Fin 0%Qc)) p.2)
       /\ (0 < total ->
           exists qs,
             p.2 = map Fin qs
             /\ Forall2 (fun q x => proximo (percentual_exato total x) q) qs counts
             /\ soma_percentuais p.2 = Some (foldr Qcplus 0%Qc qs)
             /\ proximo (Qc_of_Z 100) (foldr Qcplus 0%Qc qs)))
    (pt_rows perc) (ct_rows tab).
Proof.
  intros Hg Hc Htotal.
  rewrite (gerar_unfold k df grupo col_categorica ordem index cats Hg Hc).
  rewrite sort_by_total_absent by done.
  intros [= <- <-].
  cbn [ct_columns ct_rows percentuais pt_rows].
  apply Forall2_fmap_l, Forall_Forall2_diag, Forall_forall.
  intros r Hr.
  destruct (crosstab_rows_absent k _ ordem _ r Htotal Hr) as (_ & Hcells & Ht).
  unfold compose. cbn beta. cbn [fst snd].
  rewrite Ht, Hcells, drop_cells_app_last by done.
  set (counts := map (count_obs (observations index cats) r.1) ordem).
  assert (Hpos : Forall (fun x => 0 <= x) counts).
  { apply Forall_forall. intros x (c & <- & _)%in_map_iff. apply count_obs_nonneg. }
  assert (Hsum : 0 <= soma (count_obs (observations index cats)) ordem r.1).
  { unfold soma. fold counts. clear -Hpos. induction Hpos; cbn [foldr]; lia. }
  unfold soma in *. fold counts in Hsum |- *.
  split; [done|]. split; [done|]. split; [done|]. split; [done|]. split.
  - intros Hz. rewrite Hz. apply percentuais_zero_row. by apply counts_all_zero.
  - intros Hz. destruct (percentuais_positive_row counts Hpos Hz) as (qs & Hqs & Hcells' & Hs).
    exists qs. split; [done|]. split; [done|]. split; [|done].
    rewrite Hqs. apply soma_percentuais_Fin.
Qed.

Lemma crosstab_percentages_witness :
  _gerar_grafico_barras_crosstab stable_kind df_dois_cidadaos
    "UNIDADE DE SAÚDE" "STATUS DOCUMENTO" ["COM CPF"; "SEM CPF"]
  = Returns (Some (perc_dois_cidadaos, tab_dois_cidadaos))
  /\ pt_rows perc_dois_cidadaos = [("UBS A", [percentual 2 1; percentual 2 1])]
  /\ percentual 2 1 = Fin (Qc_of_Z 50)
  /\ exists qs, [percentual 2 1; percentual 2 1] = map Fin qs
                /\ proximo (Qc_of_Z 100) (foldr Qcplus 0%Qc qs).
Proof.
  split; [exact gerar_dois_cidadaos|]. split; [reflexivity|]. split.
  { rewrite percentual_nonzero by done. f_equal. apply Qc_is_canon. reflexivity. }
  pose proof (crosstab_percentages stable_kind df_dois_cidadaos
                "UNIDADE DE SAÚDE" "STATUS DOCUMENTO" ["COM CPF"; "SEM CPF"]
                [Some "UBS A"; Some "UBS A"] [Some "COM CPF"; Some "SEM CPF"]
                perc_dois_cidadaos tab_dois_cidadaos
                eq_refl eq_refl not_in_ordem_cpf gerar_dois_cidadaos) as H.
  apply Forall2_cons_1 in H as [(_ & _ & _ & _ & _ & Hpos) _].
  destruct (Hpos eq_refl) as (qs & Hqs & _ & _ & Hsum).
  exists qs. split; [exact Hqs|exact Hsum].
Defined.

(** C5 as stated fails for the same frame as C4: with the category "Total"
    in [ordem], the only percentage cell of the row of total 3 is the float
    of [1 / 3 * 100], so the row sums to a third of 100. *)
Lemma crosstab_percent_sum_counterexample :
  (forall k : sort_kind,
     exists perc tab,
       _gerar_grafico_barras_crosstab k df_categoria_total "g" "c" ["X"; "Total"]
       = Returns (Some (perc, tab))
       /\ ct_rows tab = [("a", [1; 3])]
       /\ pt_rows perc = [("a", [percentual 3 1])])
  /\ exists s, soma_percentuais [percentual 3 1] = Some s
               /\ (s < Qc_of_Z 34)%Qc
               /\ ~ proximo (Qc_of_Z 100) s.
Proof.
  split.
  - intros k. eexists _, _. split; [apply gerar_categoria_total|]. by split.
  - rewrite percentual_nonzero by done. cbn [soma_percentuais fmap option_fmap option_map].
    eexists. split; [reflexivity|].
    assert (Hlt : (round64 (round64 (float_of_Z 1 / float_of_Z 3) * Qc_of_Z 100) + 0
                   < Qc_of_Z 34)%Qc).
    { unfold Qclt. apply Qlt_alt. vm_compute. reflexivity. }
    split; [exact Hlt|].
    intros [Hlo _]. revert Hlo. apply Qclt_not_le.
    eapply Qclt_trans; [exact Hlt|].
    unfold Qclt. apply Qlt_alt. vm_compute. reflexivity.
Qed.

(* ================================================================== *)
(** * Observations outside the category order *)
(* ================================================================== *)

(** The observations whose category is one of [ordem]. *)
Definition in_order (ordem : list string) (obs : list (string * string))
  : list (string * string) :=
  List.filter (fun o => existsb (String.eqb o.2) ordem) obs.

Lemma count_obs_in_order (ordem : list string) (obs : list (string * string))
    (g c : string) :
  In c ordem -> count_obs (in_order ordem obs) g c = count_obs obs g c.
Proof.
  intros Hc. unfold count_obs, in_order. do 2 f_equal.
  induction obs as [|o obs IH]; [reflexivity|].
  cbn [List.filter]. destruct (String.eqb_spec o.2 c) as [Heq|Hne].
  - rewrite Heq at 1. rewrite (proj2 (existsb_eqb_In c ordem) Hc).
    cbn [List.filter]. rewrite Heq, String.eqb_refl. by rewrite IH.
  - rewrite andb_false_r.
    destruct (existsb (String.eqb o.2) ordem); [|exact IH].
    cbn [List.filter]. rewrite (proj2 (String.eqb_neq _ _) Hne), andb_false_r.
    exact IH.
Qed.

Lemma soma_ext (f f' : string -> string -> Z) (ordem : list string) (g : string) :
  (forall c, In c ordem -> f g c = f' g c) -> soma f ordem g = soma f' ordem g.
Proof. intros Hext. unfold soma. f_equal. by apply map_ext_in. Qed.

Lemma soma_indicator (ordem : list string) (x : string) :
  NoDup ordem ->
  foldr Z.add 0 (map (fun c => if String.eqb x c then 1 else 0) ordem)
  = if existsb (String.eqb x) ordem then 1 else 0.
Proof.
  induction 1 as [|c ordem Hc _ IH]; [reflexivity|].
  cbn [map foldr existsb]. rewrite IH.
  destruct (String.eqb_spec x c) as [->|_]; cbn [orb]; [|lia].
  assert (existsb (String.eqb c) ordem = false) as ->; [|lia].
  apply existsb_eqb_not_In. intros Hin. apply Hc. by apply list_elem_of_In.
Qed.

Lemma soma_cons (o : string * string) (obs : list (string * string))
    (ordem : list string) (g : string) :
  soma (count_obs (o :: obs)) ordem g
  = soma (count_obs obs) ordem g
    + (if String.eqb o.1 g
       then foldr Z.add 0 (map (fun c => if String.eqb o.2 c then 1 else 0) ordem)
       else 0).
Proof.
  unfold soma. induction ordem as [|c ordem IH]; cbn [map foldr].
  - destruct (String.eqb o.1 g); lia.
  - rewrite IH. unfold count_obs at 1 3. cbn [List.filter].
    destruct (String.eqb o.1 g), (String.eqb o.2 c); cbn [andb length]; lia.
Qed.

Lemma soma_nil (ordem : list string) (g : string) : soma (count_obs []) ordem g = 0.
Proof.
  unfold soma. induction ordem as [|c ordem IH]; [reflexivity|].
  cbn [map foldr]. by rewrite IH.
Qed.

(** With distinct categories, the sum of a group's counts over [ordem] is
    the number of its observations whose category is in [ordem]. *)
Lemma soma_counts (ordem : list string) (obs : list (string * string)) (g : string) :
  NoDup ordem ->
  soma (count_obs obs) ordem g
  = Z.of_nat (length (List.filter (fun o => String.eqb o.1 g) (in_order ordem obs))).
Proof.
  intros Hnd. induction obs as [|o obs IH].
  - by rewrite soma_nil.
  - rewrite soma_cons, IH, soma_indicator by done.
    unfold in_order. cbn [List.filter].
    destruct (existsb (String.eqb o.2) ordem); cbn [List.filter];
      destruct (String.eqb o.1 g); cbn [length]; lia.
Qed.

(** C10.  Whenever the function returns its two frames, a categorical value
    that is not in [ordem] labels no category column of either frame; every
    category cell of the count frame counts the observations of its own
    category only, and the Total of a row is the sum of the counts over
    [ordem], so that cells and totals (and with them the percentages, which
    are computed from the two) are those of the observations whose category
    is in [ordem]; with distinct categories, the Total is the number of
    these observations in the row's group. *)
Theorem crosstab_out_of_order (k : sort_kind) (df : DataFrame)
    (grupo col_categorica : string) (ordem : list string)
    (perc : PercTable) (tab : CountTable) :
  _gerar_grafico_barras_crosstab k df grupo col_categorica ordem
  = Returns (Some (perc, tab)) ->
  exists index cats,
    column df grupo = Some index /\ column df col_categorica = Some cats
    /\ perc = percentuais tab
    /\ (forall v, ~ In v ordem ->
          ~ In v (pt_columns perc)
          /\ ~ In v (drop_label (ct_columns tab) "Total"))
    /\ (forall r, In r (ct_rows tab) ->
          total_de (ct_columns tab) r
          = soma (count_obs (in_order ordem (observations index cats))) ordem r.1
          /\ (forall c, In c ordem -> c <> "Total" ->
                cell (ct_columns tab) r.2 c
                = Some (count_obs (in_order ordem (observations index cats)) r.1 c))
          /\ (NoDup ordem ->
              total_de (ct_columns tab) r
              = Z.of_nat (length (List.filter (fun o => String.eqb o.1 r.1)
                                    (in_order ordem (observations index cats)))))).
Proof.
  intros Hret.
  destruct (gerar_returns k df grupo col_categorica ordem perc tab Hret)
    as (index & cats & Hg & Hc & Hsort & ->).
  apply sort_by_total_returns in Hsort as [Hcols Hrows].
  exists index, cats. split; [done|]. split; [done|]. split; [done|]. split.
  - intros v Hv. cbn [percentuais pt_columns].
    rewrite Hcols, totalled_columns. split; intros [Hin _]%In_drop_label; done.
  - intros r Hr. rewrite Hrows in Hr.
    apply (Permutation_in _ (sort_values_desc_perm k _ _)) in Hr.
    apply totalled_rows in Hr as (_ & Ht & Hcell).
    rewrite Hcols, Ht.
    assert (Hsoma : soma (count_obs (observations index cats)) ordem r.1
                    = soma (count_obs (in_order ordem (observations index cats))) ordem r.1).
    { apply soma_ext. intros c Hin. symmetry. by apply count_obs_in_order. }
    split; [exact Hsoma|]. split.
    + intros c Hin Hne. rewrite Hcell by done. by rewrite count_obs_in_order.
    + intros Hnd. by apply soma_counts.
Qed.

(** Group "a" has one observation of category "X" and one of "Z", group "b"
    a single one of "Z"; only "X" and "Y" are asked for. *)
Definition df_fora_de_ordem : DataFrame :=
  [ ("g", [Some "a"; Some "a"; Some "b"]);
    ("c", [Some "X"; Some "Z"; Some "Z"]) ].

Definition perc_fora_de_ordem : PercTable :=
  {| pt_columns := ["X"; "Y"];
     pt_rows := [("a", [percentual 1 1; percentual 1 0]);
                 ("b", [percentual 0 0; percentual 0 0])] |}.

Definition tab_fora_de_ordem : CountTable :=
  {| ct_columns := ["X"; "Y"; "Total"];
     ct_rows := [("a", [1; 0; 1]); ("b", [0; 0; 0])] |}.

Lemma gerar_fora_de_ordem :
  _gerar_grafico_barras_crosstab stable_kind df_fora_de_ordem "g" "c" ["X"; "Y"]
  = Returns (Some (perc_fora_de_ordem, tab_fora_de_ordem)).
Proof. vm_compute. reflexivity. Qed.

Lemma crosstab_out_of_order_witness :
  exists index cats,
    column df_fora_de_ordem "g" = Some index /\ column df_fora_de_ordem "c" = Some cats
    /\ perc_fora_de_ordem = percentuais tab_fora_de_ordem
    /\ (forall v, ~ In v ["X"; "Y"] ->
          ~ In v (pt_columns perc_fora_de_ordem)
          /\ ~ In v (drop_label (ct_columns tab_fora_de_ordem) "Total"))
    /\ (forall r, In r (ct_rows tab_fora_de_ordem) ->
          total_de (ct_columns tab_fora_de_ordem) r
          = soma (count_obs (in_order ["X"; "Y"] (observations index cats))) ["X"; "Y"] r.1
          /\ (forall c, In c ["X"; "Y"] -> c <> "Total" ->
                cell (ct_columns tab_fora_de_ordem) r.2 c
                = Some (count_obs (in_order ["X"; "Y"] (observations index cats)) r.1 c))
          /\ (NoDup ["X"; "Y"] ->
              total_de (ct_columns tab_fora_de_ordem) r
              = Z.of_nat (length (List.filter (fun o => String.eqb o.1 r.1)
                                    (in_order ["X"; "Y"] (observations index cats)))))).
Proof.
  exact (crosstab_out_of_order stable_kind df_fora_de_ordem "g" "c" ["X"; "Y"]
           perc_fora_de_ordem tab_fora_de_ordem gerar_fora_de_ordem).
Defined.

(** In that frame the two observations of "Z" are counted nowhere: the
    Total of "a" is 1 and that of "b" is 0, whose percentages are all 0. *)
Example fora_de_ordem_totais :
  map (total_de (ct_columns tab_fora_de_ordem)) (ct_rows tab_fora_de_ordem) = [1; 0]
  /\ percentual 0 0 = Fin 0%Qc.
Proof. split; [reflexivity|apply percentual_zero]. Qed.

(* ================================================================== *)
(** * Rankings *)
(* ================================================================== *)

Module RankingFacts.

Lemma In_firstn {A : Type} (n : nat) (l : list A) (x : A) :
  In x (firstn n l) -> In x l.
Proof.
  intros Hx. rewrite <- (firstn_skipn n l). apply in_or_app. by left.
Qed.

Lemma StronglySorted_firstn {A : Type} (R : A -> A -> Prop) (n : nat) (l : list A) :
  StronglySorted R l -> StronglySorted R (firstn n l).
Proof.
  revert l. induction n as [|n IH]; intros l Hs; [constructor|].
  destruct l as [|x l]; [constructor|].
  apply StronglySorted_inv in Hs as [Hs Hall]. cbn [firstn]. constructor.
  - by apply IH.
  - apply Forall_forall. intros y Hy.
    apply (proj1 (Forall_forall _ _) Hall). by apply In_firstn in Hy.
Qed.

Lemma filter_prefix_firstn {A : Type} (P : A -> Prop) `{forall x, Decision (P x)}
    (n : nat) (l : list A) :
  filter P (firstn n l) `prefix_of` filter P l.
Proof.
  exists (filter P (skipn n l)). by rewrite <- list.filter_app, firstn_skipn.
Qed.

(** Among the rows of one key value, the threshold test of [nlargest]
    keeps all or none. *)
Lemma filter_threshold {A : Type} (key : A -> Z) (kth v : Z) (s : list A) :
  filter (fun r => key r = v) (List.filter (fun r => kth <=? key r) s)
  = if kth <=? v then filter (fun r => key r = v) s else [].
Proof.
  induction s as [|x s IH]; cbn [List.filter].
  - by destruct (kth <=? v).
  - rewrite (filter_cons _ x s).
    destruct (kth <=? key x) eqn:Hx.
    + rewrite filter_cons, IH. case_decide as Hv; [|done].
      rewrite <- Hv, Hx. done.
    + rewrite IH. case_decide as Hv; [|done]. by rewrite <- Hv, Hx.
Qed.

Section NLargest.
Context {A : Type} (k : sort_kind) (key : A -> Z).

Lemma nlargest_sorted (n : nat) (s : list A) :
  StronglySorted (desc_by key) (nlargest k n key s).
Proof.
  unfold nlargest. destruct n as [|n]; [constructor|].
  destruct (length s <=? S n)%nat; apply StronglySorted_firstn.
  - apply sort_values_desc_sorted.
  - apply isort_desc_sorted.
Qed.

Lemma nlargest_incl (n : nat) (s : list A) : incl (nlargest k n key s) s.
Proof.
  unfold nlargest. destruct n as [|n]; [intros x []|].
  destruct (length s <=? S n)%nat; intros x Hx%In_firstn.
  - by apply (Permutation_in _ (sort_values_desc_perm k key s)).
  - apply (Permutation_in _ (isort_desc_perm key false _)) in Hx.
    by apply List.filter_In in Hx as [Hx _].
Qed.

(** With more entries than asked for, the entries of every value are an
    initial segment of those of the series, in its order. *)
Lemma nlargest_fast_ties (n : nat) (s : list A) (v : Z) :
  (n < length s)%nat ->
  filter (fun r => key r = v) (nlargest k n key s)
  `prefix_of` filter (fun r => key r = v) s.
Proof.
  intros Hn. unfold nlargest. destruct n as [|n]; [apply prefix_nil|].
  rewrite (proj2 (Nat.leb_gt _ _) Hn).
  etrans; [apply filter_prefix_firstn|].
  rewrite isort_desc_stable, filter_threshold.
  by destruct (_ <=? v); [|apply prefix_nil].
Qed.

(** With no more entries than asked for, the result is the sorted series. *)
Lemma nlargest_slow (n : nat) (s : list A) :
  (0 < n)%nat -> (length s <= n)%nat ->
  nlargest k n key s = sort_values_desc k key s.
Proof.
  intros Hpos Hn. unfold nlargest. destruct n as [|n]; [lia|].
  rewrite (proj2 (Nat.leb_le _ _) Hn). apply firstn_all2.
  by rewrite (Permutation_length (sort_values_desc_perm k key s)).
Qed.

End NLargest.

End RankingFacts.

Import RankingFacts.

(** What holds of a ranking [top] of the five largest sums of a grouped
    series [grouped], under the sort kind [k]: it is sorted descending by
    the sum; its entries are entries of the series, which is ascending by
    group name; with more than five groups the listed groups of each sum are
    the first ones of the series, in its order; with five groups or fewer
    the ranking is a permutation of the series, and keeps the order of tied
    groups if the sort is stable. *)
Definition ranking_of (k : sort_kind) (top grouped : list (string * Z)) : Prop :=
  StronglySorted (desc_by snd) top
  /\ incl top grouped
  /\ StronglySorted (fun a b => String.compare a.1 b.1 = Lt) grouped
  /\ ((5 < length grouped)%nat ->
      forall v, filter (fun r => r.2 = v) top
                `prefix_of` filter (fun r => r.2 = v) grouped)
  /\ ((length grouped <= 5)%nat ->
      Permutation top grouped
      /\ (stable k -> ties_in_order snd top grouped)).

Lemma nlargest_ranking (k : sort_kind) (grouped : list (string * Z)) :
  StronglySorted (fun a b => String.compare a.1 b.1 = Lt) grouped ->
  ranking_of k (nlargest k 5 snd grouped) grouped.
Proof.
  intros Hs.
  split; [apply nlargest_sorted|]. split; [apply nlargest_incl|].
  split; [exact Hs|]. split.
  - intros Hn v. by apply nlargest_fast_ties.
  - intros Hn. rewrite nlargest_slow by lia. split.
    + apply sort_values_desc_perm.
    + intros Hst v. by apply sort_values_desc_stable.
Qed.

(** C9, as the code has it.  Both top-5 tables list groups of the grouped
    sums in descending order of the sum.  When there are more than five
    groups, the groups of every tied sum that make it into the table are the
    first ones of the grouped series, in its order, which is ascending by
    group name and not the order of the rows of the input.  With five
    groups or fewer the table is the whole series as [sort_values] leaves
    it: tied groups keep the order of the series if the sort is stable. *)
Theorem top_5_spec (k : sort_kind) (df_filt : list ProductivityRecord) :
  ranking_of k (top_5_profissionais k df_filt)
    (somar_por PROFISSIONAL (fillna_profissional df_filt))
  /\ ranking_of k (top_5_equipes k df_filt) (somar_por EQUIPE df_filt).
Proof. split; apply nlargest_ranking, somar_por_sorted. Qed.

Definition producao (profissional : string) (total : Z) : ProductivityRecord :=
  {| EQUIPE := Some "EQUIPE 1"; PROFISSIONAL := Some profissional;
     TOTAL_GERAL := Some total |}.

(** Six professionals with the same production, uploaded in the order
    F, E, D, C, B, A. *)
Definition df_seis_empatados : list ProductivityRecord :=
  [producao "F" 10; producao "E" 10; producao "D" 10;
   producao "C" 10; producao "B" 10; producao "A" 10].

(** C9 as stated fails.  Of six tied professionals uploaded in the order
    F, E, D, C, B, A, the table lists A, B, C, D, E under every sort kind:
    the reverse of their order in the input, and F, the first of the input,
    is the one left out.  And of two tied professionals only, a sort that
    meets what pandas promises of the default kind lists B before A, the
    reverse of the grouped series as well. *)
Lemma top_5_ties_counterexample :
  (map PROFISSIONAL df_seis_empatados
     = [Some "F"; Some "E"; Some "D"; Some "C"; Some "B"; Some "A"]
   /\ forall k : sort_kind,
        top_5_profissionais k df_seis_empatados
        = [("A", 10); ("B", 10); ("C", 10); ("D", 10); ("E", 10)])
  /\ (somar_por PROFISSIONAL (fillna_profissional [producao "A" 10; producao "B" 10])
        = [("A", 10); ("B", 10)]
      /\ top_5_profissionais reversing_kind [producao "A" 10; producao "B" 10]
        = [("B", 10); ("A", 10)]).
Proof.
  split; split.
  - reflexivity.
  - intros k. vm_compute. reflexivity.
  - reflexivity.
  - vm_compute. reflexivity.
Qed.

(* ================================================================== *)
(** * The INE token is always in normal form *)
(* ================================================================== *)

Module StripFacts.

Lemma rstrip_cons (c : ascii) (s : string) :
  rstrip (String c s)
  = match rstrip s with
    | EmptyString => if is_space c then EmptyString else String c EmptyString
    | r => String c r
    end.
Proof. reflexivity. Qed.

Lemma rstrip_idem (s : string) : rstrip (rstrip s) = rstrip s.
Proof.
  induction s as [|c s IH]; [reflexivity|].
  rewrite rstrip_cons. destruct (rstrip s) as [|d r] eqn:Hr.
  - destruct (is_space c) eqn:Hc; [reflexivity|]. rewrite rstrip_cons. cbn [rstrip].
    by rewrite Hc.
  - by rewrite rstrip_cons, IH.
Qed.

(** [lstrip] leaves the empty string or a string that starts with a
    character that is no white space. *)
Lemma lstrip_head (s : string) :
  match lstrip s with
  | EmptyString => True
  | String c _ => is_space c = false
  end.
Proof.
  induction s as [|c s IH]; [done|].
  cbn [lstrip]. destruct (is_space c) eqn:Hc; [exact IH|exact Hc].
Qed.

Lemma lstrip_rstrip (x : string) :
  match x with
  | EmptyString => True
  | String c _ => is_space c = false
  end ->
  lstrip (rstrip x) = rstrip x.
Proof.
  destruct x as [|c x]; [reflexivity|]. intros Hc.
  rewrite rstrip_cons. destruct (rstrip x); rewrite ?Hc; cbn [lstrip]; by rewrite Hc.
Qed.

(** [s.strip().strip() == s.strip()] *)
Lemma strip_idem (s : string) : strip (strip s) = strip s.
Proof.
  unfold strip. rewrite lstrip_rstrip by apply lstrip_head. apply rstrip_idem.
Qed.

Lemma lstrip_suffix (s : string) : exists a, s = a +:+ lstrip s.
Proof.
  induction s as [|c s [a IH]]; [by exists ""|].
  cbn [lstrip]. destruct (is_space c).
  - exists (String c a). by rewrite sapp_cons, <- IH.
  - by exists "".
Qed.

Lemma rstrip_prefix (s : string) : exists b, s = rstrip s +:+ b.
Proof.
  induction s as [|c s [b IH]]; [by exists ""|].
  rewrite rstrip_cons. destruct (rstrip s) as [|d r] eqn:Hr.
  - destruct (is_space c).
    + exists (String c s). by rewrite sapp_nil_l.
    + exists b. rewrite sapp_cons, sapp_nil_l. rewrite sapp_nil_l in IH. by rewrite <- IH.
  - exists b. by rewrite sapp_cons, <- IH.
Qed.

(** What occurs in the stripped string occurs in the string. *)
Lemma occurs_strip (sub s : string) : occurs sub (strip s) -> occurs sub s.
Proof.
  unfold strip. intros (x & y & Hxy).
  destruct (lstrip_suffix s) as [a Ha]. destruct (rstrip_prefix (lstrip s)) as [b Hb].
  exists (a +:+ x), (y +:+ b). rewrite Ha at 1. rewrite Hb at 1. rewrite Hxy.
  by rewrite !sapp_assoc.
Qed.

End StripFacts.

Import StripFacts.

(** Whatever the team key, the INE token taken from it holds no separator
    " - " and no white space at either end, and taking the token of a token
    changes nothing.  Hence an INE that holds a separator, or white space at
    either end, is the token of no team key: an override registered under
    such an INE can never apply. *)
Theorem ine_da_equipe_normal (equipe_original : string) :
  ~ occurs " - " (ine_da_equipe equipe_original)
  /\ strip (ine_da_equipe equipe_original) = ine_da_equipe equipe_original
  /\ ine_da_equipe (ine_da_equipe equipe_original) = ine_da_equipe equipe_original
  /\ forall ine, occurs " - " ine \/ strip ine <> ine ->
                 ine_da_equipe equipe_original <> ine.
Proof.
  assert (Hno : ~ occurs " - " (ine_da_equipe equipe_original)).
  { unfold ine_da_equipe, last_piece. intros Ho%occurs_strip.
    destruct (split_spec " " "- " equipe_original)
      as [[Hn Hsp]|(q & p & ps & _ & Hn & Hsp & _)]; rewrite Hsp in Ho.
    - by apply Hn.
    - rewrite last_last in Ho. by apply Hn. }
  assert (Hst : strip (ine_da_equipe equipe_original) = ine_da_equipe equipe_original).
  { unfold ine_da_equipe. apply strip_idem. }
  split; [exact Hno|]. split; [exact Hst|]. split.
  - unfold ine_da_equipe at 1, last_piece.
    destruct (split_spec " " "- " (ine_da_equipe equipe_original))
      as [[_ ->]|(q & p & ps & Hq & _)].
    + exact Hst.
    + exfalso. apply Hno. by exists q, p.
  - intros ine [Ho|Hs] <-; [by apply Hno|by apply Hs].
Qed.

Example ine_da_equipe_espaco :
  ine_da_equipe "EQUIPE 9 - 0009999 " = "0009999"
  /\ ine_da_equipe "EQUIPE 9 - 0009999 " <> "0009999 ".
Proof. split; [reflexivity|discriminate]. Qed.

(* ================================================================== *)
(** * The rows of the parameter frame *)
(* ================================================================== *)

Module RegistryFacts.

(** [rsplit1] cuts at the last separator: the two parts and the separator
    give the string back, and the right part holds no separator. *)
Lemma rsplit1_Some (sep : ascii) (s a b : string) :
  rsplit1 sep s = Some (a, b) ->
  s = a +:+ String sep b /\ ~ occurs (String sep "") b.
Proof.
  revert a. induction s as [|c s IH]; intros a; cbn [rsplit1]; [done|].
  destruct (rsplit1 sep s) as [[a' b']|] eqn:Hs.
  - intros [= <- <-]. destruct (IH a' eq_refl) as [-> Hno].
    by rewrite sapp_cons.
  - destruct (Ascii.eqb_spec c sep) as [->|Hne]; [|done].
    intros [= <- <-]. split; [by rewrite sapp_nil_l|].
    clear IH. revert Hs. clear. induction s as [|c s IH]; cbn [rsplit1].
    + intros _ (x & y & Hxy). destruct x; discriminate.
    + destruct (rsplit1 sep s) as [[a' b']|]; [done|].
      destruct (Ascii.eqb_spec c sep) as [->|Hne]; [done|].
      intros _ (x & y & Hxy). destruct x as [|c' x].
      * rewrite sapp_nil_l, sapp_cons in Hxy. congruence.
      * rewrite sapp_cons in Hxy. injection Hxy as _ Hxy.
        apply IH; [done|]. by exists x, y.
Qed.

Lemma rsplit1_None (sep : ascii) (s : string) :
  rsplit1 sep s = None <-> ~ occurs (String sep "") s.
Proof.
  split.
  - induction s as [|c s IH]; cbn [rsplit1].
    + intros _ (x & y & Hxy). destruct x; discriminate.
    + destruct (rsplit1 sep s) as [[a' b']|]; [done|].
      destruct (Ascii.eqb_spec c sep) as [->|Hne]; [done|].
      intros _ (x & y & Hxy). destruct x as [|c' x].
      * rewrite sapp_nil_l, sapp_cons in Hxy. congruence.
      * rewrite sapp_cons in Hxy. injection Hxy as _ Hxy.
        apply IH; [done|]. by exists x, y.
  - intros Hno. destruct (rsplit1 sep s) as [[a b]|] eqn:Hs; [|done].
    exfalso. apply Hno. apply rsplit1_Some in Hs as [-> _].
    exists a, b. by rewrite sapp_cons, sapp_nil_l.
Qed.

End RegistryFacts.

Import RegistryFacts.

(** The municipality key a row stands for. *)
Definition chave_municipio (row : ParamRow) : string :=
  MUNICIPIO row +:+ "-" +:+ UF row.

(** A registry key yields a row exactly when it holds a hyphen; the row's
    name and state are the two sides of the last hyphen of the key (the name
    may itself hold hyphens, the state holds none), and its parameters are
    those of the entry, with the empty map for a missing EAP map. *)
Theorem registry_row_spec (municipio_uf : string) (params : RegistryEntry) :
  (registry_row municipio_uf params = None <-> ~ occurs "-" municipio_uf)
  /\ forall row,
       registry_row municipio_uf params = Some row ->
       chave_municipio row = municipio_uf
       /\ ~ occurs "-" (UF row)
       /\ PARAMETRO_ESF row = parametro_esf params
       /\ LIMITE_ESF row = limite_esf params
       /\ EAP_POR_INE row = default ∅ (eap_por_ine params).
Proof.
  unfold registry_row. split.
  - rewrite <- (rsplit1_None "-" municipio_uf).
    by destruct (rsplit1 "-" municipio_uf) as [[nome uf]|].
  - intros row.
    destruct (rsplit1 "-" municipio_uf) as [[nome uf]|] eqn:Hs; [|done].
    intros [= <-]. apply rsplit1_Some in Hs as [-> Hno].
    unfold chave_municipio. cbn. by rewrite sapp_cons, sapp_nil_l.
Qed.

Example registry_row_hyphenated :
  registry_row "XIQUE-XIQUE-BA" (esf_only 2000 3000)
  = Some {| MUNICIPIO := "XIQUE-XIQUE"; UF := "BA"; PARAMETRO_ESF := 2000;
            LIMITE_ESF := 3000; EAP_POR_INE := ∅ |}.
Proof. reflexivity. Qed.

(** The parameter frame built from a registry has one row per key that
    holds a hyphen, in the order of the registry, and none for the others:
    reading name, hyphen and state off the rows gives back exactly those
    keys. *)
Theorem carregar_parametros_de_keys (registry : list (string * RegistryEntry)) :
  map chave_municipio (carregar_parametros_de registry)
  = List.filter (occursb "-") (map fst registry).
Proof.
  unfold carregar_parametros_de.
  induction registry as [|[municipio_uf params] registry IH]; [reflexivity|].
  cbn [omap list_omap map fst snd List.filter].
  destruct (registry_row municipio_uf params) as [row|] eqn:Hrow.
  - assert (Hocc : occursb "-" municipio_uf = true).
    { apply occursb_spec. destruct (occursb "-" municipio_uf) eqn:Ho.
      - by apply occursb_spec.
      - exfalso. apply not_occurs in Ho.
        unfold registry_row in Hrow.
        by rewrite (proj2 (rsplit1_None "-" municipio_uf) Ho) in Hrow. }
    rewrite Hocc. cbn [map]. f_equal; [|exact IH].
    unfold registry_row in Hrow.
    destruct (rsplit1 "-" municipio_uf) as [[nome uf]|] eqn:Hs; [|done].
    injection Hrow as <-. apply rsplit1_Some in Hs as [-> _].
    unfold chave_municipio. cbn. by rewrite sapp_cons, sapp_nil_l.
  - assert (Hocc : occursb "-" municipio_uf = false).
    { destruct (occursb "-" municipio_uf) eqn:Ho; [|done].
      apply occursb_spec in Ho. unfold registry_row in Hrow.
      destruct (rsplit1 "-" municipio_uf) as [[nome uf]|] eqn:Hs; [done|].
      by apply rsplit1_None in Hs. }
    rewrite Hocc. exact IH.
Qed.

Example carregar_parametros_de_skips :
  map MUNICIPIO
    (carregar_parametros_de
       [("CONDE-PB", esf_only 2500 3750); ("SEM UF", esf_only 2000 3000);
        ("PATU-RN", esf_only 2000 3000)])
  = ["CONDE"; "PATU"].
Proof. reflexivity. Qed.

(* ================================================================== *)
(** * The selection of the municipality never fails on a registry *)
(* ================================================================== *)

Module ControlsFacts.

Section Norm.
Variable _normalize_text : string -> string.

Local Abbreviation inserir :=
  (fun (m : gmap string string) mu => <[ _normalize_text mu := mu ]> m).

(** The dictionary comprehension, entry by entry: a token maps to the last
    name of the list that normalises to it. *)
Lemma foldl_inserir_lookup (l : list string) (acc : gmap string string) (t : string) :
  foldl inserir acc l !! t
  = match list.last (filter (fun m => _normalize_text m = t) l) with
    | Some m => Some m
    | None => acc !! t
    end.
Proof.
  revert acc. induction l as [|x l IH]; intros acc; [reflexivity|].
  cbn [foldl]. rewrite IH, filter_cons. case_decide as Hx.
  - rewrite last_cons.
    destruct (list.last (filter (fun m => _normalize_text m = t) l)); [done|].
    by rewrite Hx, lookup_insert_eq.
  - destruct (list.last (filter (fun m => _normalize_text m = t) l)); [done|].
    by rewrite lookup_insert_ne.
Qed.



End Norm.




End ControlsFacts.

Import ControlsFacts.



(** A frame of two municipalities and a file that names neither. *)
Definition dois_municipios : DashboardAPS :=
  {| df_parametros :=
       [ {| MUNICIPIO := "PATU"; UF := "RN"; PARAMETRO_ESF := 2000; LIMITE_ESF := 3000;
            EAP_POR_INE := ∅ |};
         {| MUNICIPIO := "CONDE"; UF := "PB"; PARAMETRO_ESF := 2500; LIMITE_ESF := 3750;
            EAP_POR_INE := ∅ |} ];
     municipio_selecionado := None; parametro_oficial := 0; limite_oficial := 0;
     parametros_municipio_atual := None; brutos := no_uploads |}.


Example render_controls_dois_municipios :
  match render_controls (fun s => s) Some Some Some dois_municipios
          [planilha_producao] with
  | Returns self => (municipio_selecionado self, parametro_oficial self, limite_oficial self)
  | Raises _ => (None, 0, 0)
  end
  = (Some "CONDE", 2500, 3750)
  /\ render_controls (fun s => s) Some Some Some dois_municipios [arquivo_ilegivel]
     = Returns dois_municipios.
Proof. split; vm_compute; reflexivity. Qed.

(** The token dictionary of the selection maps a token to the last, in
    sorted order, of the municipalities that normalise to it, and holds no
    other token: when two names of the registry normalise alike, a file
    token selects the later one. *)
Theorem map_norm_last_wins (_normalize_text : string -> string)
    (self : DashboardAPS) (t : string) :
  map_norm _normalize_text self !! t
  = list.last (filter (fun m => _normalize_text m = t) (municipios self)).
Proof.
  unfold map_norm. rewrite foldl_inserir_lookup.
  destruct (list.last _); [done|]. apply lookup_empty.
Qed.

(** Two names that differ only in case, under a normalisation that ignores
    the first letter's case. *)
Example map_norm_collision :
  let norm (s : string) :=
    match s with
    | String "c" r => String "C" r
    | _ => s
    end in
  map_norm norm
    {| df_parametros :=
         [ {| MUNICIPIO := "conde"; UF := "PB"; PARAMETRO_ESF := 1; LIMITE_ESF := 2;
              EAP_POR_INE := ∅ |};
           {| MUNICIPIO := "Conde"; UF := "PB"; PARAMETRO_ESF := 3; LIMITE_ESF := 4;
              EAP_POR_INE := ∅ |} ];
       municipio_selecionado := None; parametro_oficial := 0; limite_oficial := 0;
       parametros_municipio_atual := None; brutos := no_uploads |}
  !! "Conde" = Some "conde".
Proof. vm_compute. reflexivity. Qed.

(* ================================================================== *)
(** * What a grouped frame holds *)
(* ================================================================== *)

Module GroupFacts.

(** Strictly ascending keys are distinct. *)
Lemma StronglySorted_NoDup {A : Type} (R : A -> A -> Prop) (l : list A) :
  (forall x, ~ R x x) -> StronglySorted R l -> List.NoDup l.
Proof.
  intros Hirr. induction 1 as [|x l Hs IH Hall]; constructor; [|exact IH].
  intros Hin. apply (Hirr x). by apply (proj1 (Forall_forall _ _) Hall).
Qed.

Section Lookup.
Context {K V : Type} (cmp : K -> K -> comparison) (agg : V -> V -> V).
Hypothesis cmp_eq : forall x y, cmp x y = Eq <-> x = y.
Hypothesis cmp_antisym : forall x y, cmp x y = CompOpp (cmp y x).
Hypothesis cmp_trans : forall x y z, cmp x y = Lt -> cmp y z = Lt -> cmp x z = Lt.

Definition mesma_chave (k : K) (kv : K * V) : bool :=
  match cmp kv.1 k with Eq => true | _ => false end.

(** The value a grouped frame holds under a key. *)
Definition valor (k : K) (g : list (K * V)) : option V :=
  snd <$> List.find (mesma_chave k) g.

(** One step of the aggregation of the rows of key [k]. *)
Definition acumular (k : K) (acc : option V) (kv : K * V) : option V :=
  if mesma_chave k kv
  then Some (match acc with Some a => agg a kv.2 | None => kv.2 end)
  else acc.

Lemma valor_cons (k k0 : K) (v0 : V) (g : list (K * V)) :
  valor k ((k0, v0) :: g) = match cmp k0 k with Eq => Some v0 | _ => valor k g end.
Proof. unfold valor. cbn [List.find]. unfold mesma_chave at 1. cbn [fst]. by destruct (cmp k0 k). Qed.

Lemma acumular_eq (k : K) (acc : option V) (k0 : K) (v0 : V) :
  acumular k acc (k0, v0)
  = match cmp k0 k with
    | Eq => Some (match acc with Some a => agg a v0 | None => v0 end)
    | _ => acc
    end.
Proof. unfold acumular, mesma_chave. cbn [fst snd]. by destruct (cmp k0 k). Qed.

Lemma valor_above (k : K) (g : list (K * V)) :
  Forall (fun kv => cmp k kv.1 = Lt) g -> valor k g = None.
Proof.
  induction 1 as [|[k' v'] g Hk _ IH]; [reflexivity|].
  rewrite valor_cons. cbn [fst] in Hk. by rewrite cmp_antisym, Hk.
Qed.

Lemma valor_group_insert (k k' : K) (v : V) (g : list (K * V)) :
  StronglySorted (key_lt cmp) g ->
  valor k' (group_insert cmp agg k v g) = acumular k' (valor k' g) (k, v).
Proof.
  rewrite acumular_eq.
  induction g as [|[k0 v0] g IH]; intros Hs; cbn [group_insert].
  { rewrite valor_cons. by destruct (cmp k k'). }
  apply StronglySorted_inv in Hs as [Hs Hall].
  destruct (cmp k k0) eqn:Hc.
  - apply cmp_eq in Hc as ->. rewrite !valor_cons. by destruct (cmp k0 k').
  - rewrite (valor_cons k' k v).
    destruct (cmp k k') eqn:Hk; try reflexivity.
    apply cmp_eq in Hk as <-.
    rewrite valor_above; [reflexivity|]. constructor; [exact Hc|].
    eapply List.Forall_impl; [|exact Hall]. intros kv Hkv. by eapply cmp_trans.
  - rewrite !valor_cons.
    destruct (cmp k0 k') eqn:Hk0.
    + apply cmp_eq in Hk0 as <-. by rewrite Hc.
    + apply IH, Hs.
    + apply IH, Hs.
Qed.

Lemma valor_foldl (k : K) (rows g : list (K * V)) :
  StronglySorted (key_lt cmp) g ->
  valor k (foldl (fun g kv => group_insert cmp agg kv.1 kv.2 g) g rows)
  = foldl (acumular k) (valor k g) rows.
Proof.
  revert g. induction rows as [|[k' v'] rows IH]; intros g Hs; [reflexivity|].
  cbn [foldl fst snd]. rewrite IH by (by apply group_insert_sorted).
  by rewrite valor_group_insert.
Qed.

(** The value of a group is the aggregate of the rows of its key, in the
    order of the rows. *)
Lemma valor_groupby (k : K) (rows : list (K * V)) :
  valor k (groupby cmp agg rows) = foldl (acumular k) None rows.
Proof. unfold groupby. rewrite valor_foldl; [reflexivity|constructor]. Qed.

Lemma cmp_irrefl (x : K) : cmp x x <> Lt.
Proof. by rewrite (proj2 (cmp_eq x x) eq_refl). Qed.

Lemma In_valor (k : K) (v : V) (g : list (K * V)) :
  StronglySorted (key_lt cmp) g -> In (k, v) g -> valor k g = Some v.
Proof.
  induction 1 as [|[k0 v0] g Hs IH Hall]; [done|].
  rewrite valor_cons. intros [[= -> ->]|Hin].
  - by rewrite (proj2 (cmp_eq k k) eq_refl).
  - destruct (cmp k0 k) eqn:Hk.
    + apply cmp_eq in Hk as ->.
      apply (proj1 (Forall_forall _ _) Hall) in Hin. unfold key_lt in Hin.
      cbn [fst] in Hin. by apply cmp_irrefl in Hin.
    + by apply IH.
    + by apply IH.
Qed.

Lemma valor_In (k : K) (v : V) (g : list (K * V)) :
  valor k g = Some v -> In (k, v) g.
Proof.
  unfold valor. destruct (List.find (mesma_chave k) g) as [[k' v']|] eqn:Hf; [|done].
  intros [= <-]. apply find_some in Hf as [Hin Hk]. unfold mesma_chave in Hk.
  cbn [fst] in Hk. destruct (cmp k' k) eqn:Hc; try done.
  by apply cmp_eq in Hc as ->.
Qed.

Lemma groupby_NoDup (rows : list (K * V)) :
  List.NoDup (map fst (groupby cmp agg rows)).
Proof.
  apply (StronglySorted_NoDup (fun a b => cmp a b = Lt)); [apply cmp_irrefl|].
  apply StronglySorted_map. by apply groupby_sorted.
Qed.

End Lookup.

Section Sums.
Context {K : Type} (cmp : K -> K -> comparison).

Definition total (l : list (K * Z)) : Z := foldr Z.add 0 (map snd l).

Lemma total_group_insert (k : K) (v : Z) (g : list (K * Z)) :
  total (group_insert cmp Z.add k v g) = total g + v.
Proof.
  unfold total. induction g as [|[k' v'] g IH]; cbn [group_insert map foldr snd].
  - lia.
  - destruct (cmp k k'); cbn [map foldr snd]; lia.
Qed.

(** Grouped sums add up to the sum of the rows. *)
Lemma total_groupby (rows : list (K * Z)) :
  total (groupby cmp Z.add rows) = total rows.
Proof.
  unfold groupby.
  assert (Hgen : forall g,
            total (foldl (fun g kv => group_insert cmp Z.add kv.1 kv.2 g) g rows)
            = total g + total rows).
  { induction rows as [|[k v] rows IH]; intros g; cbn [foldl].
    - unfold total at 3. cbn. lia.
    - rewrite IH, total_group_insert. unfold total at 4. cbn [map foldr fst snd].
      fold (total rows). lia. }
  rewrite Hgen. unfold total at 1. cbn. lia.
Qed.

(** The sum of a group is the sum of the rows of its key. *)
Lemma foldl_acumular_add (k : K) (rows : list (K * Z)) (acc : option Z) :
  foldl (acumular cmp Z.add k) acc rows
  = match List.filter (mesma_chave cmp k) rows, acc with
    | [], _ => acc
    | l, Some a => Some (a + total l)
    | l, None => Some (total l)
    end.
Proof.
  revert acc. induction rows as [|kv rows IH]; intros acc; [by destruct acc|].
  cbn [foldl List.filter]. rewrite IH. unfold acumular.
  destruct (mesma_chave cmp k kv) eqn:Hk; [|reflexivity].
  destruct (List.filter (mesma_chave cmp k) rows) as [|kv' l] eqn:Hl;
    destruct acc; unfold total; cbn [map foldr]; f_equal; lia.
Qed.

End Sums.

End GroupFacts.

Import GroupFacts.

(* ================================================================== *)
(** * One row per team, and every citizen with a key counted once *)
(* ================================================================== *)

(** The citizen [c] carries the facility and the team key given. *)
Definition tem_chave (unidade equipe : string) (c : CitizenRecord) : bool :=
  String.eqb (UNIDADE_DE_SAUDE c) unidade
  && match EQUIPE_COMPLETA c with
     | Some e => String.eqb e equipe
     | None => false
     end.

(** The citizen [c] belongs to the facility and team of the row [r]. *)
Definition da_equipe (r : VinculoRow) (c : CitizenRecord) : bool :=
  tem_chave (Unidade_de_Saude r) (Equipe_Original r) c.

(** The citizen has a team key. *)
Definition com_equipe (c : CitizenRecord) : bool :=
  match EQUIPE_COMPLETA c with Some _ => true | None => false end.

(** The rows that [groupby] sees. *)
Definition chaves (df : list CitizenRecord) : list ((string * string) * Z) :=
  omap (fun r => match EQUIPE_COMPLETA r with
                 | Some equipe => Some ((UNIDADE_DE_SAUDE r, equipe), 1)
                 | None => None
                 end) df.

Lemma compare_pair_Eq (a b : string * string) : compare_pair a b = Eq <-> a = b.
Proof.
  split; [apply compare_pair_eq|]. intros ->. unfold compare_pair.
  by rewrite !string_compare_refl.
Qed.

Lemma mesma_chave_pair (k k' : string * string) (n : Z) :
  mesma_chave compare_pair k (k', n) = String.eqb k'.1 k.1 && String.eqb k'.2 k.2.
Proof.
  unfold mesma_chave. cbn [fst].
  destruct (compare_pair k' k) eqn:Hc.
  - apply compare_pair_eq in Hc as <-. by rewrite !String.eqb_refl.
  - symmetry. apply andb_false_iff.
    destruct (String.eqb_spec k'.1 k.1) as [H1|]; [|by left].
    destruct (String.eqb_spec k'.2 k.2) as [H2|]; [|by right].
    destruct k as [k1 k2], k' as [k1' k2']. cbn [fst snd] in *. subst.
    by rewrite (proj2 (compare_pair_Eq _ _) eq_refl) in Hc.
  - symmetry. apply andb_false_iff.
    destruct (String.eqb_spec k'.1 k.1) as [H1|]; [|by left].
    destruct (String.eqb_spec k'.2 k.2) as [H2|]; [|by right].
    destruct k as [k1 k2], k' as [k1' k2']. cbn [fst snd] in *. subst.
    by rewrite (proj2 (compare_pair_Eq _ _) eq_refl) in Hc.
Qed.

Lemma total_ones {K : Type} (l : list (K * Z)) :
  Forall (fun kv => kv.2 = 1) l -> total l = Z.of_nat (length l).
Proof.
  unfold total. induction 1 as [|[k v] l Hv _ IH]; [reflexivity|].
  cbn [map foldr length snd] in *. rewrite IH, Hv. lia.
Qed.

Lemma chaves_ones (df : list CitizenRecord) : Forall (fun kv => kv.2 = 1) (chaves df).
Proof.
  unfold chaves. induction df as [|c df IH]; cbn [omap list_omap]; [constructor|].
  destruct (EQUIPE_COMPLETA c); [by constructor|exact IH].
Qed.

Lemma length_chaves (df : list CitizenRecord) :
  length (chaves df) = length (List.filter com_equipe df).
Proof.
  unfold chaves, com_equipe. induction df as [|c df IH]; [reflexivity|].
  cbn [omap list_omap List.filter]. destruct (EQUIPE_COMPLETA c); cbn [length]; lia.
Qed.

(** The rows of a key among those that [groupby] sees. *)
Lemma filter_chaves (k : string * string) (df : list CitizenRecord) :
  List.filter (mesma_chave compare_pair k) (chaves df)
  = map (fun _ => (k, 1)) (List.filter (tem_chave k.1 k.2) df).
Proof.
  unfold chaves, tem_chave. induction df as [|c df IH]; [reflexivity|].
  cbn [omap list_omap List.filter].
  destruct (EQUIPE_COMPLETA c) as [e|].
  - cbn [List.filter]. rewrite mesma_chave_pair, IH. cbn [fst snd].
    destruct (String.eqb_spec (UNIDADE_DE_SAUDE c) k.1) as [H1|]; [|reflexivity].
    destruct (String.eqb_spec e k.2) as [H2|]; [|reflexivity].
    cbn [andb map]. f_equal. destruct k. cbn [fst snd] in *. by subst.
  - rewrite andb_false_r. exact IH.
Qed.

(** The count the grouped frame holds under a key is the number of citizen
    rows of that key, and a key without rows is not in the frame. *)
Lemma valor_contar_vinculos (k : string * string) (df : list CitizenRecord) :
  valor compare_pair k (contar_vinculos df)
  = match List.filter (tem_chave k.1 k.2) df with
    | [] => None
    | l => Some (Z.of_nat (length l))
    end.
Proof.
  unfold contar_vinculos. fold (chaves df).
  rewrite (valor_groupby compare_pair Z.add compare_pair_Eq compare_pair_antisym
             compare_pair_trans).
  rewrite foldl_acumular_add, filter_chaves.
  destruct (List.filter _ df) as [|c l]; [reflexivity|].
  cbn [map]. f_equal.
  change (total (map (fun _ : CitizenRecord => (k, 1)) (c :: l))
          = Z.of_nat (length (c :: l))).
  rewrite total_ones, length_map; [reflexivity|].
  apply Forall_forall. by intros kv (r & <- & _)%in_map_iff.
Qed.

Lemma In_calcular_vinculos (k : sort_kind) (self : DashboardAPS)
    (df : list CitizenRecord) (rows : list VinculoRow) (r : VinculoRow) :
  _calcular_vinculos k self df = Returns rows ->
  In r rows <->
  exists g, In g (contar_vinculos df) /\ r = classificar self g.
Proof.
  intros [_ ->]%calcular_vinculos_returns. unfold vinculos_classificados. split.
  - intros Hr. apply (Permutation_in _ (sort_values_desc_perm k _ _)) in Hr.
    apply in_map_iff in Hr as (g & <- & Hg). by exists g.
  - intros (g & Hg & ->).
    apply (Permutation_in _ (Permutation_sym (sort_values_desc_perm k _ _))).
    by apply in_map.
Qed.


(** The count of a row is the number of the citizens of its key. *)
Lemma vinculo_contagem (k : sort_kind) (self : DashboardAPS)
    (df : list CitizenRecord) (rows : list VinculoRow) (r : VinculoRow) :
  _calcular_vinculos k self df = Returns rows ->
  In r rows ->
  N_de_Pessoas_Vinculadas r = Z.of_nat (length (List.filter (da_equipe r) df))
  /\ 1 <= N_de_Pessoas_Vinculadas r.
Proof.
  intros Hret (g & Hg & ->)%(In_calcular_vinculos k self df rows); [|done].
  destruct g as [[unidade equipe] n].
  apply (In_valor compare_pair compare_pair_Eq) in Hg;
    [|apply contar_vinculos_sorted].
  rewrite valor_contar_vinculos in Hg.
  cbn [fst snd] in Hg. unfold da_equipe. cbn [classificar Unidade_de_Saude
    Equipe_Original N_de_Pessoas_Vinculadas fst snd].
  destruct (List.filter _ df) as [|c l]; [done|].
  injection Hg as <-. cbn [length]. split; [reflexivity|lia].
Qed.

(** Whenever the classifier returns its table, the table has exactly one
    row per facility and team key that some citizen carries: the keys of
    its rows are distinct, a row's count is the number of citizen rows of
    its key, hence at least one, and a citizen is counted in a row exactly
    when the citizen has a team key; the citizens whose key is missing are
    in no row. *)
Theorem calcular_vinculos_por_equipe (k : sort_kind) (self : DashboardAPS)
    (df_cid_filtrado : list CitizenRecord) (rows : list VinculoRow) :
  _calcular_vinculos k self df_cid_filtrado = Returns rows ->
  (forall r, In r rows ->
     N_de_Pessoas_Vinculadas r
     = Z.of_nat (length (List.filter (da_equipe r) df_cid_filtrado))
     /\ 1 <= N_de_Pessoas_Vinculadas r)
  /\ (forall c, In c df_cid_filtrado ->
        (exists r, In r rows /\ da_equipe r c = true)
        <-> EQUIPE_COMPLETA c <> None)
  /\ List.NoDup (map chave rows).
Proof.
  intros Hret. split; [|split].
  - intros r Hr. by apply (vinculo_contagem k self df_cid_filtrado rows).
  - intros c Hc. split.
    + intros (r & _ & Hr). unfold da_equipe, tem_chave in Hr.
      destruct (EQUIPE_COMPLETA c); [done|]. by rewrite andb_false_r in Hr.
    + intros Hkey. destruct (EQUIPE_COMPLETA c) as [equipe|] eqn:He; [|done].
      destruct (valor compare_pair (UNIDADE_DE_SAUDE c, equipe)
                  (contar_vinculos df_cid_filtrado)) as [n|] eqn:Hv.
      * apply (valor_In compare_pair compare_pair_Eq) in Hv.
        exists (classificar self ((UNIDADE_DE_SAUDE c, equipe), n)). split.
        -- apply (In_calcular_vinculos k self df_cid_filtrado rows); [done|].
           by eexists.
        -- unfold da_equipe, tem_chave. cbn. by rewrite He, !String.eqb_refl.
      * exfalso. rewrite valor_contar_vinculos in Hv. cbn [fst snd] in Hv.
        assert (Hin : In c (List.filter (tem_chave (UNIDADE_DE_SAUDE c) equipe)
                              df_cid_filtrado)).
        { apply List.filter_In. split; [done|].
          unfold tem_chave. by rewrite He, !String.eqb_refl. }
        by destruct (List.filter _ df_cid_filtrado).
  - apply calcular_vinculos_returns in Hret as [_ ->].
    eapply Permutation_NoDup.
    { apply Permutation_map, Permutation_sym, sort_values_desc_perm. }
    rewrite chave_vinculos.
    apply (groupby_NoDup compare_pair Z.add compare_pair_Eq compare_pair_antisym
             compare_pair_trans).
Qed.

(** Two citizens of team 1, one of team 2 and one whose team name is a
    number. *)
Definition quatro_cidadaos : list CitizenRecord :=
  [ana; bia; sem_equipe "EVA"; cidadao_de "EQUIPE 1" "0001" "CAIO"].

Lemma calcular_vinculos_por_equipe_witness :
  exists rows,
    _calcular_vinculos stable_kind painel_patu quatro_cidadaos = Returns rows
    /\ map (fun r => (Equipe_Original r, N_de_Pessoas_Vinculadas r)) rows
       = [("EQUIPE 1 - 0001", 2); ("EQUIPE 2 - 0002", 1)]
    /\ List.NoDup (map chave rows).
Proof.
  eexists. split; [vm_compute; reflexivity|]. split; [reflexivity|].
  eapply (calcular_vinculos_por_equipe stable_kind painel_patu quatro_cidadaos).
  vm_compute. reflexivity.
Defined.

(** The sum of the enrolled counts over a column of rows. *)
Definition soma_vinculadas (rows : list VinculoRow) : Z :=
  foldr Z.add 0 (map N_de_Pessoas_Vinculadas rows).

Lemma soma_vinculadas_perm (a b : list VinculoRow) :
  Permutation a b -> soma_vinculadas a = soma_vinculadas b.
Proof.
  unfold soma_vinculadas. induction 1; cbn [map foldr]; lia.
Qed.

Lemma soma_vinculadas_classificados (self : DashboardAPS) (df : list CitizenRecord) :
  soma_vinculadas (vinculos_classificados self df)
  = Z.of_nat (length (List.filter com_equipe df)).
Proof.
  unfold soma_vinculadas, vinculos_classificados. rewrite map_map.
  change (map (fun x => N_de_Pessoas_Vinculadas (classificar self x)) (contar_vinculos df))
    with (map snd (contar_vinculos df)).
  change (foldr Z.add 0 (map snd (contar_vinculos df))) with (total (contar_vinculos df)).
  unfold contar_vinculos. fold (chaves df).
  rewrite total_groupby, total_ones, length_chaves; [reflexivity|].
  apply chaves_ones.
Qed.

Lemma soma_calcular_vinculos (k : sort_kind) (self : DashboardAPS)
    (df : list CitizenRecord) (rows : list VinculoRow) :
  _calcular_vinculos k self df = Returns rows ->
  soma_vinculadas rows = Z.of_nat (length (List.filter com_equipe df)).
Proof.
  intros [_ ->]%calcular_vinculos_returns.
  rewrite (soma_vinculadas_perm _ _ (sort_values_desc_perm k _ _)).
  apply soma_vinculadas_classificados.
Qed.

Lemma filter_length_all {A : Type} (f : A -> bool) (l : list A) :
  length (List.filter f l) = length l <-> forall x, In x l -> f x = true.
Proof.
  induction l as [|x l IH]; cbn [List.filter length].
  - split; [by intros _ x []|done].
  - pose proof (List.filter_length_le f l) as Hle.
    destruct (f x) eqn:Hx; cbn [length].
    + split.
      * intros [= Hl]. intros y [<-|Hy]; [done|]. by apply IH.
      * intros H. f_equal. apply IH. intros y Hy. apply H. by right.
    + split; [lia|]. intros H. specialize (H x (or_introl eq_refl)). congruence.
Qed.

(** Whenever the classifier returns its table, the enrolled counts add up
    to the number of citizen rows that have a team key: none of these is
    lost or counted twice, and the rows whose key is missing are counted
    nowhere.  The counts add up to the number of all citizen rows exactly
    when every row has a team key. *)
Theorem calcular_vinculos_conserva (k : sort_kind) (self : DashboardAPS)
    (df_cid_filtrado : list CitizenRecord) (rows : list VinculoRow) :
  _calcular_vinculos k self df_cid_filtrado = Returns rows ->
  soma_vinculadas rows = Z.of_nat (length (List.filter com_equipe df_cid_filtrado))
  /\ (soma_vinculadas rows = Z.of_nat (length df_cid_filtrado)
      <-> forall c, In c df_cid_filtrado -> EQUIPE_COMPLETA c <> None).
Proof.
  intros Hret. rewrite (soma_calcular_vinculos k self df_cid_filtrado rows Hret).
  split; [reflexivity|].
  rewrite Nat2Z.inj_iff, filter_length_all. unfold com_equipe.
  split; intros H c Hc; specialize (H c Hc); by destruct (EQUIPE_COMPLETA c).
Qed.

Lemma calcular_vinculos_conserva_witness :
  exists rows,
    _calcular_vinculos stable_kind painel_patu quatro_cidadaos = Returns rows
    /\ soma_vinculadas rows = 3.
Proof.
  eexists. split; [vm_compute; reflexivity|].
  eapply (calcular_vinculos_conserva stable_kind painel_patu quatro_cidadaos).
  vm_compute. reflexivity.
Defined.

(* ================================================================== *)
(** * The facility filter and the period filter *)
(* ================================================================== *)

Module PrepararFacts.



Lemma foldr_min_le (ts : Z) (rest : list Z) (x : Z) :
  In x (ts :: rest) -> foldr Z.min ts rest <= x.
Proof.
  induction rest as [|y rest IH]; cbn [foldr In].
  - intros [->|[]]. lia.
  - intros [->|[->|Hin]].
    + assert (foldr Z.min x rest <= x) by (apply IH; by left). lia.
    + lia.
    + assert (foldr Z.min ts rest <= x) by (apply IH; by right). lia.
Qed.

Lemma foldr_max_ge (ts : Z) (rest : list Z) (x : Z) :
  In x (ts :: rest) -> x <= foldr Z.max ts rest.
Proof.
  induction rest as [|y rest IH]; cbn [foldr In].
  - intros [->|[]]. lia.
  - intros [->|[->|Hin]].
    + assert (x <= foldr Z.max x rest) by (apply IH; by left). lia.
    + lia.
    + assert (x <= foldr Z.max ts rest) by (apply IH; by right). lia.
Qed.

Lemma date_of_mono (a b : Timestamp) : a <= b -> date_of a <= date_of b.
Proof. intros Hab. unfold date_of. apply Z.div_le_mono; lia. Qed.

End PrepararFacts.

Import PrepararFacts.


(** The frames of a session in which two citizens of facility "UBS A" were
    uploaded and that facility is selected. *)
Definition sessao_ubs_a : Frames unit :=
  {| df_cid_bruto := Some [ana; bia]; df_cid_filtrado := None;
     df_dom_bruto := None; df_dom_filtrado := None;
     df_prod_bruto := None; df_prod_filtrado := None; df_vinculos := None;
     unidade_selecionada := "UBS A"; periodo_selecionado := None;
     grupo_principal := COL_UNIDADE |}.


(** The same session when the team names of the sheet are numbers: no
    citizen has a team key and preparation raises. *)
Example preparar_sem_chaves :
  _preparar_dados_para_analise (fun _ : unit => None) stable_kind painel_patu
    {| df_cid_bruto := Some [sem_equipe "ANA"; sem_equipe "BIA"];
       df_cid_filtrado := None;
       df_dom_bruto := None; df_dom_filtrado := None;
       df_prod_bruto := None; df_prod_filtrado := None; df_vinculos := None;
       unidade_selecionada := "Todas"; periodo_selecionado := None;
       grupo_principal := COL_UNIDADE |}
  = Raises "ValueError".
Proof. reflexivity. Qed.

(** The period that the date input proposes (the days of the earliest and
    of the latest time stamp) spans at least one day and, used as the
    filter, drops the rows without a date and no other row, whatever the
    time of day of the latest one; when no row has a date no period is
    proposed. *)
Theorem periodo_padrao_keeps_dated {Prod : Type} (DATA : Prod -> option Timestamp)
    (df_prod_bruto : list Prod) :
  match periodo_padrao DATA df_prod_bruto with
  | Some (inicio, fim) =>
      inicio <= fim
      /\ filtrar_periodo DATA (Some [inicio; fim]) df_prod_bruto
         = dropna_DATA DATA df_prod_bruto
  | None => dropna_DATA DATA df_prod_bruto = []
  end.
Proof.
  unfold periodo_padrao.
  destruct (omap DATA df_prod_bruto) as [|ts rest] eqn:Hts.
  - unfold dropna_DATA. induction df_prod_bruto as [|r df IH]; [reflexivity|].
    cbn [omap list_omap] in Hts. cbn [List.filter].
    destruct (DATA r); [discriminate|]. by apply IH.
  - assert (Hin : forall r t, In r df_prod_bruto -> DATA r = Some t -> In t (ts :: rest)).
    { intros r t Hr Ht. rewrite <- Hts. apply list_elem_of_In.
      apply list_elem_of_omap. exists r. split; [by apply list_elem_of_In|done]. }
    split.
    + apply date_of_mono.
      assert (foldr Z.min ts rest <= ts) by (apply foldr_min_le; by left).
      assert (ts <= foldr Z.max ts rest) by (apply foldr_max_ge; by left).
      lia.
    + unfold filtrar_periodo, dropna_DATA. apply filter_ext_in.
      intros r Hr. destruct (DATA r) as [t|] eqn:Ht; [|reflexivity].
      specialize (Hin r t Hr Ht).
      apply andb_true_iff. split; apply Z.leb_le, date_of_mono.
      * by apply foldr_min_le.
      * by apply foldr_max_ge.
Qed.

(** Three rows: 1 January 1970 at 23:59:59, no date, 3 January 1970 at
    noon.  The proposed period is 1 to 3 January and keeps the two dated
    rows. *)
Example periodo_padrao_tres_linhas :
  periodo_padrao (fun r : option Z => r)
    [Some 86399000000000; None; Some 216000000000000] = Some (0, 2)
  /\ filtrar_periodo (fun r : option Z => r) (Some [0; 2])
       [Some 86399000000000; None; Some 216000000000000]
     = [Some 86399000000000; Some 216000000000000]
  /\ filtrar_periodo (fun r : option Z => r) (Some [0])
       [Some 86399000000000; None; Some 216000000000000]
     = [Some 86399000000000; None; Some 216000000000000].
Proof. vm_compute. done. Qed.

(** Whenever preparation returns, every report that the menu offers names
    a page of the view map other than the menu itself, and that page finds
    its frame: none of the offered pages returns at its test for a frame
    that is [None]. *)
Theorem menu_pages_have_frames {Prod : Type} (DATA : Prod -> option Timestamp)
    (k : sort_kind) (self : DashboardAPS) (d d' : Frames Prod) (label view : string) :
  _preparar_dados_para_analise DATA k self d = Returns d' ->
  In (label, view) (reports d') ->
  exists p,
    render_dashboard_content view = Some p
    /\ p <> menu_page
    /\ sem_frame p d' = false.
Proof.
  unfold _preparar_dados_para_analise.
  destruct (match df_cid_bruto d with
            | Some _ => _
            | None => _
            end) as [vinculos|e] eqn:Hv; [|done].
  intros [= <-]. unfold reports. cbn.
  intros Hin. apply in_app_or in Hin as [Hin|Hin]; [|apply in_app_or in Hin as [Hin|Hin]].
  - destruct (df_cid_bruto d) as [bruto|] eqn:Hb; [|done].
    destruct (_calcular_vinculos k self _) as [rows|e]; [|done].
    injection Hv as <-.
    cbn [In] in Hin.
    destruct Hin as [[= <- <-]|[[= <- <-]|[[= <- <-]|[[= <- <-]|[]]]]];
      eexists; (split; [reflexivity|]); (split; [discriminate|]); reflexivity.
  - destruct (df_dom_bruto d) as [bruto|] eqn:Hb; [|done].
    cbn [In] in Hin.
    destruct Hin as [[= <- <-]|[[= <- <-]|[]]];
      eexists; (split; [reflexivity|]); (split; [discriminate|]); reflexivity.
  - destruct (df_prod_bruto d) as [bruto|] eqn:Hb; [|done].
    cbn [In] in Hin.
    destruct Hin as [[= <- <-]|[[= <- <-]|[[= <- <-]|[]]]];
      eexists; (split; [reflexivity|]); (split; [discriminate|]); reflexivity.
Qed.

(** The session of "UBS A" after preparation. *)
Definition sessao_ubs_a_preparada : Frames unit :=
  {| df_cid_bruto := Some [ana; bia]; df_cid_filtrado := Some [ana; bia];
     df_dom_bruto := None; df_dom_filtrado := None;
     df_prod_bruto := None; df_prod_filtrado := None;
     df_vinculos :=
       match _calcular_vinculos stable_kind painel_patu [ana; bia] with
       | Returns rows => Some rows
       | Raises _ => None
       end;
     unidade_selecionada := "UBS A"; periodo_selecionado := None;
     grupo_principal := "Equipe" |}.

Lemma preparar_sessao_ubs_a :
  _preparar_dados_para_analise (fun _ : unit => None) stable_kind painel_patu
    sessao_ubs_a
  = Returns sessao_ubs_a_preparada.
Proof. vm_compute. reflexivity. Qed.

Lemma menu_pages_have_frames_witness :
  _preparar_dados_para_analise (fun _ : unit => None) stable_kind painel_patu
    sessao_ubs_a
  = Returns sessao_ubs_a_preparada
  /\ exists p,
       render_dashboard_content "vinculo" = Some p
       /\ p <> menu_page
       /\ sem_frame p sessao_ubs_a_preparada = false.
Proof.
  split; [exact preparar_sessao_ubs_a|].
  apply (menu_pages_have_frames (fun _ : unit => None) stable_kind painel_patu
           sessao_ubs_a sessao_ubs_a_preparada "📈 Vínculo" "vinculo").
  - exact preparar_sessao_ubs_a.
  - vm_compute. tauto.
Defined.

(* ================================================================== *)
(** * The rankings hold the largest sums *)
(* ================================================================== *)

Module TopFacts.

Lemma filter_length_perm {A : Type} (f : A -> bool) (a b : list A) :
  Permutation a b -> length (List.filter f a) = length (List.filter f b).
Proof.
  induction 1 as [|x a b _ IH|x y a|a b c _ IH1 _ IH2]; cbn [List.filter].
  - reflexivity.
  - destruct (f x); cbn [length]; lia.
  - destruct (f x), (f y); reflexivity.
  - lia.
Qed.

Lemma filter_split_perm {A : Type} (f : A -> bool) (l : list A) :
  Permutation l (List.filter f l ++ List.filter (fun x => negb (f x)) l).
Proof.
  induction l as [|x l IH]; [constructor|].
  cbn [List.filter]. destruct (f x); cbn [negb app].
  - by constructor.
  - by apply Permutation_cons_app.
Qed.

Lemma filter_all {A : Type} (f : A -> bool) (l : list A) :
  (forall x, In x l -> f x = true) -> List.filter f l = l.
Proof.
  induction l as [|x l IH]; intros H; [reflexivity|].
  cbn [List.filter]. rewrite (H x) by (by left).
  f_equal. apply IH. intros y Hy. apply H. by right.
Qed.

Lemma filter_map_length {A : Type} (key : A -> Z) (f : Z -> bool) (l : list A) :
  length (List.filter (fun r => f (key r)) l) = length (List.filter f (map key l)).
Proof.
  induction l as [|x l IH]; [reflexivity|].
  cbn [map List.filter]. destruct (f (key x)); cbn [length]; lia.
Qed.

(** In a descending list the first [n] entries are not below the n-th. *)
Lemma sorted_firstn_ge (l : list Z) (n : nat) (x : Z) :
  StronglySorted (desc_by (fun v => v)) l -> (n < length l)%nat ->
  In x (firstn (S n) l) -> nth n l 0 <= x.
Proof.
  revert n. induction l as [|a l IH]; intros n Hs Hn; [cbn in Hn; lia|].
  apply StronglySorted_inv in Hs as [Hs Hall]. cbn [length] in Hn.
  destruct n as [|n].
  - cbn. intros [->|[]]. lia.
  - cbn [firstn nth In]. intros [->|Hin].
    + assert (Hnth : In (nth n l 0) l) by (apply nth_In; lia).
      apply (proj1 (Forall_forall _ _) Hall) in Hnth. exact Hnth.
    + apply IH; [done|lia|done].
Qed.

Lemma sorted_app_le {A : Type} (key : A -> Z) (a b : list A) (x y : A) :
  StronglySorted (desc_by key) (a ++ b) -> In y a -> In x b -> key x <= key y.
Proof.
  induction a as [|z a IH]; [done|]. cbn [app].
  intros [Hs Hall]%StronglySorted_inv [->|Hy] Hx.
  - apply (proj1 (Forall_forall _ _) Hall). apply in_or_app. by right.
  - by apply IH.
Qed.

Section NLargest.
Context {A : Type} (k : sort_kind) (key : A -> Z).

(** At least [n] entries reach the n-th largest value. *)
Lemma kth_largest_reached (n : nat) (s : list A) :
  (n < length s)%nat ->
  (S n <= length (List.filter (fun r => (kth_largest (S n) (map key s) <=? key r)%Z) s))%nat.
Proof.
  intros Hn. unfold kth_largest. cbn [Nat.pred].
  set (L := stable_sort_desc (fun v => v) (map key s)).
  assert (Hperm : Permutation L (map key s)) by apply isort_desc_perm.
  assert (Hlen : length L = length s).
  { by rewrite (Permutation_length Hperm), length_map. }
  assert (Hs : StronglySorted (desc_by (fun v => v)) L) by apply isort_desc_sorted.
  rewrite (filter_map_length key (fun v => nth n L 0 <=? v)).
  rewrite <- (filter_length_perm _ _ _ Hperm).
  clearbody L. set (kth := nth n L 0).
  assert (Hk : forall x, In x (firstn (S n) L) -> kth <= x).
  { intros x Hx. apply sorted_firstn_ge; [done|lia|done]. }
  clearbody kth. rewrite <- (firstn_skipn (S n) L) at 1.
  rewrite filter_app, length_app, filter_all.
  - rewrite length_firstn. lia.
  - intros x Hx. apply Z.leb_le. by apply Hk.
Qed.

(** [nlargest(n)] returns [n] entries, or all of them when there are
    fewer. *)
Lemma nlargest_length (n : nat) (s : list A) :
  length (nlargest k n key s) = Nat.min n (length s).
Proof.
  unfold nlargest. destruct n as [|n]; [reflexivity|].
  destruct (Nat.leb_spec (length s) (S n)) as [Hle|Hlt].
  - by rewrite length_firstn, (Permutation_length (sort_values_desc_perm k key s)).
  - assert (Hk := kth_largest_reached n s). unfold stable_sort_desc.
    rewrite length_firstn, (Permutation_length (isort_desc_perm key false _)). lia.
Qed.

(** The entries left out are not above any entry returned. *)
Lemma nlargest_dominates (n : nat) (s : list A) :
  exists rest,
    Permutation s (nlargest k n key s ++ rest)
    /\ forall x y, In x rest -> In y (nlargest k n key s) -> key x <= key y.
Proof.
  unfold nlargest. destruct n as [|n]; [by exists s|].
  destruct (Nat.leb_spec (length s) (S n)) as [Hle|Hlt].
  - exists []. rewrite app_nil_r, firstn_all2.
    + split; [symmetry; apply sort_values_desc_perm|done].
    + by rewrite (Permutation_length (sort_values_desc_perm k key s)).
  - set (kth := kth_largest (S n) (map key s)).
    set (F := List.filter (fun r => kth <=? key r) s).
    exists (skipn (S n) (stable_sort_desc key F)
            ++ List.filter (fun r => negb (kth <=? key r)) s).
    split.
    + rewrite app_assoc, firstn_skipn.
      etrans; [apply (filter_split_perm (fun r => kth <=? key r))|].
      apply Permutation_app_tail. symmetry. apply isort_desc_perm.
    + intros x y Hx Hy. apply in_app_or in Hx as [Hx|Hx].
      * apply (sorted_app_le key (firstn (S n) (stable_sort_desc key F))
                 (skipn (S n) (stable_sort_desc key F))); [|done..].
        rewrite firstn_skipn. apply isort_desc_sorted.
      * apply List.filter_In in Hx as [_ Hx]. apply negb_true_iff, Z.leb_gt in Hx.
        apply In_firstn in Hy.
        apply (Permutation_in _ (isort_desc_perm key false F)) in Hy.
        apply List.filter_In in Hy as [_ Hy%Z.leb_le]. lia.
Qed.

End NLargest.

End TopFacts.

Import TopFacts.

(** [top] holds the [n] largest sums of the grouped series [grouped]: it
    has [n] rows, or as many as there are groups when these are fewer, and
    all the other groups have sums that are not above any sum listed. *)
Definition maiores (n : nat) (top grouped : list (string * Z)) : Prop :=
  length top = Nat.min n (length grouped)
  /\ exists rest,
       Permutation grouped (top ++ rest)
       /\ forall x y, In x rest -> In y top -> x.2 <= y.2.

(** Both top-5 tables hold five groups, or all the groups when there are
    fewer than five, and no group left out of a table has a larger sum than
    a group listed in it. *)
Theorem top_5_maiores (k : sort_kind) (df_filt : list ProductivityRecord) :
  maiores 5 (top_5_profissionais k df_filt)
    (somar_por PROFISSIONAL (fillna_profissional df_filt))
  /\ maiores 5 (top_5_equipes k df_filt) (somar_por EQUIPE df_filt).
Proof.
  split; (split; [apply nlargest_length|apply nlargest_dominates]).
Qed.

(** The rows of a key. *)
Definition linhas_de (col : ProductivityRecord -> option string) (nome : string)
    (df : list ProductivityRecord) : list ProductivityRecord :=
  List.filter (fun r => match col r with
                        | Some x => String.eqb x nome
                        | None => false
                        end) df.

(** The totals of the rows, a missing total read as nothing; their sum as
    integers, and the sum of their magnitudes. *)
Definition totais (df : list ProductivityRecord) : list Z :=
  map (fun r => default 0 (TOTAL_GERAL r)) df.

Definition soma_dos_totais (df : list ProductivityRecord) : Z :=
  foldr Z.add 0 (totais df).

Definition soma_das_magnitudes (df : list ProductivityRecord) : Z :=
  foldr Z.add 0 (map Z.abs (totais df)).

Lemma string_compare_Eq (a b : string) : String.compare a b = Eq <-> a = b.
Proof.
  split; [apply String.compare_eq_iff|]. intros ->. apply string_compare_refl.
Qed.

Module SumFacts.

Lemma wrap64_small (z : Z) : - 2 ^ 63 <= z < 2 ^ 63 -> wrap64 z = z.
Proof. intros H. unfold wrap64. rewrite Z.mod_small; lia. Qed.

Lemma add64_small (a b : Z) : Z.abs a + Z.abs b < 2 ^ 63 -> add64 a b = a + b.
Proof. intros H. unfold add64. apply wrap64_small. lia. Qed.

Section Bounded.
Context {K : Type} (cmp : K -> K -> comparison).

Definition magnitudes (rows : list (K * Z)) : Z :=
  foldr Z.add 0 (map (fun kv => Z.abs kv.2) rows).

Lemma magnitudes_nonneg (rows : list (K * Z)) : 0 <= magnitudes rows.
Proof.
  unfold magnitudes. induction rows as [|kv rows IH]; cbn [map foldr]; lia.
Qed.

(** While the magnitudes added stay below 2^63 no sum of a group wraps. *)
Lemma group_insert_add64 (k : K) (v B : Z) (g : list (K * Z)) :
  0 <= B -> Forall (fun kv => Z.abs kv.2 <= B) g -> B + Z.abs v < 2 ^ 63 ->
  group_insert cmp add64 k v g = group_insert cmp Z.add k v g
  /\ Forall (fun kv => Z.abs kv.2 <= B + Z.abs v) (group_insert cmp Z.add k v g).
Proof.
  intros HB Hg Hb. induction Hg as [|[k' v'] g Hv Hg IH]; cbn [group_insert].
  - split; [reflexivity|]. constructor; [cbn [snd]; lia|constructor].
  - cbn [snd] in Hv. destruct IH as [IHeq IHall].
    assert (Hweak : Forall (fun kv : K * Z => Z.abs kv.2 <= B + Z.abs v) g).
    { eapply list.Forall_impl; [exact Hg|]. cbn beta. intros kv Hkv. lia. }
    destruct (cmp k k').
    + split; [by rewrite add64_small by lia|].
      constructor; [cbn [snd]; lia|exact Hweak].
    + split; [reflexivity|].
      constructor; [cbn [snd]; lia|]. constructor; [cbn [snd]; lia|exact Hweak].
    + split; [by rewrite IHeq|]. constructor; [cbn [snd]; lia|exact IHall].
Qed.

Lemma groupby_add64 (rows : list (K * Z)) :
  magnitudes rows < 2 ^ 63 -> groupby cmp add64 rows = groupby cmp Z.add rows.
Proof.
  unfold groupby.
  assert (Hgen : forall g B,
            0 <= B ->
            Forall (fun kv => Z.abs kv.2 <= B) g -> B + magnitudes rows < 2 ^ 63 ->
            foldl (fun g kv => group_insert cmp add64 kv.1 kv.2 g) g rows
            = foldl (fun g kv => group_insert cmp Z.add kv.1 kv.2 g) g rows).
  { induction rows as [|[k v] rows IH]; intros g B HB Hg Hb; cbn [foldl]; [reflexivity|].
    unfold magnitudes in Hb. cbn [map foldr snd] in Hb. fold (magnitudes rows) in Hb.
    assert (Hpos := magnitudes_nonneg rows).
    destruct (group_insert_add64 k v B g HB Hg) as [Heq Hall]; [lia|].
    cbn [fst snd]. rewrite Heq. apply (IH _ (B + Z.abs v)); [lia|exact Hall|lia]. }
  intros Hb. apply (Hgen [] 0); [lia|constructor|lia].
Qed.

End Bounded.

Lemma foldr_add64 (l : list Z) :
  foldr Z.add 0 (map Z.abs l) < 2 ^ 63 -> foldr add64 0 l = foldr Z.add 0 l.
Proof.
  assert (Hgen : foldr Z.add 0 (map Z.abs l) < 2 ^ 63 ->
                 foldr add64 0 l = foldr Z.add 0 l
                 /\ Z.abs (foldr Z.add 0 l) <= foldr Z.add 0 (map Z.abs l)).
  { induction l as [|x l IH]; cbn [map foldr]; intros Hb; [split; [reflexivity|lia]|].
    assert (Hpos : 0 <= foldr Z.add 0 (map Z.abs l)).
    { clear. induction l as [|y l IH]; cbn [map foldr]; lia. }
    destruct IH as [IHeq IHabs]; [lia|]. rewrite IHeq.
    split; [apply add64_small|]; lia. }
  intros Hb. by apply Hgen.
Qed.

(** The rows of a frame that enter the sums by the column [col]. *)
Definition parcelas (col : ProductivityRecord -> option string)
    (df : list ProductivityRecord) : list (string * Z) :=
  omap (fun r => match col r with
                 | Some key => Some (key, default 0 (TOTAL_GERAL r))
                 | None => None
                 end) df.

Lemma magnitudes_parcelas (col : ProductivityRecord -> option string)
    (df : list ProductivityRecord) :
  magnitudes (parcelas col df) <= soma_das_magnitudes df.
Proof.
  unfold magnitudes, soma_das_magnitudes, totais, parcelas.
  induction df as [|r df IH]; [reflexivity|].
  cbn [omap list_omap map foldr]. destruct (col r); cbn [map foldr snd]; lia.
Qed.

Lemma magnitudes_linhas_de (col : ProductivityRecord -> option string) (nome : string)
    (df : list ProductivityRecord) :
  soma_das_magnitudes (linhas_de col nome df) <= soma_das_magnitudes df.
Proof.
  unfold soma_das_magnitudes, totais, linhas_de.
  induction df as [|r df IH]; [reflexivity|].
  cbn [List.filter map foldr].
  destruct (match col r with Some x => String.eqb x nome | None => false end);
    cbn [map foldr]; lia.
Qed.

Lemma magnitude_soma (df : list ProductivityRecord) :
  Z.abs (soma_dos_totais df) <= soma_das_magnitudes df.
Proof.
  unfold soma_dos_totais, soma_das_magnitudes.
  induction (totais df) as [|x l IH]; cbn [map foldr]; lia.
Qed.

Lemma total_atendimentos_exact (df : list ProductivityRecord) :
  soma_das_magnitudes df < 2 ^ 63 -> total_atendimentos df = soma_dos_totais df.
Proof. apply foldr_add64. Qed.

Lemma somar_por_exact (col : ProductivityRecord -> option string)
    (df : list ProductivityRecord) :
  soma_das_magnitudes df < 2 ^ 63 ->
  somar_por col df = groupby String.compare Z.add (parcelas col df).
Proof.
  intros Hb. apply groupby_add64. pose proof (magnitudes_parcelas col df). lia.
Qed.

Lemma filter_parcelas (col : ProductivityRecord -> option string) (nome : string)
    (df : list ProductivityRecord) :
  List.filter (mesma_chave String.compare nome) (parcelas col df)
  = map (fun r => (nome, default 0 (TOTAL_GERAL r))) (linhas_de col nome df).
Proof.
  unfold linhas_de, parcelas. induction df as [|r df IH]; [reflexivity|].
  cbn [omap list_omap List.filter].
  destruct (col r) as [x|]; cbn [List.filter]; [|exact IH].
  unfold mesma_chave at 1. cbn [fst].
  destruct (String.compare x nome) eqn:Hc.
  - apply String.compare_eq_iff in Hc as ->. rewrite String.eqb_refl.
    cbn [map]. by rewrite IH.
  - destruct (String.eqb_spec x nome) as [->|_]; [|exact IH].
    by rewrite string_compare_refl in Hc.
  - destruct (String.eqb_spec x nome) as [->|_]; [|exact IH].
    by rewrite string_compare_refl in Hc.
Qed.

Lemma valor_somar_por (col : ProductivityRecord -> option string) (nome : string)
    (df : list ProductivityRecord) :
  soma_das_magnitudes df < 2 ^ 63 ->
  valor String.compare nome (somar_por col df)
  = match linhas_de col nome df with
    | [] => None
    | l => Some (soma_dos_totais l)
    end.
Proof.
  intros Hb. rewrite somar_por_exact by done.
  rewrite (valor_groupby String.compare Z.add string_compare_Eq
             String.compare_antisym string_compare_trans).
  rewrite foldl_acumular_add, filter_parcelas.
  destruct (linhas_de col nome df) as [|r l]; [reflexivity|].
  cbn [map]. f_equal. unfold total, soma_dos_totais, totais.
  cbn [map foldr snd]. f_equal. f_equal. rewrite map_map. reflexivity.
Qed.

Lemma somar_por_nil (col : ProductivityRecord -> option string)
    (df : list ProductivityRecord) :
  somar_por col df = [] <-> forall r, In r df -> col r = None.
Proof.
  unfold somar_por. fold (parcelas col df). rewrite groupby_nil.
  unfold parcelas. induction df as [|r df IH]; cbn [omap list_omap].
  - split; [by intros _ r []|done].
  - destruct (col r) as [x|] eqn:Hx.
    + split; [done|]. intros H. specialize (H r (or_introl eq_refl)). congruence.
    + rewrite IH. split.
      * intros H r' [<-|Hr']; [done|by apply H].
      * intros H r' Hr'. apply H. by right.
Qed.

End SumFacts.

Import SumFacts.

(** The sums by professional of the production tab.  As long as the
    magnitudes of the totals of the frame add up to less than 2^53, so that
    neither the 64-bit integers wrap nor the floats round: the frame's
    total is the sum of its totals as integers, a missing total adding
    nothing; every group of the sums by professional holds the sum of the
    totals of the rows that carry its name, its magnitude within the bound;
    exactly the names that some row carries have a group, rows without a
    name belonging to none; and after the missing professionals are named
    'Não Informado' the sums by professional add up to the total of the
    whole frame. *)
Theorem somar_por_spec (df_filt : list ProductivityRecord) :
  soma_das_magnitudes df_filt < 2 ^ 53 ->
  total_atendimentos df_filt = soma_dos_totais df_filt
  /\ (forall nome v,
        In (nome, v) (somar_por PROFISSIONAL df_filt) <->
        linhas_de PROFISSIONAL nome df_filt <> []
        /\ v = soma_dos_totais (linhas_de PROFISSIONAL nome df_filt))
  /\ (forall nome v, In (nome, v) (somar_por PROFISSIONAL df_filt) ->
        v = total_atendimentos (linhas_de PROFISSIONAL nome df_filt)
        /\ Z.abs v < 2 ^ 53)
  /\ List.NoDup (map fst (somar_por PROFISSIONAL df_filt))
  /\ total (somar_por PROFISSIONAL (fillna_profissional df_filt))
     = total_atendimentos df_filt.
Proof.
  intros Hb53. assert (Hb : soma_das_magnitudes df_filt < 2 ^ 63) by lia.
  assert (Hgroup : forall nome v,
            In (nome, v) (somar_por PROFISSIONAL df_filt) <->
            linhas_de PROFISSIONAL nome df_filt <> []
            /\ v = soma_dos_totais (linhas_de PROFISSIONAL nome df_filt)).
  { intros nome v. split.
    - intros Hin.
      apply (In_valor String.compare string_compare_Eq) in Hin;
        [|apply somar_por_sorted].
      rewrite valor_somar_por in Hin by done.
      destruct (linhas_de PROFISSIONAL nome df_filt) as [|r l]; [done|].
      injection Hin as <-. done.
    - intros [Hne ->].
      apply (valor_In String.compare string_compare_Eq).
      rewrite valor_somar_por by done.
      by destruct (linhas_de PROFISSIONAL nome df_filt). }
  split; [by apply total_atendimentos_exact|]. split; [exact Hgroup|].
  split; [|split].
  - intros nome v [_ ->]%Hgroup.
    pose proof (magnitudes_linhas_de PROFISSIONAL nome df_filt) as Hl.
    pose proof (magnitude_soma (linhas_de PROFISSIONAL nome df_filt)) as Hs.
    split; [|lia]. symmetry. apply total_atendimentos_exact. lia.
  - rewrite somar_por_exact by done.
    apply (groupby_NoDup String.compare Z.add string_compare_Eq
             String.compare_antisym string_compare_trans).
  - assert (Hfill : soma_das_magnitudes (fillna_profissional df_filt)
                    = soma_das_magnitudes df_filt).
    { unfold soma_das_magnitudes, totais, fillna_profissional.
      by rewrite !map_map. }
    rewrite somar_por_exact by (rewrite Hfill; lia).
    rewrite total_groupby, total_atendimentos_exact by done.
    unfold total, soma_dos_totais, totais, parcelas.
    clear. induction df_filt as [|r df IH]; [reflexivity|].
    cbn [fillna_profissional map omap list_omap PROFISSIONAL TOTAL_GERAL foldr snd].
    f_equal. exact IH.
Qed.

(** Ana attends 3 and 4, Bia 2, and a row of 5 names nobody. *)
Definition df_producao_ana : list ProductivityRecord :=
  [producao "ANA" 3;
   {| EQUIPE := Some "EQUIPE 1"; PROFISSIONAL := None; TOTAL_GERAL := Some 5 |};
   producao "ANA" 4;
   producao "BIA" 2].

Lemma somar_por_spec_witness :
  soma_das_magnitudes df_producao_ana = 14
  /\ total_atendimentos df_producao_ana = 14
  /\ somar_por PROFISSIONAL df_producao_ana = [("ANA", 7); ("BIA", 2)]
  /\ total (somar_por PROFISSIONAL (fillna_profissional df_producao_ana))
     = total_atendimentos df_producao_ana.
Proof.
  split; [reflexivity|]. split; [reflexivity|]. split; [reflexivity|].
  apply (somar_por_spec df_producao_ana). vm_compute. reflexivity.
Defined.

(** A missing total adds nothing to the sum of its professional. *)
Example somar_por_sem_total :
  somar_por PROFISSIONAL
    [producao "ANA" 3;
     {| EQUIPE := Some "EQUIPE 1"; PROFISSIONAL := Some "ANA"; TOTAL_GERAL := None |};
     {| EQUIPE := Some "EQUIPE 1"; PROFISSIONAL := Some "BIA"; TOTAL_GERAL := None |}]
  = [("ANA", 3); ("BIA", 0)].
Proof. vm_compute. reflexivity. Qed.

(** Beyond the bound the sums are not those of the integers: two totals of
    2^62 each add up to -2^63. *)
Example total_atendimentos_wraps :
  total_atendimentos [producao "ANA" (2 ^ 62); producao "ANA" (2 ^ 62)] = - 2 ^ 63
  /\ somar_por PROFISSIONAL [producao "ANA" (2 ^ 62); producao "ANA" (2 ^ 62)]
     = [("ANA", - 2 ^ 63)].
Proof. vm_compute. done. Qed.

(** The highlighted professional of the KPI row: the series is empty
    exactly when no row names a professional; otherwise it is one group of
    the sums by professional, and no professional has a larger sum. *)
Theorem top_profissional_destaque (k : sort_kind) (df_filt : list ProductivityRecord) :
  (top_profissional_series k df_filt = [] <->
   forall r, In r df_filt -> PROFISSIONAL r = None)
  /\ (forall destaque, In destaque (top_profissional_series k df_filt) ->
        top_profissional_series k df_filt = [destaque]
        /\ In destaque (somar_por PROFISSIONAL df_filt)
        /\ forall g, In g (somar_por PROFISSIONAL df_filt) -> g.2 <= destaque.2).
Proof.
  unfold top_profissional_series.
  remember (somar_por PROFISSIONAL df_filt) as grouped eqn:Hgrouped.
  assert (Hlen := nlargest_length k snd 1 grouped).
  destruct (nlargest_dominates k snd 1 grouped) as (rest & Hperm & Hdom).
  assert (Hnil := somar_por_nil PROFISSIONAL df_filt). rewrite <- Hgrouped in Hnil.
  split.
  - rewrite <- Hnil. split.
    + intros Htop. rewrite Htop in Hlen. cbn [length] in Hlen.
      destruct grouped; [done|]. cbn in Hlen. lia.
    + intros Hg. rewrite Hg in *. cbn [length Nat.min] in Hlen.
      by destruct (nlargest k 1 snd []).
  - intros destaque Hd.
    destruct (nlargest k 1 snd grouped) as [|d [|d' l]] eqn:Htop.
    + done.
    + destruct Hd as [->|[]]. split; [done|]. split.
      * apply (nlargest_incl k snd 1 grouped). rewrite Htop. by left.
      * intros g Hg. apply (Permutation_in _ Hperm) in Hg.
        cbn [app In] in Hg. destruct Hg as [->|Hg]; [lia|].
        apply Hdom; [done|by left].
    + cbn [length] in Hlen. lia.
Qed.

Example top_profissional_empate :
  top_profissional_series reversing_kind df_seis_empatados = [("A", 10)].
Proof. vm_compute. reflexivity. Qed.

(* ================================================================== *)
(** * Excess and status in the team table *)
(* ================================================================== *)

Module FloatFacts.
Import Float64Facts.

Lemma Qc_of_Z_pos (z : Z) : 0 < z -> (0 < Qc_of_Z z)%Qc.
Proof. intros Hz. exact (proj1 (Z2Qc_inj_lt 0 z) Hz). Qed.

Lemma Qc_of_Z_neg (z : Z) : z < 0 -> (Qc_of_Z z < 0)%Qc.
Proof. intros Hz. exact (proj1 (Z2Qc_inj_lt z 0) Hz). Qed.

Lemma Qc_neg_opp (x : Qc) : (x < 0)%Qc <-> (0 < - x)%Qc.
Proof.
  rewrite Qclt_minus_iff. assert (H : (0 + - x = - x)%Qc) by ring. by rewrite H.
Qed.

Lemma float_of_Z_pos (z : Z) : 0 < z -> (0 < float_of_Z z)%Qc.
Proof. intros Hz. by apply round64_positive, Qc_of_Z_pos. Qed.

Lemma float_of_Z_neg (z : Z) : z < 0 -> (float_of_Z z < 0)%Qc.
Proof. intros Hz. by apply round64_negative, Qc_of_Z_neg. Qed.

Lemma float_of_Z_0 : float_of_Z 0 = 0%Qc.
Proof. apply Qc_is_canon. reflexivity. Qed.

(** The percentage of one float in another, as the code rounds it. *)
Definition percent (a b : Z) : Qc :=
  round64 (round64 (float_of_Z a / float_of_Z b) * Qc_of_Z 100)%Qc.

(** A positive count over a positive base is a positive percentage. *)
Lemma percent_pos (a b : Z) : 0 < a -> 0 < b -> (0 < percent a b)%Qc.
Proof.
  intros Ha Hb. apply round64_positive.
  apply Qcmult_pos_pos; [|by apply Qc_of_Z_pos].
  apply round64_positive.
  apply Qcmult_pos_pos; [by apply float_of_Z_pos|].
  apply Qcinv_pos. by apply float_of_Z_pos.
Qed.

Lemma percent_zero (b : Z) : percent 0 b = 0%Qc.
Proof.
  unfold percent. rewrite float_of_Z_0.
  assert (H0 : forall t : Qc, (0 / t = 0)%Qc) by (intros t; unfold Qcdiv; ring).
  rewrite H0, round64_0.
  assert (H1 : forall t : Qc, (0 * t = 0)%Qc) by (intros t; ring).
  by rewrite H1, round64_0.
Qed.

(** A positive count over a negative base is not a positive percentage. *)
Lemma percent_neg (a b : Z) : 0 < a -> b < 0 -> ~ (0 < percent a b)%Qc.
Proof.
  intros Ha Hb. apply Qcle_not_lt, Qclt_le_weak. apply round64_negative.
  assert (Hq : (round64 (float_of_Z a / float_of_Z b) < 0)%Qc).
  { apply round64_negative, Qc_neg_opp.
    assert (Hb' := proj1 (Qc_neg_opp _) (float_of_Z_neg b Hb)).
    assert (Heq : (- (float_of_Z a / float_of_Z b) = float_of_Z a * / - float_of_Z b)%Qc).
    { assert (Hz : float_of_Z b <> 0%Qc).
      { apply Qclt_not_eq. by apply float_of_Z_neg. }
      field. split; [|exact Hz]. intros H0. apply Hz.
      rewrite <- (Qcopp_involutive (float_of_Z b)), H0. ring. }
    rewrite Heq. apply Qcmult_pos_pos; [by apply float_of_Z_pos|by apply Qcinv_pos]. }
  apply Qc_neg_opp. apply Qc_neg_opp in Hq.
  assert (Heq : forall x y : Qc, (- (x * y) = - x * y)%Qc) by (intros; ring).
  rewrite Heq. apply Qcmult_pos_pos; [done|]. by apply Qc_of_Z_pos.
Qed.

Lemma times100_truediv (a b : Z) :
  b <> 0 -> times100 (truediv a b) = Fin (percent a b).
Proof.
  intros Hb. unfold truediv. by destruct (Z.eqb_spec b 0).
Qed.

End FloatFacts.

Import FloatFacts.

Lemma status_classificado (k : sort_kind) (self : DashboardAPS)
    (df : list CitizenRecord) (rows : list VinculoRow) (r : VinculoRow) :
  _calcular_vinculos k self df = Returns rows ->
  In r rows ->
  Status r = get_status (N_de_Pessoas_Vinculadas r) (Parametro_Equipe r) (Limite_Equipe r).
Proof.
  intros Hret (g & _ & ->)%(In_calcular_vinculos k self df rows); done.
Qed.

(** In the table that the link tab builds from the classifier's rows, a
    team has a positive excess exactly when its status is "above the hard
    limit", and an excess of zero otherwise.  When the team's limit is not
    negative, the percentage above the limit reads "N/A" exactly for the
    teams that are not above the hard limit; under a negative limit every
    team is above the hard limit and yet reads "N/A". *)
Theorem excedente_e_status (k : sort_kind) (self : DashboardAPS)
    (df_cid_filtrado : list CitizenRecord) (rows : list VinculoRow)
    (r : VinculoRow) :
  _calcular_vinculos k self df_cid_filtrado = Returns rows ->
  In r rows ->
  (0 < Excedente r <-> Status r = ACIMA_DO_LIMITE_MAXIMO)
  /\ (Excedente r = 0 <-> Status r <> ACIMA_DO_LIMITE_MAXIMO)
  /\ (0 <= Limite_Equipe r ->
      (perc_Acima_do_Limite r = N_A <-> Status r <> ACIMA_DO_LIMITE_MAXIMO))
  /\ (Limite_Equipe r < 0 ->
      Status r = ACIMA_DO_LIMITE_MAXIMO /\ perc_Acima_do_Limite r = N_A).
Proof.
  intros Hret Hr.
  assert (Hst := status_classificado k self _ rows r Hret Hr).
  destruct (vinculo_contagem k self _ rows r Hret Hr) as [_ Hn].
  unfold get_status in Hst. unfold perc_Acima_do_Limite, Excedente.
  set (n := N_de_Pessoas_Vinculadas r) in *. set (l := Limite_Equipe r) in *.
  destruct (Z.ltb_spec l n) as [Hlt|Hge].
  - rewrite Hst. split; [|split; [|split]].
    + split; [done|lia].
    + split; [lia|done].
    + intros Hl.
      assert (Hm : maior_que_zero (times100 (truediv (Z.max (n - l) 0) l)) = true).
      { destruct (Z.eq_dec l 0) as [Hl0|Hl0].
        - unfold truediv. rewrite Hl0. cbn [Z.eqb].
          destruct (Z.eqb_spec (Z.max (n - 0) 0) 0); [lia|].
          by destruct (Z.ltb_spec 0 (Z.max (n - 0) 0)); [|lia].
        - rewrite times100_truediv by done. cbn [maior_que_zero].
          apply bool_decide_eq_true_2. apply percent_pos; lia. }
      rewrite Hm. split; [done|]. intros Hc. by destruct Hc.
    + intros Hl. split; [done|]. rewrite times100_truediv by lia.
      cbn [maior_que_zero]. rewrite bool_decide_eq_false_2; [done|].
      apply percent_neg; lia.
  - assert (Hne : Status r <> ACIMA_DO_LIMITE_MAXIMO).
    { rewrite Hst. by destruct (Parametro_Equipe r <? n). }
    assert (He : Z.max (n - l) 0 = 0) by lia.
    split; [|split; [|split]].
    + split; [lia|done].
    + done.
    + intros Hl. split; [done|]. intros _. rewrite He.
      destruct (Z.eq_dec l 0) as [Hl0|Hl0].
      * by rewrite Hl0.
      * rewrite times100_truediv by done. cbn [maior_que_zero].
        rewrite percent_zero. by rewrite bool_decide_eq_false_2.
    + lia.
Qed.

(** The only team of a citizen, under the parameters of ALHANDRA and
    before any municipality is installed. *)
Definition vinculo_de_ana (self : DashboardAPS) : VinculoRow :=
  classificar self (("UBS A", "EQUIPE 1 - 0001"), 1).

Lemma excedente_e_status_witness :
  _calcular_vinculos stable_kind (definir_parametros init "ALHANDRA" alhandra) [ana]
  = Returns [vinculo_de_ana (definir_parametros init "ALHANDRA" alhandra)]
  /\ (perc_Acima_do_Limite (vinculo_de_ana (definir_parametros init "ALHANDRA" alhandra))
      = N_A
      <-> Status (vinculo_de_ana (definir_parametros init "ALHANDRA" alhandra))
          <> ACIMA_DO_LIMITE_MAXIMO).
Proof.
  split; [vm_compute; reflexivity|].
  apply (excedente_e_status stable_kind
           (definir_parametros init "ALHANDRA" alhandra) [ana]
           [vinculo_de_ana (definir_parametros init "ALHANDRA" alhandra)]).
  - vm_compute. reflexivity.
  - by left.
  - vm_compute. discriminate.
Defined.

(** With the zero limit of [__init__] one citizen is already an excess, and
    the percentage is an infinity. *)
Example perc_Acima_do_Limite_sem_limite :
  Excedente (vinculo_de_ana init) = 1
  /\ Status (vinculo_de_ana init) = ACIMA_DO_LIMITE_MAXIMO
  /\ perc_Acima_do_Limite (vinculo_de_ana init) = Percentual PosInf.
Proof. vm_compute. done. Qed.

(* ================================================================== *)
(** * Status and count *)
(* ================================================================== *)

(** The severity of a status. *)
Definition gravidade (s : status) : Z :=
  match s with
  | Dentro_do_Parametro => 0
  | Acima_do_Parametro => 1
  | ACIMA_DO_LIMITE_MAXIMO => 2
  end.

Lemma get_status_mono (n n' t h : Z) :
  n <= n' -> gravidade (get_status n t h) <= gravidade (get_status n' t h).
Proof.
  intros Hn. unfold get_status.
  destruct (Z.ltb_spec h n), (Z.ltb_spec h n'), (Z.ltb_spec t n), (Z.ltb_spec t n');
    cbn [gravidade]; lia.
Qed.

Lemma StronglySorted_weaken {A : Type} (R R' : A -> A -> Prop) (l : list A) :
  (forall a b, In a l -> In b l -> R a b -> R' a b) ->
  StronglySorted R l -> StronglySorted R' l.
Proof.
  intros H Hs. induction Hs as [|a l Hs IH Hall]; constructor.
  - apply IH. intros x y Hx Hy. apply H; by right.
  - apply Forall_forall. intros b Hb. apply H; [by left|by right|].
    by apply (proj1 (Forall_forall _ _) Hall).
Qed.

(** Under fixed thresholds a larger count never has a milder status.  So
    when the municipality has no override by INE, whenever the classifier
    returns its table, the table, which is sorted by count, lists the teams
    by descending severity: the teams above the hard limit first, the teams
    within the target last. *)
Theorem vinculos_por_gravidade (k : sort_kind) (self : DashboardAPS)
    (df_cid_filtrado : list CitizenRecord) (rows : list VinculoRow) :
  _calcular_vinculos k self df_cid_filtrado = Returns rows ->
  (forall pars, parametros_municipio_atual self = Some pars -> EAP_POR_INE pars = ∅) ->
  (forall n n' t h, n <= n' ->
     gravidade (get_status n t h) <= gravidade (get_status n' t h))
  /\ StronglySorted (fun a b => gravidade (Status b) <= gravidade (Status a)) rows.
Proof.
  intros Hret Hsem. split; [apply get_status_mono|].
  assert (Hpar : forall ine, _get_parametros_por_ine self ine
                   = {| tipo := "ESF"; parametro := parametro_oficial self;
                        limite_maximo := limite_oficial self |}).
  { intros ine. unfold _get_parametros_por_ine.
    destruct (parametros_municipio_atual self) as [pars|] eqn:Hp.
    - by rewrite (Hsem pars eq_refl), lookup_empty.
    - by rewrite lookup_empty. }
  assert (Hin := In_calcular_vinculos k self df_cid_filtrado rows).
  destruct (calcular_vinculos_returns k self _ rows Hret) as [_ Hrows].
  eapply StronglySorted_weaken; [|rewrite Hrows; apply sort_values_desc_sorted].
  intros a b (ga & _ & ->)%Hin (gb & _ & ->)%Hin; [|done..].
  unfold desc_by, classificar. cbn. rewrite !Hpar. cbn. apply get_status_mono.
Qed.

(** Three teams of one facility in PATU, in ascending order of size: 2000,
    2001 and 3001 citizens. *)
Definition tres_equipes : list CitizenRecord :=
  repeat (cidadao_de "EQUIPE 3" "0003" "CAIO") (Z.to_nat 2000)
  ++ repeat bia (Z.to_nat 2001)
  ++ repeat ana (Z.to_nat 3001).

Lemma vinculos_por_gravidade_witness :
  exists rows,
    _calcular_vinculos reversing_kind painel_patu tres_equipes
    = Returns rows
    /\ map (fun r => (Equipe_Original r, N_de_Pessoas_Vinculadas r, Status r)) rows
       = [("EQUIPE 1 - 0001", 3001, ACIMA_DO_LIMITE_MAXIMO);
          ("EQUIPE 2 - 0002", 2001, Acima_do_Parametro);
          ("EQUIPE 3 - 0003", 2000, Dentro_do_Parametro)]
    /\ StronglySorted (fun a b => gravidade (Status b) <= gravidade (Status a)) rows.
Proof.
  eexists. split; [vm_compute; reflexivity|]. split; [reflexivity|].
  eapply (vinculos_por_gravidade reversing_kind painel_patu
            tres_equipes).
  - vm_compute. reflexivity.
  - intros pars [= <-]. reflexivity.
Defined.

(** With an override the order by count is not the order by severity: a
    team of type 30 with two citizens is above its hard limit of one, and
    is listed after an ESF team with three citizens that is only above its
    target. *)
Example vinculos_por_gravidade_override :
  match _calcular_vinculos stable_kind
          (definir_parametros init "X"
             {| MUNICIPIO := "X"; UF := "PB"; PARAMETRO_ESF := 2; LIMITE_ESF := 4;
                EAP_POR_INE :=
                  {[ "0002" := {| tipo := "30"; parametro := 1; limite_maximo := 1 |} ]} |})
          [ana; bia; ana; bia; ana] with
  | Returns rows =>
      map (fun r => (Equipe_Original r, N_de_Pessoas_Vinculadas r, Status r)) rows
  | Raises _ => []
  end
  = [("EQUIPE 1 - 0001", 3, Acima_do_Parametro);
     ("EQUIPE 2 - 0002", 2, ACIMA_DO_LIMITE_MAXIMO)].
Proof. vm_compute. reflexivity. Qed.

(* ================================================================== *)
(** * Outdated registrations per team and the summary per facility *)
(* ================================================================== *)

Module ResumoFacts.
Import Float64Facts.

Lemma filter_length_mono {A : Type} (f g : A -> bool) (l : list A) :
  (forall x, In x l -> f x = true -> g x = true) ->
  (length (List.filter f l) <= length (List.filter g l))%nat.
Proof.
  induction l as [|x l IH]; intros H; [done|].
  cbn [List.filter].
  assert (IH' := IH (fun y Hy => H y (or_intror Hy))).
  destruct (f x) eqn:Hf.
  - rewrite (H x (or_introl eq_refl) Hf). cbn [length]. lia.
  - destruct (g x); cbn [length]; lia.
Qed.

Lemma find_ext {A : Type} (f g : A -> bool) (l : list A) :
  (forall x, f x = g x) -> List.find f l = List.find g l.
Proof.
  intros H. induction l as [|x l IH]; [reflexivity|].
  cbn [List.find]. by rewrite H, IH.
Qed.

Lemma mesma_chave_string {V : Type} (k : string) (e : string * V) :
  mesma_chave String.compare k e = String.eqb e.1 k.
Proof.
  unfold mesma_chave. destruct (String.compare e.1 k) eqn:Hc.
  - apply String.compare_eq_iff in Hc as ->. by rewrite String.eqb_refl.
  - destruct (String.eqb_spec e.1 k) as [Heq|]; [|done].
    by rewrite Heq, string_compare_refl in Hc.
  - destruct (String.eqb_spec e.1 k) as [Heq|]; [|done].
    by rewrite Heq, string_compare_refl in Hc.
Qed.

(** The row carries the key [k]. *)
Definition com_chave {A : Type} (key : A -> option string) (k : string) (r : A)
  : bool :=
  match key r with
  | Some e => String.eqb e k
  | None => false
  end.

(** The count a [size()] by a string key holds under a key; the rows whose
    key is missing are counted nowhere. *)
Lemma valor_size {A : Type} (key : A -> option string) (k : string) (df : list A) :
  valor String.compare k
    (groupby String.compare Z.add (omap (fun r => (fun e => (e, 1)) <$> key r) df))
  = match List.filter (com_chave key k) df with
    | [] => None
    | l => Some (Z.of_nat (length l))
    end.
Proof.
  rewrite (valor_groupby String.compare Z.add string_compare_Eq
             String.compare_antisym string_compare_trans).
  rewrite foldl_acumular_add.
  assert (Hf : List.filter (mesma_chave String.compare k)
                 (omap (fun r => (fun e => (e, 1)) <$> key r) df)
               = map (fun r => (k, 1)) (List.filter (com_chave key k) df)).
  { induction df as [|c df IH]; [reflexivity|].
    cbn [omap list_omap List.filter]. unfold com_chave at 1.
    destruct (key c) as [e|]; cbn [fmap option_fmap option_map]; [|exact IH].
    cbn [List.filter]. rewrite mesma_chave_string, IH. cbn [fst].
    destruct (String.eqb_spec e k) as [->|]; [|reflexivity]. reflexivity. }
  rewrite Hf. destruct (List.filter _ df) as [|c l]; [reflexivity|].
  cbn [map]. f_equal.
  change (total (map (fun r => (k, 1)) (c :: l)) = Z.of_nat (length (c :: l))).
  rewrite total_ones, length_map; [reflexivity|].
  apply Forall_forall. by intros kv (r & <- & _)%in_map_iff.
Qed.

Lemma round64_1 : round64 1%Qc = 1%Qc.
Proof. apply Qc_is_canon. reflexivity. Qed.

Lemma round64_100 : round64 (Qc_of_Z 100) = Qc_of_Z 100.
Proof. apply Qc_is_canon. reflexivity. Qed.

Lemma float_of_Z_mono (a b : Z) : a <= b -> (float_of_Z a <= float_of_Z b)%Qc.
Proof.
  intros Hab. apply round64_mono. exact (proj1 (Z2Qc_inj_le a b) Hab).
Qed.

(** A share of a positive base, as the percentage that the floats give,
    lies between 0 and 100. *)
Lemma percent_bounds (a b : Z) :
  0 <= a <= b -> 0 < b ->
  (0 <= percent a b)%Qc /\ (percent a b <= Qc_of_Z 100)%Qc.
Proof.
  intros [Ha Hab] Hb. unfold percent.
  assert (Hfb : (0 < float_of_Z b)%Qc) by (by apply float_of_Z_pos).
  assert (Hfa : (0 <= float_of_Z a)%Qc).
  { rewrite <- float_of_Z_0. by apply float_of_Z_mono. }
  assert (Hfab : (float_of_Z a <= float_of_Z b)%Qc) by (by apply float_of_Z_mono).
  assert (Hb' : float_of_Z b <> 0%Qc).
  { intros H0. rewrite H0 in Hfb. by apply Qclt_not_eq in Hfb. }
  assert (Hinv : (0 < / float_of_Z b)%Qc) by (by apply Qcinv_pos).
  assert (H100 : (0 <= Qc_of_Z 100)%Qc).
  { apply Qclt_le_weak. by apply Qc_of_Z_pos. }
  assert (Hq0 : (0 <= float_of_Z a / float_of_Z b)%Qc).
  { unfold Qcdiv.
    replace 0%Qc with (0 * / float_of_Z b)%Qc by ring.
    apply Qcmult_le_mono_nonneg_r; [by apply Qclt_le_weak|done]. }
  assert (Hq1 : (float_of_Z a / float_of_Z b <= 1)%Qc).
  { unfold Qcdiv.
    replace 1%Qc with (float_of_Z b * / float_of_Z b)%Qc by (by field).
    apply Qcmult_le_mono_nonneg_r; [by apply Qclt_le_weak|done]. }
  apply round64_mono in Hq0, Hq1. rewrite round64_0 in Hq0. rewrite round64_1 in Hq1.
  split.
  - rewrite <- round64_0. apply round64_mono.
    replace 0%Qc with (0 * Qc_of_Z 100)%Qc by ring.
    by apply Qcmult_le_mono_nonneg_r.
  - rewrite <- round64_100 at 2. apply round64_mono.
    replace (Qc_of_Z 100) with (1 * Qc_of_Z 100)%Qc at 2 by ring.
    by apply Qcmult_le_mono_nonneg_r.
Qed.

End ResumoFacts.

Import ResumoFacts.

(** The outdated registrations of a team key, over all facilities. *)
Definition desatualizados_da_chave (equipe : string) (df : list CitizenRecord)
  : list CitizenRecord :=
  List.filter (com_chave EQUIPE_COMPLETA equipe) (List.filter desatualizado df).

Lemma N_Desatualizados_contagem (df : list CitizenRecord) (r : VinculoRow) :
  N_Desatualizados (contagem_desatualizados df) r
  = Z.of_nat (length (desatualizados_da_chave (Equipe_Original r) df)).
Proof.
  unfold N_Desatualizados, contagem_desatualizados, desatualizados_da_chave.
  rewrite (find_ext _ (mesma_chave String.compare (Equipe_Original r)))
    by (intros e; symmetry; apply mesma_chave_string).
  change (snd <$> List.find (mesma_chave String.compare (Equipe_Original r)) ?g)
    with (valor String.compare (Equipe_Original r) g).
  rewrite (valor_size EQUIPE_COMPLETA).
  by destruct (List.filter _ (List.filter desatualizado df)).
Qed.

(** In the table of outdated registrations, computed from the rows that
    the classifier returns, the count joined to a team row is the number
    of outdated registrations that carry the row's team key in any
    facility, and the percentage is the float of that count over the float
    of the row's enrolled count, rounded, times 100, rounded.  When the
    team key occurs in the row's facility only, the count is at most the
    enrolled count and the percentage lies between 0 and 100. *)
Theorem perc_desatualizados_spec (k : sort_kind) (self : DashboardAPS)
    (df_cid_filtrado : list CitizenRecord) (rows : list VinculoRow)
    (r : VinculoRow) (n : Z) (p : pyfloat) :
  _calcular_vinculos k self df_cid_filtrado = Returns rows ->
  In (r, n, p) (df_merged rows df_cid_filtrado) ->
  n = Z.of_nat (length (desatualizados_da_chave (Equipe_Original r) df_cid_filtrado))
  /\ p = Fin (round64 (round64 (float_of_Z n / float_of_Z (N_de_Pessoas_Vinculadas r))
                       * Qc_of_Z 100))%Qc
  /\ ((forall c, In c df_cid_filtrado ->
         EQUIPE_COMPLETA c = Some (Equipe_Original r) ->
         UNIDADE_DE_SAUDE c = Unidade_de_Saude r) ->
      n <= N_de_Pessoas_Vinculadas r
      /\ exists q, p = Fin q /\ (0 <= q)%Qc /\ (q <= Qc_of_Z 100)%Qc).
Proof.
  intros Hret Hin. unfold df_merged in Hin.
  apply in_map_iff in Hin as (r' & [= -> <- <-] & Hr).
  destruct (vinculo_contagem k self _ rows r Hret Hr) as [HN Hpos].
  rewrite N_Desatualizados_contagem.
  assert (Hp : perc_Desatualizados (contagem_desatualizados df_cid_filtrado) r
               = Fin (percent (Z.of_nat (length (desatualizados_da_chave
                                                   (Equipe_Original r) df_cid_filtrado)))
                        (N_de_Pessoas_Vinculadas r))).
  { unfold perc_Desatualizados. rewrite N_Desatualizados_contagem.
    apply times100_truediv. lia. }
  split; [reflexivity|]. split; [exact Hp|].
  intros Huma.
  assert (Hle : Z.of_nat (length (desatualizados_da_chave (Equipe_Original r)
                                    df_cid_filtrado))
                <= N_de_Pessoas_Vinculadas r).
  { rewrite HN. apply inj_le. unfold desatualizados_da_chave.
    etrans; [|apply (filter_length_mono
                       (fun c => desatualizado c
                                 && com_chave EQUIPE_COMPLETA (Equipe_Original r) c))].
    - clear. induction df_cid_filtrado as [|c df IH]; [done|].
      cbn [List.filter]. destruct (desatualizado c); cbn [List.filter andb]; [|exact IH].
      destruct (com_chave _ _ c); cbn [length]; lia.
    - intros c Hc [_ He]%andb_true_iff. unfold com_chave in He.
      unfold da_equipe, tem_chave.
      destruct (EQUIPE_COMPLETA c) as [e|] eqn:Hkey; [|done].
      apply String.eqb_eq in He as ->.
      by rewrite (Huma c Hc Hkey), !String.eqb_refl. }
  split; [exact Hle|]. eexists. split; [exact Hp|]. apply percent_bounds; lia.
Qed.

(** Team "EQUIPE 1 - 0001" has one citizen in facility "UBS A" and two,
    both outdated, in facility "UBS B". *)
Definition cidadao_em (unidade tempo : string) : CitizenRecord :=
  {| STATUS_DOCUMENTO := Some "COM CPF"; TEMPO_SEM_ATUALIZAR := Some tempo;
     UNIDADE_DE_SAUDE := unidade; NOME_EQUIPE := Some "EQUIPE 1"; INE_EQUIPE := "0001";
     CIDADAO := "CIDADAO"; EQUIPE_COMPLETA := Some "EQUIPE 1 - 0001" |}.

Definition equipe_em_duas_unidades : list CitizenRecord :=
  [cidadao_em "UBS A" "ATÉ 4 MESES"; cidadao_em "UBS B" "MAIS DE 2 ANOS";
   cidadao_em "UBS B" "13 A 24 MESES"].

(** The same team under the parameters of PATU. *)
Definition vinculos_duas_unidades : list VinculoRow :=
  [classificar painel_patu (("UBS B", "EQUIPE 1 - 0001"), 2);
   classificar painel_patu (("UBS A", "EQUIPE 1 - 0001"), 1)].

Lemma perc_desatualizados_spec_witness :
  _calcular_vinculos stable_kind painel_patu equipe_em_duas_unidades
  = Returns vinculos_duas_unidades
  /\ 2 = Z.of_nat (length (desatualizados_da_chave "EQUIPE 1 - 0001"
                             equipe_em_duas_unidades)).
Proof.
  split; [vm_compute; reflexivity|].
  apply (perc_desatualizados_spec stable_kind painel_patu
           equipe_em_duas_unidades vinculos_duas_unidades
           (classificar painel_patu
              (("UBS A", "EQUIPE 1 - 0001"), 1)) 2
           (perc_Desatualizados (contagem_desatualizados equipe_em_duas_unidades)
              (classificar painel_patu
                 (("UBS A", "EQUIPE 1 - 0001"), 1)))).
  - vm_compute. reflexivity.
  - vm_compute. right. left. reflexivity.
Defined.

(** The row of the team in "UBS A" is joined with the outdated
    registrations of both facilities: two against one enrolled, 200 %; an
    outdated registration without a team key is joined to no row. *)
Example perc_desatualizados_duas_unidades :
  map (fun x : VinculoRow * Z * pyfloat =>
         (Unidade_de_Saude x.1.1, N_de_Pessoas_Vinculadas x.1.1, x.1.2,
          match x.2 with Fin q => Some (this q) | _ => None end))
    (df_merged vinculos_duas_unidades
       (equipe_em_duas_unidades
        ++ [{| STATUS_DOCUMENTO := Some "COM CPF";
               TEMPO_SEM_ATUALIZAR := Some "MAIS DE 2 ANOS";
               UNIDADE_DE_SAUDE := "UBS A"; NOME_EQUIPE := None; INE_EQUIPE := "0001";
               CIDADAO := "EVA"; EQUIPE_COMPLETA := None |}]))
  = [("UBS B", 2, 2, Some (inject_Z 100)); ("UBS A", 1, 2, Some (inject_Z 200))].
Proof. vm_compute. reflexivity. Qed.

(* ================================================================== *)
(** * The summary per facility *)
(* ================================================================== *)

Module UnidadeFacts.

Section FilterKey.
Context {K V : Type} (cmp : K -> K -> comparison) (agg : V -> V -> V).
Hypothesis cmp_eq : forall x y, cmp x y = Eq <-> x = y.
Hypothesis cmp_antisym : forall x y, cmp x y = CompOpp (cmp y x).
Hypothesis cmp_trans : forall x y z, cmp x y = Lt -> cmp y z = Lt -> cmp x z = Lt.
Variable P : K -> bool.

Local Abbreviation keep := (List.filter (fun kv : K * V => P kv.1)).

Lemma group_insert_below (k : K) (v : V) (g : list (K * V)) :
  Forall (fun kv => cmp k kv.1 = Lt) g -> group_insert cmp agg k v g = (k, v) :: g.
Proof.
  destruct 1 as [|[k' v'] g Hk _]; [reflexivity|].
  cbn [group_insert]. cbn [fst] in Hk. by rewrite Hk.
Qed.

Lemma Forall_keep (Q : K * V -> Prop) (g : list (K * V)) :
  Forall Q g -> Forall Q (keep g).
Proof.
  induction 1 as [|kv g Hkv _ IH]; [constructor|].
  cbn [List.filter]. destruct (P kv.1); [by constructor|done].
Qed.

Lemma group_insert_keep (k : K) (v : V) (g : list (K * V)) :
  StronglySorted (key_lt cmp) g ->
  keep (group_insert cmp agg k v g)
  = if P k then group_insert cmp agg k v (keep g) else keep g.
Proof.
  induction g as [|[k' v'] g IH]; intros Hs; cbn [group_insert].
  { cbn [List.filter fst]. by destruct (P k). }
  apply StronglySorted_inv in Hs as [Hs Hall].
  destruct (cmp k k') eqn:Hc.
  - apply cmp_eq in Hc as ->. cbn [List.filter fst].
    destruct (P k'); [|reflexivity].
    cbn [group_insert]. by rewrite (proj2 (cmp_eq k' k') eq_refl).
  - cbn [List.filter fst]. destruct (P k) eqn:Hk, (P k') eqn:Hk'.
    + cbn [group_insert]. by rewrite Hc.
    + symmetry. apply group_insert_below, Forall_keep.
      eapply List.Forall_impl; [|exact Hall]. intros kv Hkv. by eapply cmp_trans.
    + reflexivity.
    + reflexivity.
  - cbn [List.filter fst]. rewrite (IH Hs).
    destruct (P k'), (P k); try reflexivity.
    cbn [group_insert]. by rewrite Hc.
Qed.

(** Grouping the rows of the keys that [P] keeps gives the groups of these
    keys. *)
Lemma groupby_keep (rows : list (K * V)) :
  keep (groupby cmp agg rows) = groupby cmp agg (keep rows).
Proof.
  unfold groupby.
  assert (Hgen : forall g, StronglySorted (key_lt cmp) g ->
            keep (foldl (fun g kv => group_insert cmp agg kv.1 kv.2 g) g rows)
            = foldl (fun g kv => group_insert cmp agg kv.1 kv.2 g) (keep g) (keep rows)).
  { induction rows as [|[k v] rows IH]; intros g Hg; [reflexivity|].
    cbn [foldl List.filter fst snd].
    rewrite IH by (by apply group_insert_sorted).
    rewrite group_insert_keep by done. by destruct (P k). }
  rewrite Hgen by constructor. reflexivity.
Qed.

End FilterKey.

Lemma filter_perm {A : Type} (f : A -> bool) (a b : list A) :
  Permutation a b -> Permutation (List.filter f a) (List.filter f b).
Proof.
  induction 1 as [|x a b _ IH|x y a|a b c _ IH1 _ IH2]; cbn [List.filter].
  - constructor.
  - destruct (f x); [by constructor|done].
  - destruct (f x), (f y); try reflexivity. constructor.
  - by etrans.
Qed.

Lemma filter_map_comm {A B : Type} (g : A -> B) (f : B -> bool) (l : list A) :
  List.filter f (map g l) = map g (List.filter (fun x => f (g x)) l).
Proof.
  induction l as [|x l IH]; [reflexivity|].
  cbn [map List.filter]. destruct (f (g x)); cbn [map]; by rewrite IH.
Qed.

Lemma unique_NoDup (l : list string) : List.NoDup l -> unique l = l.
Proof.
  induction 1 as [|x l Hx _ IH]; [reflexivity|].
  cbn [unique]. rewrite IH. f_equal.
  apply TopFacts.filter_all. intros y Hy. apply negb_true_iff, String.eqb_neq.
  congruence.
Qed.

(** The aggregate of the facility summary over the rows of a facility. *)
Lemma foldl_acumular_resumo (u : string) (rows : list (string * (list string * Z)))
    (acc : option (list string * Z)) :
  foldl (acumular String.compare
           (fun a b : list string * Z => (a.1 ++ b.1, a.2 + b.2)) u) acc rows
  = match List.filter (mesma_chave String.compare u) rows, acc with
    | [], _ => acc
    | l, Some a => Some (a.1 ++ List.concat (map (fun e => e.2.1) l),
                         a.2 + foldr Z.add 0 (map (fun e => e.2.2) l))
    | l, None => Some (List.concat (map (fun e => e.2.1) l),
                       foldr Z.add 0 (map (fun e => e.2.2) l))
    end.
Proof.
  revert acc. induction rows as [|[k [ts n]] rows IH]; intros acc; [by destruct acc|].
  cbn [foldl List.filter]. rewrite IH. unfold acumular.
  destruct (mesma_chave String.compare u (k, (ts, n))) eqn:Hk; [|reflexivity].
  destruct (List.filter (mesma_chave String.compare u) rows) as [|e l] eqn:Hl;
    destruct acc as [[ts0 n0]|]; cbn [map List.concat foldr fst snd];
    rewrite ?app_nil_r, ?app_assoc; f_equal; f_equal; lia.
Qed.

End UnidadeFacts.

Import UnidadeFacts.

(** The team rows of a facility. *)
Definition equipes_da_unidade (u : string) (df_vinculos : list VinculoRow)
  : list VinculoRow :=
  List.filter (fun r => String.eqb (Unidade_de_Saude r) u) df_vinculos.

Lemma valor_resumo (u : string) (df_vinculos : list VinculoRow) :
  valor String.compare u
    (groupby String.compare
       (fun a b : list string * Z => (a.1 ++ b.1, a.2 + b.2))
       (map (fun r => (Unidade_de_Saude r,
                       ([Equipe_Original r], N_de_Pessoas_Vinculadas r)))
            df_vinculos))
  = match equipes_da_unidade u df_vinculos with
    | [] => None
    | l => Some (map Equipe_Original l, soma_vinculadas l)
    end.
Proof.
  rewrite (valor_groupby String.compare _ string_compare_Eq
             String.compare_antisym string_compare_trans).
  rewrite foldl_acumular_resumo.
  assert (Hf : List.filter (mesma_chave String.compare u)
                 (map (fun r => (Unidade_de_Saude r,
                                 ([Equipe_Original r], N_de_Pessoas_Vinculadas r)))
                      df_vinculos)
               = map (fun r => (Unidade_de_Saude r,
                                ([Equipe_Original r], N_de_Pessoas_Vinculadas r)))
                   (equipes_da_unidade u df_vinculos)).
  { unfold equipes_da_unidade. rewrite filter_map_comm. f_equal.
    apply filter_ext. intros r. by rewrite mesma_chave_string. }
  rewrite Hf.
  assert (Hc : forall l' : list VinculoRow,
            List.concat
              (map (fun e : string * (list string * Z) => e.2.1)
                 (map (fun r => (Unidade_de_Saude r,
                                 ([Equipe_Original r], N_de_Pessoas_Vinculadas r))) l'))
            = map Equipe_Original l').
  { intros l'. induction l' as [|r' l' IH]; [reflexivity|].
    cbn [map List.concat fst snd app]. by rewrite IH. }
  assert (Hs : forall l' : list VinculoRow,
            foldr Z.add 0
              (map (fun e : string * (list string * Z) => e.2.2)
                 (map (fun r => (Unidade_de_Saude r,
                                 ([Equipe_Original r], N_de_Pessoas_Vinculadas r))) l'))
            = soma_vinculadas l').
  { intros l'. unfold soma_vinculadas. by rewrite map_map. }
  destruct (equipes_da_unidade u df_vinculos) as [|r l]; [reflexivity|].
  etrans; [|exact (f_equal2 (fun a b => Some (a, b)) (Hc (r :: l)) (Hs (r :: l)))].
  reflexivity.
Qed.

Lemma chaves_query_unidade (u : string) (df : list CitizenRecord) :
  List.filter (fun kv : string * string * Z => String.eqb kv.1.1 u) (chaves df)
  = chaves (query_unidade u df).
Proof.
  unfold chaves, query_unidade. induction df as [|c df IH]; [reflexivity|].
  cbn [omap list_omap List.filter].
  destruct (EQUIPE_COMPLETA c) as [e|] eqn:He; cbn [List.filter fst].
  - destruct (String.eqb (UNIDADE_DE_SAUDE c) u); cbn [omap list_omap];
      rewrite ?He, IH; reflexivity.
  - destruct (String.eqb (UNIDADE_DE_SAUDE c) u); cbn [omap list_omap];
      rewrite ?He, IH; reflexivity.
Qed.

Lemma soma_equipes_da_unidade (k : sort_kind) (self : DashboardAPS)
    (df : list CitizenRecord) (rows : list VinculoRow) (u : string) :
  _calcular_vinculos k self df = Returns rows ->
  soma_vinculadas (equipes_da_unidade u rows)
  = Z.of_nat (length (List.filter com_equipe (query_unidade u df))).
Proof.
  intros [_ ->]%calcular_vinculos_returns. unfold equipes_da_unidade.
  rewrite (soma_vinculadas_perm _ _
             (filter_perm _ _ _ (sort_values_desc_perm k _ _))).
  unfold vinculos_classificados. rewrite filter_map_comm.
  change (fun x => String.eqb (Unidade_de_Saude (classificar self x)) u)
    with (fun kv : string * string * Z => (fun key : string * string => String.eqb key.1 u) kv.1).
  unfold contar_vinculos. fold (chaves df).
  rewrite (groupby_keep compare_pair Z.add compare_pair_Eq compare_pair_antisym
             compare_pair_trans (fun key : string * string => String.eqb key.1 u)).
  rewrite chaves_query_unidade.
  change (groupby compare_pair Z.add (chaves (query_unidade u df)))
    with (contar_vinculos (query_unidade u df)).
  fold (vinculos_classificados self (query_unidade u df)).
  apply soma_vinculadas_classificados.
Qed.

Lemma NoDup_equipes_da_unidade (u : string) (l : list VinculoRow) :
  List.NoDup (map chave l) ->
  List.NoDup (map Equipe_Original (equipes_da_unidade u l)).
Proof.
  unfold equipes_da_unidade. induction l as [|r l IH]; [constructor|].
  cbn [map List.filter]. intros [Hr Hl]%List.NoDup_cons_iff.
  destruct (String.eqb_spec (Unidade_de_Saude r) u) as [Hu|_]; [|by apply IH].
  cbn [map]. constructor; [|by apply IH].
  intros (r' & He & [Hr' Hu'%String.eqb_eq]%List.filter_In)%in_map_iff.
  apply Hr. apply in_map_iff. exists r'. split; [|done].
  unfold chave. congruence.
Qed.

Lemma soma_vinculadas_ge (l : list VinculoRow) :
  Forall (fun r => 1 <= N_de_Pessoas_Vinculadas r) l ->
  Z.of_nat (length l) <= soma_vinculadas l.
Proof.
  unfold soma_vinculadas. induction 1 as [|r l Hr _ IH]; cbn [map foldr length]; lia.
Qed.

(** In the summary per facility, computed from the rows that the
    classifier returns, a facility's number of citizens is the number of
    citizen rows of that facility that have a team key, hence the number of
    all its citizen rows when none lacks the key; its number of teams is
    the number of its team rows and is at least one and at most the number
    of citizens, so that the mean per team is a finite number, the rounded
    quotient of the two floats. *)
Theorem resumo_unidades_spec (k : sort_kind) (self : DashboardAPS)
    (df_cid_filtrado : list CitizenRecord) (rows : list VinculoRow)
    (u : string) (n_equipes n_cidadaos : Z) :
  _calcular_vinculos k self df_cid_filtrado = Returns rows ->
  In (u, (n_equipes, n_cidadaos)) (resumo_unidades rows) ->
  n_cidadaos
  = Z.of_nat (length (List.filter com_equipe (query_unidade u df_cid_filtrado)))
  /\ ((forall c, In c (query_unidade u df_cid_filtrado) -> EQUIPE_COMPLETA c <> None) ->
      n_cidadaos = Z.of_nat (length (query_unidade u df_cid_filtrado)))
  /\ n_equipes = Z.of_nat (length (equipes_da_unidade u rows))
  /\ 1 <= n_equipes <= n_cidadaos
  /\ Media_Cidadaos_Equipe (u, (n_equipes, n_cidadaos))
     = Fin (round64 (float_of_Z n_cidadaos / float_of_Z n_equipes))%Qc.
Proof.
  intros Hret Hin. unfold resumo_unidades in Hin.
  apply in_map_iff in Hin as ([u' [ts n]] & [= -> <- <-] & Hin).
  apply (In_valor String.compare string_compare_Eq) in Hin.
  2:{ apply groupby_sorted; [apply String.compare_antisym|apply string_compare_trans]. }
  rewrite valor_resumo in Hin.
  destruct (equipes_da_unidade u rows) as [|r l] eqn:Heq; [done|].
  injection Hin as <- <-.
  change (Equipe_Original r :: map Equipe_Original l)
    with (map Equipe_Original (r :: l)).
  rewrite <- Heq.
  assert (Hnd : List.NoDup (map Equipe_Original (equipes_da_unidade u rows))).
  { apply NoDup_equipes_da_unidade.
    destruct (calcular_vinculos_returns k self _ rows Hret) as [_ ->].
    eapply Permutation_NoDup.
    { apply Permutation_map, Permutation_sym, sort_values_desc_perm. }
    rewrite chave_vinculos.
    apply (groupby_NoDup compare_pair Z.add compare_pair_Eq compare_pair_antisym
             compare_pair_trans). }
  assert (Hge : Z.of_nat (length (equipes_da_unidade u rows))
                <= soma_vinculadas (equipes_da_unidade u rows)).
  { apply soma_vinculadas_ge, Forall_forall. intros r' [Hr' _]%List.filter_In.
    by apply (vinculo_contagem k self df_cid_filtrado rows). }
  assert (Hpos : (0 < length (equipes_da_unidade u rows))%nat).
  { rewrite Heq. cbn [length]. lia. }
  assert (Hsoma := soma_equipes_da_unidade k self df_cid_filtrado rows u Hret).
  cbn [fst snd]. rewrite (unique_NoDup _ Hnd), length_map.
  split; [exact Hsoma|]. split.
  { intros Hall. rewrite Hsoma. f_equal. apply filter_length_all.
    intros c Hc. specialize (Hall c Hc). unfold com_equipe.
    by destruct (EQUIPE_COMPLETA c). }
  split; [reflexivity|]. split; [lia|].
  unfold Media_Cidadaos_Equipe, truediv. cbn [fst snd].
  destruct (Z.eqb_spec (Z.of_nat (length (equipes_da_unidade u rows))) 0); [lia|].
  reflexivity.
Qed.

Lemma resumo_unidades_spec_witness :
  _calcular_vinculos stable_kind painel_patu equipe_em_duas_unidades
  = Returns vinculos_duas_unidades
  /\ 2 = Z.of_nat (length (List.filter com_equipe
                             (query_unidade "UBS B" equipe_em_duas_unidades))).
Proof.
  split; [vm_compute; reflexivity|].
  destruct (resumo_unidades_spec stable_kind painel_patu
              equipe_em_duas_unidades vinculos_duas_unidades "UBS B" 1 2)
    as [H _].
  - vm_compute. reflexivity.
  - vm_compute. right. by left.
  - exact H.
Defined.

(** Of the four citizen rows of "UBS A" one has no team key: the summary
    counts three citizens in two teams. *)
Example resumo_unidades_sem_chave :
  match _calcular_vinculos stable_kind painel_patu
          [ana; bia; sem_equipe "EVA"; ana] with
  | Returns rows => resumo_unidades rows
  | Raises _ => []
  end
  = [("UBS A", (2, 3))].
Proof. vm_compute. reflexivity. Qed.

(* ================================================================== *)
(** * The citizens KPI counts names *)
(* ================================================================== *)

Lemma unique_length (l : list string) : (length (unique l) <= length l)%nat.
Proof.
  induction l as [|x l IH]; [done|]. cbn [unique length].
  assert (Hf := List.filter_length_le (fun y => negb (String.eqb x y)) (unique l)). lia.
Qed.

Lemma unique_length_NoDup (l : list string) :
  length (unique l) = length l <-> List.NoDup l.
Proof.
  split.
  - induction l as [|x l IH]; [constructor|]. cbn [unique length]. intros Hlen.
    assert (Hf := List.filter_length_le (fun y => negb (String.eqb x y)) (unique l)).
    assert (Hu := unique_length l).
    assert (Hl : length (unique l) = length l) by lia.
    assert (Hall : List.filter (fun y => negb (String.eqb x y)) (unique l) = unique l).
    { apply forallb_filter_id, filter_length_forallb. lia. }
    constructor; [|by apply IH].
    intros Hin%In_unique. rewrite <- Hall in Hin.
    apply List.filter_In in Hin as [_ Hx]. by rewrite String.eqb_refl in Hx.
  - intros Hnd. by rewrite unique_NoDup.
Qed.

(** The KPI "Total de Cidadãos" counts the distinct citizen names of the
    frame, whether their rows have a team key or not, and the team table
    counts the rows that have one.  So whenever the classifier returns its
    table and every citizen row has a team key, the KPI never exceeds the
    sum of the enrolled counts of the table, and equals it exactly when no
    two rows carry the same name. *)
Theorem total_cidadaos_vs_vinculos (k : sort_kind) (self : DashboardAPS)
    (df_cid_filtrado : list CitizenRecord) (rows : list VinculoRow) :
  _calcular_vinculos k self df_cid_filtrado = Returns rows ->
  (forall c, In c df_cid_filtrado -> EQUIPE_COMPLETA c <> None) ->
  total_cidadaos df_cid_filtrado <= soma_vinculadas rows
  /\ (total_cidadaos df_cid_filtrado = soma_vinculadas rows
      <-> List.NoDup (map CIDADAO df_cid_filtrado)).
Proof.
  intros Hret Hall.
  rewrite (soma_calcular_vinculos k self df_cid_filtrado rows Hret).
  assert (Hlen : length (List.filter com_equipe df_cid_filtrado)
                 = length df_cid_filtrado).
  { apply filter_length_all. intros c Hc. specialize (Hall c Hc).
    unfold com_equipe. by destruct (EQUIPE_COMPLETA c). }
  rewrite Hlen. unfold total_cidadaos.
  assert (Hle := unique_length (map CIDADAO df_cid_filtrado)).
  rewrite length_map in Hle. split; [lia|].
  rewrite <- unique_length_NoDup, length_map. lia.
Qed.

Lemma total_cidadaos_vs_vinculos_witness :
  exists rows,
    _calcular_vinculos stable_kind painel_patu [ana; bia; ana]
    = Returns rows
    /\ total_cidadaos [ana; bia; ana] = 2
    /\ soma_vinculadas rows = 3
    /\ total_cidadaos [ana; bia; ana] <= soma_vinculadas rows.
Proof.
  eexists. split; [vm_compute; reflexivity|]. split; [reflexivity|].
  split; [reflexivity|].
  eapply (total_cidadaos_vs_vinculos stable_kind painel_patu
            [ana; bia; ana]).
  - vm_compute. reflexivity.
  - intros c [<-|[<-|[<-|[]]]]; discriminate.
Defined.

(** Without the team keys the KPI can exceed the sum: of three citizens of
    distinct names only one has a key. *)
Example total_cidadaos_sem_chave :
  total_cidadaos [ana; sem_equipe "EVA"; sem_equipe "IVO"] = 3
  /\ match _calcular_vinculos stable_kind painel_patu
             [ana; sem_equipe "EVA"; sem_equipe "IVO"] with
     | Returns rows => soma_vinculadas rows = 1
     | Raises _ => False
     end.
Proof. vm_compute. done. Qed.

(* ================================================================== *)
(** * When the crosstab generator returns and when it raises *)
(* ================================================================== *)

Lemma has_column_column (df : DataFrame) (c : string) :
  match column df c with
  | Some _ => has_column df c = true
  | None => has_column df c = false
  end.
Proof.
  unfold has_column, columns. induction df as [|[c' cells] df IH]; [reflexivity|].
  cbn [column map existsb fst]. destruct (String.eqb c c'); [reflexivity|].
  destruct (column df c); exact IH.
Qed.

(** The generator returns the pair of [None] exactly when the grouping
    column is missing.  With the grouping column present, a missing
    categorical column is not reported in that way but raises [KeyError],
    and with both columns present an order list naming "Total" more than
    once raises [ValueError] at the sort. *)
Theorem gerar_grafico_outcomes (k : sort_kind) (df : DataFrame)
    (grupo col_categorica : string) (ordem : list string) :
  (has_column df grupo = false <->
   _gerar_grafico_barras_crosstab k df grupo col_categorica ordem = Returns None)
  /\ (has_column df grupo = true -> has_column df col_categorica = false ->
      _gerar_grafico_barras_crosstab k df grupo col_categorica ordem
      = Raises "KeyError")
  /\ (has_column df grupo = true -> has_column df col_categorica = true ->
      (2 <= length (List.filter (String.eqb "Total") ordem))%nat ->
      _gerar_grafico_barras_crosstab k df grupo col_categorica ordem
      = Raises "ValueError").
Proof.
  assert (Hboth : forall index cats,
            column df grupo = Some index -> column df col_categorica = Some cats ->
            match List.filter (String.eqb "Total") ordem with
            | [] | [_] =>
                exists perc tab,
                  _gerar_grafico_barras_crosstab k df grupo col_categorica ordem
                  = Returns (Some (perc, tab))
            | _ :: _ :: _ =>
                _gerar_grafico_barras_crosstab k df grupo col_categorica ordem
                = Raises "ValueError"
            end).
  { intros index cats Hg Hc.
    rewrite (gerar_unfold k df grupo col_categorica ordem index cats Hg Hc).
    destruct (in_dec string_dec "Total" ordem) as [Hin|Hout].
    - unfold sort_by_total. rewrite totalled_present by done. cbn [ct_columns ct_rows].
      destruct (List.filter (String.eqb "Total") ordem) as [|t [|t' l]] eqn:Hf.
      + exfalso. assert (Ht : In "Total" (List.filter (String.eqb "Total") ordem)).
        { apply List.filter_In. split; [done|]. apply String.eqb_refl. }
        by rewrite Hf in Ht.
      + by eexists _, _.
      + reflexivity.
    - rewrite (filter_eqb_absent "Total" ordem Hout).
      rewrite sort_by_total_absent by done. by eexists _, _. }
  assert (Hg := has_column_column df grupo).
  assert (Hc := has_column_column df col_categorica).
  split; [|split].
  - split.
    + intros Hno. unfold _gerar_grafico_barras_crosstab. by rewrite Hno.
    + intros Hret. destruct (has_column df grupo) eqn:Hhas; [|reflexivity]. exfalso.
      destruct (column df grupo) as [index|] eqn:Hgi; [|congruence].
      destruct (column df col_categorica) as [cats|] eqn:Hci.
      * specialize (Hboth index cats eq_refl eq_refl). rewrite Hret in Hboth.
        destruct (List.filter (String.eqb "Total") ordem) as [|t [|t' l]];
          [destruct Hboth as (? & ? & ?)|destruct Hboth as (? & ? & ?)|]; congruence.
      * unfold _gerar_grafico_barras_crosstab in Hret.
        rewrite Hhas, Hgi, Hci in Hret. cbn in Hret. congruence.
  - intros Hhas Hno. unfold _gerar_grafico_barras_crosstab. rewrite Hhas. cbn [negb].
    destruct (column df grupo) as [index|]; [|congruence].
    destruct (column df col_categorica) as [cats|]; [congruence|reflexivity].
  - intros Hhas Hhas' Hdois.
    destruct (column df grupo) as [index|]; [|congruence].
    destruct (column df col_categorica) as [cats|]; [|congruence].
    specialize (Hboth index cats eq_refl eq_refl).
    destruct (List.filter (String.eqb "Total") ordem) as [|t [|t' l]];
      cbn [length] in Hdois; [lia|lia|exact Hboth].
Qed.

Example gerar_grafico_sem_categoria :
  _gerar_grafico_barras_crosstab stable_kind df_dois_cidadaos "GRUPO" "CPF"
    ["COM CPF"; "SEM CPF"] = Returns None
  /\ _gerar_grafico_barras_crosstab stable_kind df_dois_cidadaos COL_UNIDADE "CPF"
       ["COM CPF"; "SEM CPF"] = Raises "KeyError"
  /\ _gerar_grafico_barras_crosstab stable_kind df_dois_cidadaos COL_UNIDADE
       COL_STATUS_DOC ["Total"; "COM CPF"; "Total"] = Raises "ValueError".
Proof. vm_compute. done. Qed.

(* ================================================================== *)
(** * The table of spontaneous demand *)
(* ================================================================== *)

Module DemandaFacts.

Lemma zip_fst_snd {A B : Type} (d : list (A * B)) : zip (map fst d) (map snd d) = d.
Proof.
  induction d as [|[a b] d IH]; [reflexivity|].
  cbn [map zip zip_with fst snd]. f_equal. exact IH.
Qed.

Lemma In_observations_iff (index cats : list (option string)) (g c : string) :
  In (g, c) (observations index cats) <-> In (Some g, Some c) (zip index cats).
Proof.
  unfold observations. generalize (zip index cats). intros l.
  induction l as [|[[g'|] [c'|]] l IH]; cbn [omap list_omap In]; try done.
  - rewrite IH. split; (intros [H|H]; [left|right]); congruence.
  - rewrite IH. split; [by right|]. by intros [|].
  - rewrite IH. split; [by right|]. by intros [|].
  - rewrite IH. split; [by right|]. by intros [|].
Qed.

(** A crosstab has a column for a category exactly when some row with a
    group carries the category. *)
Lemma ct_has_crosstab (index cats : list (option string)) (c : string) :
  ct_has (pd_crosstab index cats) c = true
  <-> exists g, In (Some g, Some c) (zip index cats).
Proof.
  unfold ct_has, pd_crosstab. cbn [ct_columns].
  rewrite existsb_eqb_In, In_sorted, In_unique, in_map_iff. split.
  - intros ([g c'] & <- & Hin). exists g. by apply In_observations_iff.
  - intros [g Hin]. exists (g, c). split; [reflexivity|]. by apply In_observations_iff.
Qed.

Lemma StronglySorted_filter {A : Type} (R : A -> A -> Prop) (P : A -> Prop)
    `{forall x, Decision (P x)} (l : list A) :
  StronglySorted R l -> StronglySorted R (filter P l).
Proof.
  induction 1 as [|a l Hs IH Hall]; [constructor|].
  rewrite filter_cons. case_decide; [|exact IH].
  constructor; [exact IH|]. apply Forall_forall. intros b Hb.
  apply list_elem_of_In, list_elem_of_filter in Hb as [_ Hb].
  apply (proj1 (Forall_forall _ _) Hall). by apply list_elem_of_In.
Qed.

(** A list that descends on a first key and, among the rows of each value
    of that key, on a second key, descends lexicographically. *)
Lemma lex_sorted {A : Type} (k1 k2 : A -> Z) (l : list A) :
  StronglySorted (desc_by k1) l ->
  (forall v, StronglySorted (desc_by k2) (filter (fun r => k1 r = v) l)) ->
  StronglySorted (fun a b => k1 b < k1 a \/ (k1 b = k1 a /\ k2 b <= k2 a)) l.
Proof.
  induction 1 as [|a l Hs IH Hall]; intros Hties; [constructor|].
  constructor.
  - apply IH. intros v. specialize (Hties v). rewrite filter_cons in Hties.
    case_decide; [|exact Hties]. by apply StronglySorted_inv in Hties as [? _].
  - apply Forall_forall. intros b Hb.
    assert (Hle := proj1 (Forall_forall _ _) Hall b Hb). unfold desc_by in Hle.
    destruct (Z.eq_dec (k1 b) (k1 a)) as [Heq|Hne]; [|left; lia].
    right. split; [exact Heq|].
    specialize (Hties (k1 a)). rewrite filter_cons in Hties.
    case_decide; [|done]. apply StronglySorted_inv in Hties as [_ Hfa].
    apply (proj1 (Forall_forall _ _) Hfa).
    apply list_elem_of_In, list_elem_of_filter. split; [done|]. by apply list_elem_of_In.
Qed.

(** Two stable sorts, on the second key and then on the first. *)
Lemma lexsort_sorted {A : Type} (k1 k2 : A -> Z) (l : list A) :
  StronglySorted (fun a b => k1 b < k1 a \/ (k1 b = k1 a /\ k2 b <= k2 a))
    (stable_sort_desc k1 (stable_sort_desc k2 l)).
Proof.
  apply lex_sorted; [apply isort_desc_sorted|].
  intros v. rewrite isort_desc_stable.
  apply StronglySorted_filter, isort_desc_sorted.
Qed.

End DemandaFacts.

Import DemandaFacts.

(** Some row has a facility and the kind of attendance [t]. *)
Definition ocorre (t : string) (unidade tipo : list (option string)) : Prop :=
  exists u, In (Some u, Some t) (zip unidade tipo).

Lemma ct_has_demanda (unidade tipo : list (option string)) (t : string) :
  categoria_atendimento (Some t) = Some "Demanda Espontânea" ->
  ct_has (pd_crosstab (map fst (df_demanda unidade tipo))
            (map snd (df_demanda unidade tipo))) t = true
  <-> ocorre t unidade tipo.
Proof.
  intros Hcat. rewrite ct_has_crosstab, zip_fst_snd. unfold df_demanda, ocorre.
  split; intros [u Hu]; exists u.
  - by apply List.filter_In in Hu as [Hu _].
  - apply List.filter_In. split; [done|]. cbn [snd]. by rewrite Hcat.
Qed.

(** The table of spontaneous demand can be computed exactly when both kinds
    of spontaneous demand, urgent attendance and same-day consultation,
    occur in the period for some facility: if either is absent the sort
    raises [KeyError].  When it is computed, it has at most 15 facilities,
    in descending order of urgent attendances and, among equal numbers of
    these, of same-day consultations. *)
Theorem tabela_demanda_spec (unidade tipo : list (option string)) :
  (tabela_demanda unidade tipo = Raises "KeyError" <->
   ~ (ocorre "ATENDIMENTO DE URGÊNCIA" unidade tipo
      /\ ocorre "CONSULTA NO DIA" unidade tipo))
  /\ forall tab,
       tabela_demanda unidade tipo = Returns tab ->
       ocorre "ATENDIMENTO DE URGÊNCIA" unidade tipo
       /\ ocorre "CONSULTA NO DIA" unidade tipo
       /\ (length (ct_rows tab) <= 15)%nat
       /\ StronglySorted
            (fun a b =>
               celula tab "ATENDIMENTO DE URGÊNCIA" b < celula tab "ATENDIMENTO DE URGÊNCIA" a
               \/ (celula tab "ATENDIMENTO DE URGÊNCIA" b
                   = celula tab "ATENDIMENTO DE URGÊNCIA" a
                   /\ celula tab "CONSULTA NO DIA" b <= celula tab "CONSULTA NO DIA" a))
            (ct_rows tab).
Proof.
  unfold tabela_demanda.
  set (tab0 := pd_crosstab (map fst (df_demanda unidade tipo))
                 (map snd (df_demanda unidade tipo))).
  assert (Hu := ct_has_demanda unidade tipo "ATENDIMENTO DE URGÊNCIA" eq_refl).
  assert (Hd := ct_has_demanda unidade tipo "CONSULTA NO DIA" eq_refl).
  fold tab0 in Hu, Hd. cbn [forallb].
  destruct (ct_has tab0 "ATENDIMENTO DE URGÊNCIA") eqn:Hhu;
    destruct (ct_has tab0 "CONSULTA NO DIA") eqn:Hhd; cbn [andb].
  - split.
    + split; [discriminate|]. intros Hno. exfalso. apply Hno.
      split; [by apply Hu|by apply Hd].
    + intros tab [= <-]. split; [by apply Hu|]. split; [by apply Hd|].
      cbn [ct_rows]. split.
      * rewrite length_firstn. lia.
      * apply StronglySorted_firstn.
        apply (lexsort_sorted (celula tab0 "ATENDIMENTO DE URGÊNCIA")
                 (celula tab0 "CONSULTA NO DIA")).
  - split; [|discriminate]. split; [|reflexivity].
    intros _ [_ Ho]. apply Hd in Ho. discriminate.
  - split; [|discriminate]. split; [|reflexivity].
    intros _ [Ho _]. apply Hu in Ho. discriminate.
  - split; [|discriminate]. split; [|reflexivity].
    intros _ [Ho _]. apply Hu in Ho. discriminate.
Qed.

(** Two facilities with same-day consultations, and no urgent attendance
    in the period. *)
Example tabela_demanda_sem_urgencia :
  tabela_demanda [Some "UBS A"; Some "UBS B"; Some "UBS A"]
    [Some "CONSULTA NO DIA"; Some "CONSULTA NO DIA"; Some "CONSULTA AGENDADA"]
  = Raises "KeyError".
Proof. vm_compute. reflexivity. Qed.

Example tabela_demanda_duas_unidades :
  tabela_demanda
    [Some "UBS A"; Some "UBS B"; Some "UBS A"; Some "UBS B"; Some "UBS C"]
    [Some "CONSULTA NO DIA"; Some "ATENDIMENTO DE URGÊNCIA"; Some "CONSULTA NO DIA";
     Some "CONSULTA NO DIA"; Some "ATENDIMENTO DE URGÊNCIA"]
  = Returns
      {| ct_columns := ["ATENDIMENTO DE URGÊNCIA"; "CONSULTA NO DIA"];
         ct_rows := [("UBS B", [1; 1]); ("UBS C", [1; 0]); ("UBS A", [0; 2])] |}.
Proof. vm_compute. reflexivity. Qed.

(* ================================================================== *)
(** * The family-link tab counts every answer *)
(* ================================================================== *)

Module FamiliaFacts.

Lemma In_omap_id (cats : list (option string)) (c : string) :
  In c (omap id cats) <-> In (Some c) cats.
Proof.
  induction cats as [|[x|] cats IH]; cbn [omap list_omap id In].
  - done.
  - rewrite IH. split; (intros [H|H]; [left|right]); congruence.
  - rewrite IH. split; [by right|]. by intros [|].
Qed.

Lemma In_observations (index cats : list (option string)) (o : string * string) :
  In o (observations index cats) -> In (Some o.2) cats.
Proof.
  unfold observations. revert cats.
  induction index as [|g index IH]; intros [|c cats]; cbn [zip zip_with omap list_omap];
    try done.
  destruct g as [g|], c as [c|]; cbn [In].
  - intros [<-|Hin]; [by left|]. right. by apply IH.
  - intros Hin. right. by apply IH.
  - intros Hin. right. by apply IH.
  - intros Hin. right. by apply IH.
Qed.

Lemma NoDup_unique (l : list string) : NoDup (unique l).
Proof.
  apply NoDup_ListNoDup. induction l as [|x l IH]; [constructor|].
  cbn [unique]. constructor.
  - intros [_ Hx]%List.filter_In. by rewrite String.eqb_refl in Hx.
  - by apply List.NoDup_filter.
Qed.

Lemma NoDup_sorted (l : list string) : List.NoDup l -> List.NoDup (sorted l).
Proof.
  assert (Hins : forall x l, ~ In x l -> List.NoDup l -> List.NoDup (insert_sorted x l)).
  { intros x l'. induction l' as [|y l' IH]; intros Hx Hnd; cbn [insert_sorted].
    - constructor; [done|constructor].
    - destruct (String.leb x y); [by constructor|].
      apply List.NoDup_cons_iff in Hnd as [Hy Hnd]. constructor.
      + rewrite In_insert_sorted. intros [->|Hin]; [|done]. apply Hx. by left.
      + apply IH; [|done]. intros Hin. apply Hx. by right. }
  induction 1 as [|x l' Hx _ IH]; [constructor|].
  cbn [sorted foldr]. apply Hins; [|exact IH]. by rewrite In_sorted.
Qed.

(** When every observation's category is listed, none is out of order. *)
Lemma in_order_all (ordem : list string) (obs : list (string * string)) :
  (forall o, In o obs -> In o.2 ordem) -> in_order ordem obs = obs.
Proof.
  intros H. unfold in_order. apply TopFacts.filter_all.
  intros o Ho. by apply existsb_eqb_In, H.
Qed.

(** Counting the observations group by group counts each of them once. *)
Lemma soma_por_grupo (G : list string) (obs : list (string * string)) :
  NoDup G -> (forall o, In o obs -> In o.1 G) ->
  foldr Z.add 0
    (map (fun g => Z.of_nat (length (List.filter (fun o => String.eqb o.1 g) obs))) G)
  = Z.of_nat (length obs).
Proof.
  intros Hnd. induction obs as [|o obs IH]; intros Hin.
  - clear. induction G as [|g G IHG]; [reflexivity|].
    cbn [map foldr List.filter length] in *. by rewrite IHG.
  - assert (Hstep : forall G',
      foldr Z.add 0
        (map (fun g => Z.of_nat (length (List.filter (fun o' => String.eqb o'.1 g)
                                           (o :: obs)))) G')
      = foldr Z.add 0
          (map (fun g => Z.of_nat (length (List.filter (fun o' => String.eqb o'.1 g)
                                             obs))) G')
        + foldr Z.add 0 (map (fun g => if String.eqb o.1 g then 1 else 0) G')).
    { intros G'. induction G' as [|g G' IHG]; [reflexivity|].
      cbn [map foldr]. rewrite IHG. cbn [List.filter].
      destruct (String.eqb o.1 g); cbn [length]; lia. }
    rewrite Hstep, IH by (intros o' Ho'; apply Hin; by right).
    rewrite soma_indicator by done.
    rewrite (proj2 (existsb_eqb_In o.1 G)) by (apply Hin; by left).
    cbn [length]. lia.
Qed.

End FamiliaFacts.

Import FamiliaFacts.

(** The households of a facility that have an answer. *)
Definition respostas_de (g : string) (obs : list (string * string))
  : list (string * string) :=
  List.filter (fun o => String.eqb o.1 g) obs.

(** In the family-link tab the categories are read off the answers
    themselves.  Whenever the tab gets its two frames from the generator
    (it gets none when the index cannot be reset or the chart cannot be
    drawn, as with an answer that reads as the label of the facility
    column) and no answer is the text "Total", the columns of the table are
    the distinct answers in order of first appearance, then "Total"; the
    Total of a facility is the number of its households that have an
    answer, so that no answer is left out; and the Totals add up to the
    number of households that have both a facility and an answer. *)
Theorem familia_vinculada_totais (k : sort_kind) (df : DataFrame)
    (index cats : list (option string)) (perc : PercTable) (tab : CountTable) :
  column df "ESTABELECIMENTO_COMPLETO" = Some index ->
  column df COL_FAMILIA_VINCULADA = Some cats ->
  ~ In (Some "Total") cats ->
  _render_aba_familia_vinculada k (Some df) = Returns (Some (perc, tab)) ->
  ct_columns tab = unique (omap id cats) ++ ["Total"]
  /\ (forall r, In r (ct_rows tab) ->
        total_de (ct_columns tab) r
        = Z.of_nat (length (respostas_de r.1 (observations index cats))))
  /\ foldr Z.add 0 (map (total_de (ct_columns tab)) (ct_rows tab))
     = Z.of_nat (length (observations index cats)).
Proof.
  intros Hg Hc Htotal Hret. unfold _render_aba_familia_vinculada in Hret.
  rewrite Hc in Hret.
  set (ordem := unique (omap id cats)) in *.
  set (obs := observations index cats).
  assert (Hno : ~ In "Total" ordem).
  { unfold ordem. rewrite In_unique, In_omap_id. exact Htotal. }
  assert (Hall : forall o, In o obs -> In o.2 ordem).
  { intros o Ho. unfold ordem. rewrite In_unique, In_omap_id.
    by apply (In_observations index cats). }
  assert (Hsoma : forall g, soma (count_obs obs) ordem g
                            = Z.of_nat (length (respostas_de g obs))).
  { intros g. rewrite soma_counts by apply NoDup_unique.
    by rewrite in_order_all. }
  rewrite (gerar_unfold k df _ _ ordem index cats Hg Hc) in Hret.
  rewrite sort_by_total_absent in Hret by done.
  injection Hret as _ <-. cbn [ct_columns ct_rows].
  split; [reflexivity|]. split.
  - intros r Hr.
    destruct (crosstab_rows_absent k _ ordem _ r Hno Hr) as (_ & _ & ->).
    apply Hsoma.
  - assert (Hperm := sort_values_desc_perm k (total_de (ordem ++ ["Total"]))
                       (ct_rows (totalled (count_obs obs) ordem (grupos index cats)))).
    assert (Hsum : forall a b : list (string * list Z), Permutation a b ->
              foldr Z.add 0 (map (total_de (ordem ++ ["Total"])) a)
              = foldr Z.add 0 (map (total_de (ordem ++ ["Total"])) b)).
    { induction 1; cbn [map foldr]; lia. }
    change (observations index cats) with obs.
    rewrite (Hsum _ _ Hperm), totalled_absent by done. cbn [ct_rows].
    rewrite map_map.
    etrans.
    { apply f_equal, map_ext. intros g. unfold total_de. cbn [snd].
      rewrite cell_app_last by done. apply Hsoma. }
    apply soma_por_grupo.
    + apply NoDup_ListNoDup, NoDup_sorted, NoDup_ListNoDup, NoDup_unique.
    + intros o Ho. unfold grupos. apply In_sorted, In_unique. by apply in_map.
Qed.

(** Four households of two facilities: in "UBS A - 1" two answer "SIM" and
    one "NÃO", in "UBS B - 2" one answers "NÃO". *)
Definition df_familias : DataFrame :=
  [ ("ESTABELECIMENTO_COMPLETO",
     [Some "UBS B - 2"; Some "UBS A - 1"; Some "UBS A - 1"; Some "UBS A - 1"]);
    (COL_FAMILIA_VINCULADA, [Some "NÃO"; Some "SIM"; Some "NÃO"; Some "SIM"]) ].

Lemma familia_vinculada_totais_witness :
  exists perc tab,
    _render_aba_familia_vinculada stable_kind (Some df_familias)
    = Returns (Some (perc, tab))
    /\ ct_rows tab = [("UBS A - 1", [1; 2; 3]); ("UBS B - 2", [1; 0; 1])]
    /\ ct_columns tab = ["NÃO"; "SIM"; "Total"].
Proof.
  eexists _, _. split; [vm_compute; reflexivity|]. split; [reflexivity|].
  eapply (familia_vinculada_totais stable_kind df_familias
            [Some "UBS B - 2"; Some "UBS A - 1"; Some "UBS A - 1"; Some "UBS A - 1"]
            [Some "NÃO"; Some "SIM"; Some "NÃO"; Some "SIM"]).
  - reflexivity.
  - reflexivity.
  - intros [H|[H|[H|[H|[]]]]]; discriminate.
  - vm_compute. reflexivity.
Defined.

(** An answer that reads "Total" is not a column of its own: the counts of
    that answer are overwritten by the row sums. *)
Example familia_vinculada_resposta_total :
  match _render_aba_familia_vinculada stable_kind
          (Some [ ("ESTABELECIMENTO_COMPLETO", [Some "UBS A - 1"; Some "UBS A - 1"]);
                  (COL_FAMILIA_VINCULADA, [Some "SIM"; Some "Total"]) ]) with
  | Returns (Some (_, tab)) => Some (ct_columns tab, ct_rows tab)
  | _ => None
  end
  = Some (["SIM"; "Total"], [("UBS A - 1", [1; 2])]).
Proof. vm_compute. reflexivity. Qed.

Example familia_vinculada_tabela :
  match _render_aba_familia_vinculada stable_kind (Some df_familias) with
  | Returns (Some (_, tab)) => Some (ct_columns tab, ct_rows tab)
  | _ => None
  end
  = Some (["NÃO"; "SIM"; "Total"],
          [("UBS A - 1", [1; 2; 3]); ("UBS B - 2", [1; 0; 1])]).
Proof. vm_compute. reflexivity. Qed.

(* ================================================================== *)
(** * The grand-total row of the dental consultations table *)
(* ================================================================== *)

Module EsbFacts.

(** The count a frame holds in a row under a category: 0 when the frame
    has no such column. *)
Definition contagem (tabela : CountTable) (r : string * list Z) (c : string) : Z :=
  default 0 (cell (ct_columns tabela) r.2 c).

Definition zeros (extra : list string) : list Z := map (fun _ => 0) extra.

Lemma zero_fill_cons (tab : CountTable) (c : string) (ordem : list string) :
  zero_fill tab (c :: ordem)
  = zero_fill (if ct_has tab c then tab else set_column tab c (fun _ => 0)) ordem.
Proof. reflexivity. Qed.

(** The loop only appends columns of zeros, one for each missing category. *)
Lemma zero_fill_shape (ordem : list string) (tab : CountTable) :
  exists extra,
    ct_columns (zero_fill tab ordem) = ct_columns tab ++ extra
    /\ ct_rows (zero_fill tab ordem)
       = map (fun r : string * list Z => (r.1, r.2 ++ zeros extra)) (ct_rows tab)
    /\ forall c, In c ordem -> In c (ct_columns tab ++ extra).
Proof.
  revert tab. induction ordem as [|c ordem IH]; intros tab.
  { exists []. split; [by rewrite app_nil_r|]. split; [|done].
    cbn [zero_fill foldl zeros map]. rewrite <- (map_id (ct_rows tab)) at 1.
    apply map_ext. intros [g cells]. cbn [fst snd]. by rewrite app_nil_r. }
  rewrite zero_fill_cons. destruct (ct_has tab c) eqn:Hhas.
  - destruct (IH tab) as (extra & Hcols & Hrows & Hin).
    exists extra. split; [done|]. split; [done|].
    intros c' [<-|Hc']; [|by apply Hin].
    apply in_or_app. left. by apply existsb_eqb_In.
  - assert (Hset : set_column tab c (fun _ => 0)
                   = {| ct_columns := ct_columns tab ++ [c];
                        ct_rows := map (fun r : string * list Z => (r.1, r.2 ++ [0]))
                                       (ct_rows tab) |}).
    { unfold set_column. by rewrite Hhas. }
    rewrite Hset.
    destruct (IH {| ct_columns := ct_columns tab ++ [c];
                    ct_rows := map (fun r : string * list Z => (r.1, r.2 ++ [0]))
                                   (ct_rows tab) |})
      as (extra & Hcols & Hrows & Hin).
    cbn [ct_columns ct_rows] in Hcols, Hrows, Hin.
    exists (c :: extra). split; [|split].
    + by rewrite Hcols, <- app_assoc.
    + rewrite Hrows, map_map. apply map_ext. intros [g cells]. cbn [fst snd zeros map].
      by rewrite <- app_assoc.
    + intros c' Hc'. rewrite <- app_assoc in Hin. destruct Hc' as [<-|Hc'].
      * apply in_or_app. right. by left.
      * by apply Hin.
Qed.

Lemma cell_zeros (extra : list string) (c : string) :
  default 0 (cell extra (zeros extra) c) = 0.
Proof.
  induction extra as [|l extra IH]; [reflexivity|].
  cbn [zeros map cell]. by destruct (String.eqb l c).
Qed.

Lemma cell_app_zeros (cols extra : list string) (cells : list Z) (c : string) :
  length cells = length cols ->
  default 0 (cell (cols ++ extra) (cells ++ zeros extra) c)
  = default 0 (cell cols cells c).
Proof.
  revert cells. induction cols as [|l cols IH]; intros [|x cells] Hlen; try done.
  - cbn [app cell]. by rewrite cell_zeros.
  - cbn [app cell]. destruct (String.eqb l c); [done|].
    apply IH. cbn [length] in Hlen. lia.
Qed.

(** After the loop and the selection, the frame has the listed categories
    as columns and, in each row, the frame's count of each. *)
Lemma select_zero_fill (tab : CountTable) (ordem : list string) :
  Forall (fun r : string * list Z => length r.2 = length (ct_columns tab)) (ct_rows tab) ->
  select_columns (zero_fill tab ordem) ordem
  = Returns {| ct_columns := ordem;
               ct_rows := map (fun r => (r.1, map (contagem tab r) ordem)) (ct_rows tab) |}.
Proof.
  intros Hwf. destruct (zero_fill_shape ordem tab) as (extra & Hcols & Hrows & Hin).
  unfold select_columns.
  assert (Hall : forallb (ct_has (zero_fill tab ordem)) ordem = true).
  { apply forallb_forall. intros c Hc. unfold ct_has. rewrite Hcols.
    by apply existsb_eqb_In, Hin. }
  rewrite Hall, Hcols, Hrows, map_map. f_equal. f_equal.
  apply map_ext_in. intros [g cells] Hr. cbn [fst snd]. f_equal.
  apply map_ext. intros c. unfold contagem. cbn [snd].
  apply cell_app_zeros. by apply (proj1 (Forall_forall _ _) Hwf) in Hr.
Qed.

Lemma foldr_add_map_Some (l : list Z) :
  foldr Z.add 0 (map (default 0) (map Some l)) = foldr Z.add 0 l.
Proof. rewrite map_map. cbn [default]. by rewrite map_id. Qed.

End EsbFacts.

Import EsbFacts.

(** The sum of a category over the facilities, and of a facility over the
    categories. *)
Definition soma_da_categoria (tabela : CountTable) (c : string) : Z :=
  foldr Z.add 0 (map (fun r => contagem tabela r c) (ct_rows tabela)).

Definition soma_da_unidade (tabela : CountTable) (r : string * list Z) : Z :=
  foldr Z.add 0 (map (contagem tabela r) categorias).

(** Whatever the pivot table holds (one cell per column in each row), the
    dental consultations table is returned without an exception; its columns
    are the four categories, then "Total Unidade"; every facility keeps its
    row, with its count of each category (0 for a category that the pivot
    table lacks) and their sum; and the last row, "Total Geral", holds the
    sum of every category over the facilities, but no number under
    "Total Unidade": that cell is missing (NaN), because the row sums of
    [total_geral] are labelled with the position 0 and are assigned after
    the index has been renamed. *)
Theorem consultas_esb_total_geral (tabela : CountTable) :
  Forall (fun r : string * list Z => length r.2 = length (ct_columns tabela))
         (ct_rows tabela) ->
  _render_aba_tipos_consultas_esb tabela
  = Returns
      {| q_columns := categorias ++ ["Total Unidade"];
         q_rows :=
           map (fun r : string * list Z =>
                  (Nome r.1,
                   map (fun c => Some (contagem tabela r c)) categorias
                   ++ [Some (soma_da_unidade tabela r)]))
               (ct_rows tabela)
           ++ [(Nome "Total Geral",
                map (fun c => Some (soma_da_categoria tabela c)) categorias
                ++ [None])] |}.
Proof.
  intros Hwf. unfold _render_aba_tipos_consultas_esb.
  rewrite (select_zero_fill tabela categorias Hwf).
  set (linha := fun r : string * list Z => (r.1, map (contagem tabela r) categorias)).
  set (t1 := {| ct_columns := categorias; ct_rows := map linha (ct_rows tabela) |}).
  assert (Ht2 : set_column t1 "Total Unidade" row_sum
                = {| ct_columns := categorias ++ ["Total Unidade"];
                     ct_rows := map (fun r : string * list Z =>
                                       (r.1, map (contagem tabela r) categorias
                                             ++ [soma_da_unidade tabela r]))
                                    (ct_rows tabela) |}).
  { unfold set_column, t1. cbn [ct_columns ct_rows]. cbn [ct_has ct_columns existsb].
    change (existsb (String.eqb "Total Unidade") categorias) with false. cbv iota.
    by rewrite map_map. }
  rewrite Ht2.
  set (t2 := {| ct_columns := categorias ++ ["Total Unidade"];
               ct_rows := map (fun r : string * list Z =>
                                 (r.1, map (contagem tabela r) categorias
                                       ++ [soma_da_unidade tabela r]))
                              (ct_rows tabela) |}).
  assert (Hsel : select_columns t2 categorias = Returns t1).
  { unfold select_columns, t2, t1. cbn [ct_columns ct_rows].
    change (forallb (ct_has {| ct_columns := categorias ++ ["Total Unidade"];
                               ct_rows := _ |}) categorias) with true. cbv iota.
    f_equal. f_equal. rewrite map_map. apply map_ext. intros r. unfold linha.
    cbn [fst snd].
    f_equal; try (apply map_ext_in; intros c Hc; by rewrite cell_app_other). }
  rewrite Hsel.
  assert (Hsums : somar_colunas t1 = map (soma_da_categoria tabela) categorias).
  { unfold somar_colunas, t1. cbn [ct_columns ct_rows]. apply map_ext_in. intros c Hc.
    unfold soma_da_categoria. rewrite map_map. f_equal. apply map_ext. intros r.
    unfold linha. cbn [snd]. by rewrite cell_map. }
  rewrite Hsums. unfold set_index. cbn [length q_rows Nat.eqb].
  cbn [zip_with q_columns snd]. unfold setitem_serie.
  cbn [q_columns q_rows].
  change (existsb (String.eqb "Total Unidade") categorias) with false. cbv iota.
  cbn [map fst snd somar_linhas q_rows valor_em List.find rotulo_eqb fmap option_fmap
       option_map].
  unfold concat, quadro_de, t2. cbn [q_columns q_rows ct_columns ct_rows].
  change (List.filter _ (categorias ++ ["Total Unidade"])) with (@nil string).
  rewrite app_nil_r. f_equal. f_equal. f_equal.
  rewrite !map_map. apply map_ext. intros r. reflexivity.
Qed.

(** A pivot table of two facilities in which only two of the four
    categories occur. *)
Definition pivot_duas_unidades : CountTable :=
  {| ct_columns := ["Consulta de retorno em odontologia"; "Não informado"];
     ct_rows := [("UBS A", [2; 1]); ("UBS B", [0; 4])] |}.

Lemma consultas_esb_total_geral_witness :
  _render_aba_tipos_consultas_esb pivot_duas_unidades
  = Returns
      {| q_columns := categorias ++ ["Total Unidade"];
         q_rows := [ (Nome "UBS A", [Some 0; Some 2; Some 1; Some 0; Some 3]);
                     (Nome "UBS B", [Some 0; Some 0; Some 4; Some 0; Some 4]);
                     (Nome "Total Geral", [Some 0; Some 2; Some 5; Some 0; None]) ] |}.
Proof.
  rewrite (consultas_esb_total_geral pivot_duas_unidades).
  - reflexivity.
  - repeat constructor.
Defined.
